(** * Zendesk migration proxy: retry policy, user cache, ticket pipeline

    A shallow embedding of [server.js].  The asynchronous JavaScript code is
    written in a small state-and-exception monad: the state holds the
    process-wide [userCache], the console, and the chronological trace of
    remote calls and [sleep]s; the remote helpdesk API is an oracle that
    answers the k-th [axios] call. *)

From stdpp Require Import gmap strings list pretty.
From Stdlib Require Import ZArith String Ascii Lia.

Open Scope string_scope.
Open Scope Z_scope.

(** ** Data model *)

(** [{ username, password }] as built by [createZendeskAuth]. *)
Record Auth := { username : string; password : string }.

(** One helpdesk account, as sent in the request body ([source], [target]). *)
Record Credentials := { subdomain : string; email : string; token : string }.

(** A ticket of the remote API.  [t_tags] is optional because the source
    reads it as [sourceTicket.tags || []]. *)
Record Ticket := {
  t_id : Z;
  t_subject : string;
  t_description : string;
  t_status : string;
  t_priority : option string;
  t_type : option string;
  t_tags : option (list string);
  t_requester_id : Z
}.

(** The [ticketData.ticket] object posted to the target;
    [d_requester_id] is only attached when [requesterId] is truthy. *)
Record TicketDraft := {
  d_subject : string;
  d_description : string;
  d_status : string;
  d_priority : option string;
  d_type : option string;
  d_tags : list string;
  d_requester_id : option Z
}.

Record User := { u_id : Z; u_name : string; u_email : string; u_role : string }.

(** The [user] object posted by [migrateUser]. *)
Record NewUser := {
  nu_name : string; nu_email : string; nu_role : string; nu_verified : bool
}.

(** A ticket comment; [c_channel] is [comment.via?.channel]
    ([None] when [via] or [channel] is absent). *)
Record Comment := { c_body : string; c_public : bool; c_channel : option string }.

(** Response bodies ([response.data]).  A key that a body does not carry
    reads as [undefined]. *)
Inductive Body :=
| BTicket (t : Ticket)
| BUser (u : User)
| BUsers (us : list User)
| BComments (cs : list Comment)
| BRaw (raw : string).

Definition body_ticket (b : Body) : option Ticket :=
  match b with BTicket t => Some t | _ => None end.
Definition body_user (b : Body) : option User :=
  match b with BUser u => Some u | _ => None end.
Definition body_users (b : Body) : option (list User) :=
  match b with BUsers us => Some us | _ => None end.
Definition body_comments (b : Body) : option (list Comment) :=
  match b with BComments cs => Some cs | _ => None end.

(** An HTTP response; [retry_after] is [headers['retry-after']]. *)
Record Response := { status : Z; retry_after : option string; data : Body }.

(** A thrown JavaScript error: an axios error carries the [response] when the
    server answered; a [TypeError] or a network failure has none. *)
Record Error := { message : string; response : option Response }.

Definition type_error (msg : string) : Error :=
  {| message := msg; response := None |}.

Definition undefined_read (prop : string) : Error :=
  type_error ("Cannot read properties of undefined (reading '" ++ prop ++ "')").

(** Request payloads ([data] of the axios config). *)
Inductive Payload :=
| PTicket (t : TicketDraft)
| PUser (u : NewUser)
| PComment (body : string) (public : bool)
| PRaw (raw : string).

(** The axios config. *)
Record Request := {
  method : string;
  url : string;
  auth : Auth;
  req_data : option Payload;
  headers : list (string * string)
}.

(** JavaScript numbers as far as [sleep] sees them. *)
Inductive JsNum := Num (z : Z) | NaN.

Definition js_mul (a : JsNum) (k : Z) : JsNum :=
  match a with Num z => Num (z * k) | NaN => NaN end.

Definition js_num_to_string (a : JsNum) : string :=
  match a with Num z => pretty z | NaN => "NaN" end.

(** What a function call evaluates to when the callers only look at
    "a number or nothing". *)
Inductive jsval := JUndefined | JNumber (z : Z).

Inductive Event :=
| ECall (r : Request)
| ESleep (ms : JsNum).

Inductive LogLine :=
| Log (msg : string)
| LogError (msg arg : string).

(** Process state: [clock] counts the remote calls issued so far. *)
Record State := {
  clock : nat;
  trace : list Event;
  console : list LogLine;
  userCache : gmap string (option Z)
}.

Definition init_state : State :=
  {| clock := 0; trace := []; console := []; userCache := ∅ |}.

(** ** The monad of the embedding *)

Inductive Completion (A : Type) :=
| Normal (a : A)
| Throw (e : Error).
Arguments Normal {A} a.
Arguments Throw {A} e.

Definition M (A : Type) : Type := State -> Completion A * State.

Definition ret {A} (a : A) : M A := fun s => (Normal a, s).

Definition throw {A} (e : Error) : M A := fun s => (Throw e, s).

Definition bind {A B} (m : M A) (k : A -> M B) : M B :=
  fun s => match m s with
           | (Normal a, s') => k a s'
           | (Throw e, s') => (Throw e, s')
           end.

(** [try { m } catch (error) { h error }] *)
Definition try_catch {A} (m : M A) (h : Error -> M A) : M A :=
  fun s => match m s with
           | (Normal a, s') => (Normal a, s')
           | (Throw e, s') => h e s'
           end.

Declare Scope js_scope.
Delimit Scope js_scope with js.
Notation "x <- c ;; k" := (bind c (fun x => k))
  (at level 100, c at next level, right associativity) : js_scope.
Notation "c ;; k" := (bind c (fun _ => k))
  (at level 100, right associativity) : js_scope.
Open Scope js_scope.

Definition console_log (msg : string) : M unit :=
  fun s => (Normal tt,
            {| clock := clock s; trace := trace s;
               console := console s ++ [Log msg]; userCache := userCache s |}).

Definition console_error (msg arg : string) : M unit :=
  fun s => (Normal tt,
            {| clock := clock s; trace := trace s;
               console := console s ++ [LogError msg arg]; userCache := userCache s |}).

(** [await sleep(ms)] *)
Definition sleep (ms : JsNum) : M unit :=
  fun s => (Normal tt,
            {| clock := clock s; trace := trace s ++ [ESleep ms];
               console := console s; userCache := userCache s |}).

Definition cache_has (k : string) : M bool :=
  fun s => (Normal (bool_decide (is_Some (userCache s !! k))), s).

(** [userCache.get(k)]: the stored value, [undefined] when absent. *)
Definition cache_get (k : string) : M (option Z) :=
  fun s => (Normal (default None (userCache s !! k)), s).

Definition cache_set (k : string) (v : option Z) : M unit :=
  fun s => (Normal tt,
            {| clock := clock s; trace := trace s; console := console s;
               userCache := <[k := v]> (userCache s) |}).

(** Reading property [prop] of a value that may be [undefined]. *)
Definition require {A} (o : option A) (prop : string) : M A :=
  match o with
  | Some a => ret a
  | None => throw (undefined_read prop)
  end.

(** ** Helper functions of the source *)

Definition createZendeskAuth (email token : string) : Auth :=
  {| username := email ++ "/token"; password := token |}.

(** *** [parseInt] (no radix argument)

    The digits are read exactly, as an integer.  JavaScript returns a double:
    the two agree up to [2^53] in absolute value; above it JavaScript rounds
    and this function does not.  Leading white space is the ASCII white space
    (tab, line feed, vertical tab, form feed, carriage return, space);
    JavaScript also skips the white space characters outside ASCII. *)

Definition is_space (c : ascii) : bool :=
  let n := N_of_ascii c in
  ((9 <=? n) && (n <=? 13))%N || (n =? 32)%N.

Fixpoint skip_spaces (s : string) : string :=
  match s with
  | String c s' => if is_space c then skip_spaces s' else s
  | EmptyString => EmptyString
  end.

Definition digit_of (radix : Z) (c : ascii) : option Z :=
  let n := Z.of_N (N_of_ascii c) in
  let d := if (48 <=? n) && (n <=? 57) then Some (n - 48)
           else if (97 <=? n) && (n <=? 122) then Some (n - 87)
           else if (65 <=? n) && (n <=? 90) then Some (n - 55)
           else None in
  match d with
  | Some v => if v <? radix then Some v else None
  | None => None
  end.

Fixpoint parse_digits (radix : Z) (s : string) (acc : option Z) : option Z :=
  match s with
  | String c s' =>
      match digit_of radix c with
      | Some d =>
          parse_digits radix s'
            (Some (match acc with Some a => a * radix + d | None => d end))
      | None => acc
      end
  | EmptyString => acc
  end.

Definition parse_unsigned (s : string) : option Z :=
  match s with
  | String "0" (String "x" s') => parse_digits 16 s' None
  | String "0" (String "X" s') => parse_digits 16 s' None
  | _ => parse_digits 10 s None
  end.

Definition parseInt (s : string) : JsNum :=
  let s := skip_spaces s in
  let '(sign, s) :=
    match s with
    | String "-" s' => (-1, s')
    | String "+" s' => (1, s')
    | _ => (1, s)
    end in
  match parse_unsigned s with
  | Some v => Num (sign * v)
  | None => NaN
  end.

(** [h || '60'] for a header value [h] (absent or empty is falsy). *)
Definition or_default (h : option string) (d : string) : string :=
  match h with
  | Some EmptyString | None => d
  | Some s => s
  end.

(** [error.response?.status === 429] *)
Definition is_rate_limit (e : Error) : bool :=
  match response e with
  | Some r => status r =? 429
  | None => false
  end.

Definition header_retry_after (e : Error) : option string :=
  match response e with
  | Some r => retry_after r
  | None => None
  end.

(** *** [encodeURIComponent] on a UTF-8 byte string *)

Definition is_unreserved (c : ascii) : bool :=
  let n := N_of_ascii c in
  (((65 <=? n) && (n <=? 90)) || ((97 <=? n) && (n <=? 122))
   || ((48 <=? n) && (n <=? 57)))%N
  || bool_decide (c ∈ ["-"; "_"; "."; "!"; "~"; "*"; "'"; "("; ")"]%char).

Definition hex_digit (n : N) : ascii :=
  if (n <? 10)%N then ascii_of_N (48 + n) else ascii_of_N (55 + n).

Fixpoint encodeURIComponent (s : string) : string :=
  match s with
  | String c s' =>
      if is_unreserved c then String c (encodeURIComponent s')
      else
        let n := N_of_ascii c in
        String "%" (String (hex_digit (n / 16)) (String (hex_digit (n mod 16))
          (encodeURIComponent s')))
  | EmptyString => EmptyString
  end.

(** ** The axios configs built by the source

    Identifiers are integers and are written into URLs and cache keys in
    decimal ([pretty]), which is how JavaScript prints an integer below
    [10^21]; larger ones, which JavaScript prints with an exponent, are not
    what these builders describe. *)

Definition ticket_fetch_request (ticketId : Z) (source : Credentials) : Request :=
  {| method := "GET";
     url := "https://" ++ subdomain source ++ ".zendesk.com/api/v2/tickets/"
            ++ pretty ticketId ++ ".json";
     auth := createZendeskAuth (email source) (token source);
     req_data := None; headers := [] |}.

Definition ticket_create_request (target : Credentials) (ticketData : TicketDraft)
    : Request :=
  {| method := "POST";
     url := "https://" ++ subdomain target ++ ".zendesk.com/api/v2/tickets.json";
     auth := createZendeskAuth (email target) (token target);
     req_data := Some (PTicket ticketData); headers := [] |}.

Definition user_fetch_request (userId : Z) (source : Credentials) : Request :=
  {| method := "GET";
     url := "https://" ++ subdomain source ++ ".zendesk.com/api/v2/users/"
            ++ pretty userId ++ ".json";
     auth := createZendeskAuth (email source) (token source);
     req_data := None; headers := [] |}.

Definition user_search_request (target : Credentials) (user_email : string)
    : Request :=
  {| method := "GET";
     url := "https://" ++ subdomain target
            ++ ".zendesk.com/api/v2/users/search.json?query="
            ++ encodeURIComponent user_email;
     auth := createZendeskAuth (email target) (token target);
     req_data := None; headers := [] |}.

(** [role: user.role === 'admin' ? 'agent' : user.role, verified: true] *)
Definition new_user (user : User) : NewUser :=
  {| nu_name := u_name user;
     nu_email := u_email user;
     nu_role := if bool_decide (u_role user = "admin") then "agent" else u_role user;
     nu_verified := true |}.

Definition user_create_request (target : Credentials) (user : User) : Request :=
  {| method := "POST";
     url := "https://" ++ subdomain target ++ ".zendesk.com/api/v2/users.json";
     auth := createZendeskAuth (email target) (token target);
     req_data := Some (PUser (new_user user)); headers := [] |}.

Definition comments_fetch_request (sourceTicketId : Z) (source : Credentials)
    : Request :=
  {| method := "GET";
     url := "https://" ++ subdomain source ++ ".zendesk.com/api/v2/tickets/"
            ++ pretty sourceTicketId ++ "/comments.json";
     auth := createZendeskAuth (email source) (token source);
     req_data := None; headers := [] |}.

Definition comment_append_request (targetTicketId : Z) (target : Credentials)
    (comment : Comment) : Request :=
  {| method := "PUT";
     url := "https://" ++ subdomain target ++ ".zendesk.com/api/v2/tickets/"
            ++ pretty targetTicketId ++ ".json";
     auth := createZendeskAuth (email target) (token target);
     req_data := Some (PComment (c_body comment) (c_public comment));
     headers := [] |}.

Definition whoami_request (account : Credentials) : Request :=
  {| method := "GET";
     url := "https://" ++ subdomain account ++ ".zendesk.com/api/v2/users/me.json";
     auth := createZendeskAuth (email account) (token account);
     req_data := None; headers := [] |}.

(** ** Request and response bodies of the endpoints *)

Record Options := { dryRun : bool; migrateUsers : bool; migrateCommentsOpt : bool }.

Record MigrateReq := {
  ticketId : Z; source : Credentials; target : Credentials; options : Options
}.

(** The body of [POST /proxy]; every field may be missing. *)
Record ProxyReq := {
  p_method : option string;
  p_url : option string;
  p_data : option string;
  p_subdomain : option string;
  p_email : option string;
  p_token : option string
}.

Record TestReq := { test_source : Credentials; test_target : Credentials }.

(** The JSON documents the handlers answer with. *)
Inductive ResJson :=
| JError (error : string) (msg : option string) (details : option Body)
| JBody (b : Body)
| JTestOk (source_user source_email target_user target_email : string)
| JTestFailed (error msg : string) (details : option Body)
| JDryRun (id : Z) (subject : string) (msg : string)
| JMigrated (sourceTicketId targetTicketId : Z) (subject : string)
| JMigrateFailed (error : string) (ticketId : Z).

Record HttpRes := { code : Z; json : ResJson }.

(** JavaScript truthiness of a string that may be missing, and of an id. *)
Definition truthy_string (o : option string) : bool :=
  match o with
  | Some EmptyString | None => false
  | Some _ => true
  end.

Definition truthy_id (o : option Z) : bool :=
  match o with
  | Some z => negb (z =? 0)
  | None => false
  end.

(** [`${o}`] for a string that may be missing. *)
Definition template_string (o : option string) : string :=
  default "undefined" o.

Section Server.

(** The remote API: the answer to the k-th call, given its config. *)
Variable remote : nat -> Request -> Completion Response.

(** [await axios(config)] *)
Definition axios (r : Request) : M Response :=
  fun s => (remote (clock s) r,
            {| clock := S (clock s); trace := trace s ++ [ECall r];
               console := console s; userCache := userCache s |}).

(** *** [retryRequest]

    [for (let attempt = 1; attempt <= maxRetries; attempt++)]: the loop is
    unrolled on [fuel], the number of iterations still allowed; [continue]
    and the end of the body both reach [attempt++].  Leaving the loop
    returns [undefined] ([None]). *)
Fixpoint retry_loop (requestFunc : M Response) (maxRetries : nat)
    (fuel : nat) (attempt : nat) : M (option Response) :=
  match fuel with
  | O => ret None
  | S fuel' =>
      if (attempt <=? maxRetries)%nat then
        try_catch
          (r <- requestFunc ;; ret (Some r))
          (fun error =>
             if is_rate_limit error then
               let retryAfter := parseInt (or_default (header_retry_after error) "60") in
               console_log ("Rate limited. Waiting " ++ js_num_to_string retryAfter ++ "s...") ;;
               sleep (js_mul retryAfter 1000) ;;
               retry_loop requestFunc maxRetries fuel' (S attempt)
             else if (attempt =? maxRetries)%nat then throw error
             else
               sleep (Num (2 ^ Z.of_nat attempt * 1000)) ;;
               retry_loop requestFunc maxRetries fuel' (S attempt))
      else ret None
  end.

Definition retryRequest (requestFunc : M Response) (maxRetries : nat)
    : M (option Response) :=
  retry_loop requestFunc maxRetries maxRetries 1.

(** The default [maxRetries = 3], used by every caller. *)
Definition retryRequest3 (requestFunc : M Response) : M (option Response) :=
  retryRequest requestFunc 3.

(** [response.data] where [response] is what [retryRequest] returned. *)
Definition get_data (r : option Response) : M Body :=
  r <- require r "data" ;; ret (data r).

(** *** [migrateUser] *)

Definition cache_key (userId : Z) (source target : Credentials) : string :=
  pretty userId ++ "-" ++ subdomain source ++ "-" ++ subdomain target.

(** The body of the [try] block of [migrateUser].  [user] may be [undefined];
    [user.email] and [user.name] are read inside the closures handed to
    [retryRequest], so a [TypeError] raised there goes through the retry
    loop like any other failure of the operation. *)
Definition migrateUser_try (userId : Z) (source target : Credentials)
    (cacheKey : string) : M (option Z) :=
  userResponse <- retryRequest3 (axios (user_fetch_request userId source)) ;;
  d <- get_data userResponse ;;
  let user := body_user d in
  searchResponse <-
    retryRequest3 (u <- require user "email" ;;
                   axios (user_search_request target (u_email u))) ;;
  d <- get_data searchResponse ;;
  match body_users d with
  | Some (existing :: _) =>
      let existingId := u_id existing in
      cache_set cacheKey (Some existingId) ;;
      ret (Some existingId)
  | _ =>
      createResponse <-
        retryRequest3 (u <- require user "name" ;;
                       axios (user_create_request target u)) ;;
      d <- get_data createResponse ;;
      created <- require (body_user d) "id" ;;
      let newId := u_id created in
      cache_set cacheKey (Some newId) ;;
      u <- require user "email" ;;
      console_log ("Created user: " ++ u_email u) ;;
      ret (Some newId)
  end.

Definition migrateUser (userId : Z) (source target : Credentials) : M (option Z) :=
  let cacheKey := cache_key userId source target in
  hit <- cache_has cacheKey ;;
  if hit : bool then cache_get cacheKey
  else
    try_catch (migrateUser_try userId source target cacheKey)
      (fun error =>
         console_error ("Failed to migrate user " ++ pretty userId ++ ":") (message error) ;;
         ret None).

(** *** [migrateComments] *)

(** [comment.via?.channel === 'api'] *)
Definition is_api_comment (comment : Comment) : bool :=
  bool_decide (c_channel comment = Some "api").

(** The [for (const comment of comments)] loop. *)
Fixpoint comments_loop (targetTicketId : Z) (target : Credentials)
    (comments : list Comment) : M unit :=
  match comments with
  | [] => ret tt
  | comment :: rest =>
      (if is_api_comment comment then ret tt
       else
         try_catch
           (retryRequest3 (axios (comment_append_request targetTicketId target comment)) ;;
            sleep (Num 300))
           (fun error => console_error "Failed to migrate comment:" (message error))) ;;
      comments_loop targetTicketId target rest
  end.

(** The body of the [try] block of [migrateComments]. *)
Definition migrateComments_try (sourceTicketId targetTicketId : Z)
    (source target : Credentials) : M jsval :=
  commentsResponse <- retryRequest3 (axios (comments_fetch_request sourceTicketId source)) ;;
  d <- get_data commentsResponse ;;
  let comments := default [] (body_comments d) in
  comments_loop targetTicketId target comments ;;
  console_log ("Migrated " ++ pretty (List.length comments) ++ " comments") ;;
  ret JUndefined.

(** The function has no [return] statement: it evaluates to [undefined]. *)
Definition migrateComments (sourceTicketId targetTicketId : Z)
    (source target : Credentials) : M jsval :=
  try_catch (migrateComments_try sourceTicketId targetTicketId source target)
    (fun error =>
       console_error "Failed to migrate comments:" (message error) ;;
       ret JUndefined).

(** *** [POST /api/migrate-ticket] *)

Definition ticket_draft (sourceTicket : Ticket) (requesterId : option Z)
    : TicketDraft :=
  {| d_subject := t_subject sourceTicket;
     d_description := t_description sourceTicket;
     d_status := t_status sourceTicket;
     d_priority := t_priority sourceTicket;
     d_type := t_type sourceTicket;
     d_tags := default [] (t_tags sourceTicket);
     d_requester_id := if truthy_id requesterId then requesterId else None |}.

(** The body of the handler's [try] block. *)
Definition migrate_ticket_try (req : MigrateReq) : M HttpRes :=
  console_log ("Migrating ticket #" ++ pretty (ticketId req)) ;;
  ticketResponse <- retryRequest3 (axios (ticket_fetch_request (ticketId req) (source req))) ;;
  d <- get_data ticketResponse ;;
  let sourceTicket := body_ticket d in
  requesterId <-
    (if migrateUsers (options req) then
       t <- require sourceTicket "requester_id" ;;
       migrateUser (t_requester_id t) (source req) (target req)
     else ret None) ;;
  t <- require sourceTicket "subject" ;;
  let ticketData := ticket_draft t requesterId in
  if dryRun (options req) then
    ret {| code := 200;
           json := JDryRun (ticketId req) (t_subject t) "Dry run - ticket not created" |}
  else
    createResponse <- retryRequest3 (axios (ticket_create_request (target req) ticketData)) ;;
    d <- get_data createResponse ;;
    let newTicket := body_ticket d in
    (if migrateCommentsOpt (options req) then
       nt <- require newTicket "id" ;;
       migrateComments (ticketId req) (t_id nt) (source req) (target req) ;;
       ret tt
     else ret tt) ;;
    nt <- require newTicket "id" ;;
    ret {| code := 200;
           json := JMigrated (ticketId req) (t_id nt) (t_subject t) |}.

Definition migrate_ticket_handler (req : MigrateReq) : M HttpRes :=
  try_catch (migrate_ticket_try req)
    (fun error =>
       console_error "Failed to migrate ticket:" (message error) ;;
       ret {| code := 500; json := JMigrateFailed (message error) (ticketId req) |}).

(** *** [POST /proxy] *)

Definition proxy_request (req : ProxyReq) (path : string) : Request :=
  {| method := if truthy_string (p_method req) then template_string (p_method req)
               else "GET";
     url := "https://" ++ template_string (p_subdomain req) ++ ".zendesk.com" ++ path;
     auth := createZendeskAuth (template_string (p_email req))
               (template_string (p_token req));
     req_data := PRaw <$> p_data req;
     headers := [("Content-Type", "application/json")] |}.

Definition proxy_try (req : ProxyReq) : M HttpRes :=
  if negb (truthy_string (p_subdomain req)) || negb (truthy_string (p_email req))
     || negb (truthy_string (p_token req))
  then
    ret {| code := 400;
           json := JError "Missing credentials"
                     (Some "subdomain, email, and token are required") None |}
  else
    path <- require (p_url req) "startsWith" ;;
    if negb (String.prefix "/api/v2/" path) then
      ret {| code := 400; json := JError "Invalid Zendesk API path" None None |}
    else
      response <- retryRequest3 (axios (proxy_request req path)) ;;
      d <- get_data response ;;
      ret {| code := 200; json := JBody d |}.

(** [error.response?.status || 500] *)
Definition error_status (e : Error) : Z :=
  match response e with
  | Some r => if status r =? 0 then 500 else status r
  | None => 500
  end.

Definition proxy_handler (req : ProxyReq) : M HttpRes :=
  try_catch (proxy_try req)
    (fun error =>
       console_error "Proxy error:" (message error) ;;
       ret {| code := error_status error;
              json := JError (message error) None (data <$> response error) |}).

(** *** [POST /api/test] *)

Definition test_try (req : TestReq) : M HttpRes :=
  sourceResponse <- retryRequest3 (axios (whoami_request (test_source req))) ;;
  targetResponse <- retryRequest3 (axios (whoami_request (test_target req))) ;;
  ds <- get_data sourceResponse ;;
  su <- require (body_user ds) "name" ;;
  dt <- get_data targetResponse ;;
  tu <- require (body_user dt) "name" ;;
  ret {| code := 200;
         json := JTestOk (u_name su) (u_email su) (u_name tu) (u_email tu) |}.

Definition test_handler (req : TestReq) : M HttpRes :=
  try_catch (test_try req)
    (fun error =>
       console_error "Test connection failed:" (message error) ;;
       ret {| code := 401;
              json := JTestFailed "Connection failed" (message error)
                        (data <$> response error) |}).

End Server.

(** ** Reading traces *)

Open Scope list_scope.

Definition event_call (e : Event) : option Request :=
  match e with ECall r => Some r | ESleep _ => None end.

Definition event_sleep (e : Event) : option JsNum :=
  match e with ESleep ms => Some ms | ECall _ => None end.

(** The remote calls of a trace, in order. *)
Definition calls (t : list Event) : list Request := omap event_call t.

(** The waits of a trace, in order. *)
Definition sleeps (t : list Event) : list JsNum := omap event_sleep t.

(** What was appended to the trace between [s] and [s']. *)
Definition new_events (s s' : State) : list Event :=
  drop (List.length (trace s)) (trace s').

(** ** Scripted remotes for concrete runs *)

(** The k-th call gets the k-th answer of [script]; later calls get [d]. *)
Definition scripted (script : list (Completion Response)) (d : Completion Response)
    : nat -> Request -> Completion Response :=
  fun k _ => nth k script d.

Definition http_error (st : Z) (ra : option string) : Error :=
  {| message := ("Request failed with status code " ++ pretty st)%string;
     response := Some {| status := st; retry_after := ra; data := BRaw "" |} |}.

Definition rejects (st : Z) (ra : option string) : Completion Response :=
  Throw (http_error st ra).

Definition answers (b : Body) : Completion Response :=
  Normal {| status := 200; retry_after := None; data := b |}.

Definition network_error : Completion Response :=
  Throw {| message := "socket hang up"; response := None |}.

Definition account (sub : string) : Credentials :=
  {| subdomain := sub; email := ("ops@" ++ sub ++ ".example")%string;
     token := "secret" |}.

(** ** Vocabulary of the statements and sample data *)

Definition probe : Request := whoami_request (account "acme").

(** The source user was fetched: the retried fetch at [s] returned [user]. *)
Definition fetched_user (remote : nat -> Request -> Completion Response)
    (userId : Z) (source : Credentials) (s : State) (user : User) : Prop :=
  exists resp s1,
    retryRequest3 (axios remote (user_fetch_request userId source)) s
      = (Normal (Some resp), s1)
    /\ data resp = BUser user.

(** The shape of the remote calls of one uncached resolution. *)
Definition resolution_calls (remote : nat -> Request -> Completion Response)
    (userId : Z) (source target : Credentials) (s : State) (cs : list Request)
    : Prop :=
  exists k1,
    (1 <= k1 <= 3)%nat /\
    (cs = replicate k1 (user_fetch_request userId source) \/
     exists user k2,
       fetched_user remote userId source s user /\ (1 <= k2 <= 3)%nat /\
       (cs = replicate k1 (user_fetch_request userId source)
             ++ replicate k2 (user_search_request target (u_email user)) \/
        exists k3,
          (1 <= k3 <= 3)%nat /\
          cs = replicate k1 (user_fetch_request userId source)
               ++ replicate k2 (user_search_request target (u_email user))
               ++ replicate k3 (user_create_request target user))).

Definition is_post (r : Request) : Prop := method r = "POST".

#[local] Instance is_post_dec (r : Request) : Decision (is_post r).
Proof. unfold is_post. apply _. Defined.

(** The invariant of the user cache: no key is bound to [null]. *)
Definition cache_ok (s : State) : Prop :=
  forall k v, userCache s !! k = Some v -> v <> None.

Definition admin_ann : User :=
  {| u_id := 5; u_name := "Ann"; u_email := "ann@acme.example"; u_role := "admin" |}.

Definition agent_ann_created : User :=
  {| u_id := 77; u_name := "Ann"; u_email := "ann@acme.example"; u_role := "agent" |}.

Definition resolve_once_remote : nat -> Request -> Completion Response :=
  scripted [answers (BUser admin_ann); answers (BUsers []);
            answers (BUser agent_ann_created)] network_error.

(** A comment that the loop does not skip. *)
Definition ordinary (c : Comment) : Prop := is_api_comment c = false.

#[local] Instance ordinary_dec (c : Comment) : Decision (ordinary c).
Proof. unfold ordinary. apply _. Defined.

(** The append calls of a run: for each comment, in order, [k] attempts of
    its update request. *)
Definition append_blocks (targetTicketId : Z) (target : Credentials)
    (cs : list Comment) (ks : list nat) : list Request :=
  List.concat
    (zip_with (fun c k => replicate k (comment_append_request targetTicketId target c))
       cs ks).

Definition comment_api : Comment :=
  {| c_body := "Ticket imported"; c_public := false; c_channel := Some "api" |}.
Definition comment_first : Comment :=
  {| c_body := "My printer is on fire"; c_public := true; c_channel := Some "web" |}.
Definition comment_second : Comment :=
  {| c_body := "Have you tried water?"; c_public := false; c_channel := None |}.

Definition comments_remote : nat -> Request -> Completion Response :=
  scripted [answers (BComments [comment_first; comment_api; comment_second])]
    (answers (BRaw "ok")).

(** The state after one [console.log]. *)
Definition logged (msg : string) (s : State) : State := snd (console_log msg s).

(** The requester stage of the pipeline, once the source ticket is known. *)
Definition requester_stage (remote : nat -> Request -> Completion Response)
    (req : MigrateReq) (t : Ticket) : M (option Z) :=
  if migrateUsers (options req)
  then migrateUser remote (t_requester_id t) (source req) (target req)
  else ret None.

Definition ticket_printer : Ticket :=
  {| t_id := 1; t_subject := "Printer on fire"; t_description := "It burns";
     t_status := "open"; t_priority := Some "urgent"; t_type := None;
     t_tags := None; t_requester_id := 5 |}.

Definition ticket_printer_created : Ticket :=
  {| t_id := 900; t_subject := "Printer on fire"; t_description := "It burns";
     t_status := "open"; t_priority := Some "urgent"; t_type := None;
     t_tags := Some []; t_requester_id := 77 |}.

Definition migrate_request (opts : Options) : MigrateReq :=
  {| ticketId := 1; source := account "acme"; target := account "globex";
     options := opts |}.

(** A run in which the update of the first comment fails three times (HTTP
    500) and the update of the second one is accepted. *)
Definition failing_comment_remote : nat -> Request -> Completion Response :=
  scripted [answers (BTicket ticket_printer);
            answers (BTicket ticket_printer_created);
            answers (BComments [comment_api; comment_first; comment_second]);
            rejects 500 None; rejects 500 None; rejects 500 None]
    (answers (BRaw "ok")).

(** A computation that cannot put a [null] into the cache. *)
Definition keeps_cache_ok {A} (m : M A) : Prop :=
  forall s r s', m s = (r, s') -> cache_ok s -> cache_ok s'.

(** The requests the server accepts. *)
Inductive Incoming :=
| InProxy (req : ProxyReq)
| InTest (req : TestReq)
| InMigrate (req : MigrateReq).

Definition serve (remote : nat -> Request -> Completion Response) (i : Incoming)
    : M HttpRes :=
  match i with
  | InProxy req => proxy_handler remote req
  | InTest req => test_handler remote req
  | InMigrate req => migrate_ticket_handler remote req
  end.

(** The states the process goes through when each request is served to its
    end before the next one starts.  Calls that overlap are the subject of
    the section on overlapping calls below. *)
Inductive reachable (remote : nat -> Request -> Completion Response) : State -> Prop :=
| reach_start : reachable remote init_state
| reach_serve (s : State) (i : Incoming) :
    reachable remote s -> reachable remote (snd (serve remote i s)).

(** A migration whose requester cannot be fetched: the resolver returns
    [null], the ticket is created without a requester, nothing is cached. *)
Definition unreachable_user_remote : nat -> Request -> Completion Response :=
  scripted [answers (BTicket ticket_printer);
            network_error; network_error; network_error;
            answers (BTicket ticket_printer_created)]
    (answers (BRaw "ok")).

(** The schedule of a retried call that meets no rate limit: [k] calls, the
    call of attempt [n] followed by a wait of [2^n] seconds when another call
    follows. *)
Fixpoint backoff_trace (q : Request) (attempt k : nat) : list Event :=
  match k with
  | O => []
  | S k' =>
      match k' with
      | O => [ECall q]
      | S _ =>
          ECall q :: ESleep (Num (2 ^ Z.of_nat attempt * 1000))
            :: backoff_trace q (S attempt) k'
      end
  end.

(** The characters ["0"] to ["9"]. *)
Definition is_decimal_digit (c : ascii) : bool :=
  let n := N_of_ascii c in ((48 <=? n) && (n <=? 57))%N.

(** A string that is empty or starts with a decimal digit. *)
Definition digits_head (s : string) : Prop :=
  match s with
  | String c _ => is_decimal_digit c = true
  | EmptyString => True
  end.

(** The characters [encodeURIComponent] can produce. *)
Definition is_uri_safe (c : ascii) : bool :=
  is_unreserved c || bool_decide (c = "%"%char).

Fixpoint string_forallb (p : ascii -> bool) (s : string) : bool :=
  match s with
  | String c s' => p c && string_forallb p s'
  | EmptyString => true
  end.

(** Relations between the state before and after a computation that hold
    across logging and waiting and compose along a run. *)
Class Quiet (R : State -> State -> Prop) : Prop := {
  quiet_refl : forall s, R s s;
  quiet_trans : forall a b c, R a b -> R b c -> R a c;
  quiet_log : forall msg s, R s (snd (console_log msg s));
  quiet_error : forall msg arg s, R s (snd (console_error msg arg s));
  quiet_sleep : forall ms s, R s (snd (sleep ms s))
}.

(** Every run of [m] relates its start to its end by [R]. *)
Definition steps (R : State -> State -> Prop) {A} (m : M A) : Prop :=
  forall s, R s (snd (m s)).

(** The cache is left as it is. *)
Definition cache_same (s s' : State) : Prop := userCache s' = userCache s.

(** Only requests satisfying [P] were sent. *)
Definition emits (P : Request -> Prop) (s s' : State) : Prop :=
  exists t, trace s' = trace s ++ t /\ Forall P (calls t).

(** A request that reads, or that is sent to the API of [account] with that
    account's credentials. *)
Definition read_or_sent_to (account : Credentials) (r : Request) : Prop :=
  (method r = "GET" /\ req_data r = None) \/
  (String.prefix ("https://" ++ subdomain account ++ ".zendesk.com/api/v2/")%string
     (url r) = true /\
   auth r = createZendeskAuth (email account) (token account)).

(** What [m] evaluates to, when it does not throw, satisfies [Q]. *)
Definition returns {A} (Q : A -> Prop) (m : M A) : Prop :=
  forall s, match fst (m s) with Normal a => Q a | Throw _ => True end.

(** What [m] throws, when it throws, satisfies [P]. *)
Definition throws_only {A} (P : Error -> Prop) (m : M A) : Prop :=
  forall s, match fst (m s) with Throw e => P e | Normal _ => True end.

(** *** The first version of the proxy (the repository's other source file)

    It reads one account from the environment and forwards a request with a
    single [axios] call, without the retry policy.  The environment
    variables, and [method] and [data] of the body, may be missing. *)

Record Env := {
  ZENDESK_DOMAIN : option string;
  ZENDESK_EMAIL : option string;
  ZENDESK_API_TOKEN : option string
}.

Record EnvProxyReq := {
  ep_method : option string;
  ep_url : option string;
  ep_data : option string
}.

(** The axios config of this version: [method] and the password are passed
    on as they are, missing or not. *)
Record EnvRequest := {
  er_method : option string;
  er_url : string;
  er_username : string;
  er_password : option string;
  er_data : option string
}.

Definition env_request (env : Env) (req : EnvProxyReq) (path : string) : EnvRequest :=
  {| er_method := ep_method req;
     er_url := "https://" ++ template_string (ZENDESK_DOMAIN env) ++ ".zendesk.com"
               ++ path;
     er_username := template_string (ZENDESK_EMAIL env) ++ "/token";
     er_password := ZENDESK_API_TOKEN env;
     er_data := ep_data req |}.

(** The handler, given how the remote answers a config: the answer and the
    configs sent, in order. *)
Definition env_proxy_handler (env : Env) (remote : EnvRequest -> Completion Response)
    (req : EnvProxyReq) : HttpRes * list EnvRequest :=
  match ep_url req with
  | None =>
      ({| code := 500;
          json := JError (message (undefined_read "startsWith")) None None |}, [])
  | Some path =>
      if negb (String.prefix "/api/v2/" path) then
        ({| code := 400; json := JError "Invalid Zendesk API path" None None |}, [])
      else
        match remote (env_request env req path) with
        | Normal response => ({| code := 200; json := JBody (data response) |},
                              [env_request env req path])
        | Throw error =>
            ({| code := 500;
                json := JError (message error) None (data <$> response error) |},
             [env_request env req path])
        end
  end.

Definition existing_user_remote : nat -> Request -> Completion Response :=
  scripted [answers (BUser admin_ann); answers (BUsers [agent_ann_created; admin_ann])]
    network_error.

Definition proxy_ok_request : ProxyReq :=
  {| p_method := None; p_url := Some "/api/v2/tickets/1.json"; p_data := None;
     p_subdomain := Some "acme"; p_email := Some "ops@acme.example";
     p_token := Some "secret" |}.

Definition create_fails_remote : nat -> Request -> Completion Response :=
  scripted [answers (BTicket ticket_printer);
            rejects 422 None; rejects 422 None; rejects 422 None]
    (answers (BComments [comment_first])).

(** ** Overlapping calls

    Above, a computation runs from start to end on the state it is given.
    The real functions are [async]: at every [await] of a remote call or of a
    [sleep] they are suspended, and another call may run and change the
    cache before they go on.  A [Task] is a call between two such points:
    finished, or suspended with the state it left and the rest of its work,
    which takes the state it is resumed in.  An [await] of a value that is
    already there yields too; these functions neither read nor write the
    state between such a point and the resumption before it, so letting
    another call run there is the same as letting it run before that
    resumption, and the two are one step here. *)

Inductive Task (A : Type) : Type :=
| Finished (c : Completion A) (s : State)
| Suspended (s : State) (resume : State -> Task A).
Arguments Finished {A} c s.
Arguments Suspended {A} s resume.

(** An [async] function call: run from a state to its first suspension. *)
Definition Async (A : Type) : Type := State -> Task A.

(** Synchronous code is one uninterrupted step. *)
Definition a_lift {A} (m : M A) : Async A :=
  fun s => let '(c, s') := m s in Finished c s'.

Fixpoint task_bind {A B} (t : Task A) (k : A -> Async B) : Task B :=
  match t with
  | Finished (Normal a) s => k a s
  | Finished (Throw e) s => Finished (Throw e) s
  | Suspended s resume => Suspended s (fun s' => task_bind (resume s') k)
  end.

Definition a_bind {A B} (m : Async A) (k : A -> Async B) : Async B :=
  fun s => task_bind (m s) k.

Fixpoint task_catch {A} (t : Task A) (h : Error -> Async A) : Task A :=
  match t with
  | Finished (Normal a) s => Finished (Normal a) s
  | Finished (Throw e) s => h e s
  | Suspended s resume => Suspended s (fun s' => task_catch (resume s') h)
  end.

Definition a_try_catch {A} (m : Async A) (h : Error -> Async A) : Async A :=
  fun s => task_catch (m s) h.

Notation "x <~ c ;; k" := (a_bind c (fun x => k))
  (at level 100, c at next level, right associativity) : js_scope.

(** [await axios(config)]: the request is sent, the call is suspended, and
    the answer is there when it is resumed. *)
Definition a_axios (remote : nat -> Request -> Completion Response) (r : Request)
    : Async Response :=
  fun s => Suspended (snd (axios remote r s))
             (fun s' => Finished (remote (clock s) r) s').

(** [await sleep(ms)] *)
Definition a_sleep (ms : JsNum) : Async unit :=
  fun s => Suspended (snd (sleep ms s)) (fun s' => Finished (Normal tt) s').

(** [retryRequest], with its suspension points. *)
Fixpoint a_retry_loop (requestFunc : Async Response) (maxRetries : nat)
    (fuel : nat) (attempt : nat) : Async (option Response) :=
  match fuel with
  | O => a_lift (ret None)
  | S fuel' =>
      if (attempt <=? maxRetries)%nat then
        a_try_catch
          (r <~ requestFunc ;; a_lift (ret (Some r)))
          (fun error =>
             if is_rate_limit error then
               let retryAfter := parseInt (or_default (header_retry_after error) "60") in
               _ <~ a_lift (console_log ("Rate limited. Waiting "
                                         ++ js_num_to_string retryAfter ++ "s...")%string) ;;
               _ <~ a_sleep (js_mul retryAfter 1000) ;;
               a_retry_loop requestFunc maxRetries fuel' (S attempt)
             else if (attempt =? maxRetries)%nat then a_lift (throw error)
             else
               _ <~ a_sleep (Num (2 ^ Z.of_nat attempt * 1000)) ;;
               a_retry_loop requestFunc maxRetries fuel' (S attempt))
      else a_lift (ret None)
  end.

Definition a_retryRequest3 (requestFunc : Async Response) : Async (option Response) :=
  a_retry_loop requestFunc 3 3 1.

(** [migrateUser], with its suspension points: the cache is looked up in the
    first step and written in the last one, and every remote call in between
    lets other calls run. *)
Definition a_migrateUser_try (remote : nat -> Request -> Completion Response)
    (userId : Z) (source target : Credentials) (cacheKey : string)
    : Async (option Z) :=
  userResponse <~ a_retryRequest3 (a_axios remote (user_fetch_request userId source)) ;;
  d <~ a_lift (get_data userResponse) ;;
  let user := body_user d in
  searchResponse <~
    a_retryRequest3 (u <~ a_lift (require user "email") ;;
                     a_axios remote (user_search_request target (u_email u))) ;;
  d <~ a_lift (get_data searchResponse) ;;
  match body_users d with
  | Some (existing :: _) =>
      let existingId := u_id existing in
      a_lift (cache_set cacheKey (Some existingId) ;; ret (Some existingId))
  | _ =>
      createResponse <~
        a_retryRequest3 (u <~ a_lift (require user "name") ;;
                         a_axios remote (user_create_request target u)) ;;
      a_lift (d <- get_data createResponse ;;
              created <- require (body_user d) "id" ;;
              let newId := u_id created in
              cache_set cacheKey (Some newId) ;;
              u <- require user "email" ;;
              console_log ("Created user: " ++ u_email u)%string ;;
              ret (Some newId))
  end.

Definition a_migrateUser (remote : nat -> Request -> Completion Response)
    (userId : Z) (source target : Credentials) : Async (option Z) :=
  let cacheKey := cache_key userId source target in
  hit <~ a_lift (cache_has cacheKey) ;;
  if hit : bool then a_lift (cache_get cacheKey)
  else
    a_try_catch (a_migrateUser_try remote userId source target cacheKey)
      (fun error =>
         a_lift (console_error ("Failed to migrate user " ++ pretty userId ++ ":")%string
                   (message error) ;;
                 ret None)).

(** A task run alone: each time it is suspended it is resumed at once, in
    the state it left. *)
Fixpoint complete {A} (t : Task A) : Completion A * State :=
  match t with
  | Finished c s => (c, s)
  | Suspended s resume => complete (resume s)
  end.

(** The state a task has reached. *)
Definition task_state {A} (t : Task A) : State :=
  match t with
  | Finished _ s => s
  | Suspended s _ => s
  end.

(** A call in a pool of running calls. *)
Inductive Slot (A : Type) : Type :=
| Running (resume : State -> Task A)
| Ended (c : Completion A).
Arguments Running {A} resume.
Arguments Ended {A} c.

(** Lets a call run one step, from the current state to its next suspension
    or to its end. *)
Definition advance {A} (sl : Slot A) (s : State) : Slot A * State :=
  match sl with
  | Running resume =>
      match resume s with
      | Finished c s' => (Ended c, s')
      | Suspended s' resume' => (Running resume', s')
      end
  | Ended c => (Ended c, s)
  end.

(** Two calls sharing the state; the schedule says which one runs next
    ([true] for the first). *)
Fixpoint interleave {A B} (schedule : list bool) (a : Slot A) (b : Slot B)
    (s : State) : Slot A * Slot B * State :=
  match schedule with
  | [] => (a, b, s)
  | true :: rest => let '(a', s') := advance a s in interleave rest a' b s'
  | false :: rest => let '(b', s') := advance b s in interleave rest a b' s'
  end.

(** The async function behaves, run alone, as the computation [m]. *)
Definition refines {A} (a : Async A) (m : M A) : Prop :=
  forall s, complete (a s) = m s.

(** Every step of the task, from whatever state it is resumed in, relates
    that state to the one it leaves by [R]. *)
Fixpoint task_keeps (R : State -> State -> Prop) {A} (t : Task A) : Prop :=
  match t with
  | Finished _ _ => True
  | Suspended _ resume =>
      forall s', R s' (task_state (resume s')) /\ task_keeps R (resume s')
  end.

Definition async_keeps (R : State -> State -> Prop) {A} (a : Async A) : Prop :=
  forall s, R s (task_state (a s)) /\ task_keeps R (a s).

(** No key is lost and no [null] comes in. *)
Definition cache_safe (s s' : State) : Prop :=
  dom (userCache s) ⊆ dom (userCache s') /\ (cache_ok s -> cache_ok s').

(** What two overlapping resolutions of one requester are answered: the
    source user to each, an empty search to each, and a newly created user
    to each (77, then 78). *)
Definition overlap_remote : nat -> Request -> Completion Response :=
  scripted [answers (BUser admin_ann); answers (BUser admin_ann);
            answers (BUsers []); answers (BUsers []);
            answers (BUser agent_ann_created);
            answers (BUser {| u_id := 78; u_name := "Ann";
                              u_email := "ann@acme.example"; u_role := "agent" |})]
    network_error.

(** A slot whose remaining steps all keep [R]. *)
Definition slot_keeps (R : State -> State -> Prop) {A} (sl : Slot A) : Prop :=
  match sl with
  | Running resume => async_keeps R resume
  | Ended _ => True
  end.

(** ** Basic facts about the monad *)

Lemma calls_app (t1 t2 : list Event) : calls (t1 ++ t2) = calls t1 ++ calls t2.
Proof. unfold calls. apply omap_app. Qed.

Lemma sleeps_app (t1 t2 : list Event) : sleeps (t1 ++ t2) = sleeps t1 ++ sleeps t2.
Proof. unfold sleeps. apply omap_app. Qed.

Lemma calls_cons_call (r : Request) (t : list Event) :
  calls (ECall r :: t) = r :: calls t.
Proof. reflexivity. Qed.

Lemma calls_cons_sleep (ms : JsNum) (t : list Event) :
  calls (ESleep ms :: t) = calls t.
Proof. reflexivity. Qed.

Lemma sleeps_cons_call (r : Request) (t : list Event) :
  sleeps (ECall r :: t) = sleeps t.
Proof. reflexivity. Qed.

Lemma sleeps_cons_sleep (ms : JsNum) (t : list Event) :
  sleeps (ESleep ms :: t) = ms :: sleeps t.
Proof. reflexivity. Qed.

Lemma new_events_app (s s' : State) (t : list Event) :
  trace s' = trace s ++ t -> new_events s s' = t.
Proof. intros H. unfold new_events. rewrite H. apply drop_app_length. Qed.

Lemma new_events_refl (s : State) : new_events s s = [].
Proof. apply new_events_app. now rewrite app_nil_r. Qed.

(** ** The retry policy *)

(** One iteration that ends in a rate-limit answer: the wait is taken and the
    loop goes on with [attempt + 1]. *)
Lemma retry_loop_rate_limited (f : M Response) (maxRetries fuel attempt : nat)
    (s s1 : State) (e : Error) :
  (attempt <= maxRetries)%nat ->
  f s = (Throw e, s1) ->
  is_rate_limit e = true ->
  retry_loop f maxRetries (S fuel) attempt s =
  retry_loop f maxRetries fuel (S attempt)
    (snd (sleep (js_mul (parseInt (or_default (header_retry_after e) "60")) 1000)
       (snd (console_log
               ("Rate limited. Waiting "
                ++ js_num_to_string (parseInt (or_default (header_retry_after e) "60"))
                ++ "s...")%string s1)))).
Proof.
  intros Hle Hf He. simpl.
  apply Nat.leb_le in Hle. rewrite Hle.
  unfold try_catch, bind at 1. rewrite Hf. rewrite He. reflexivity.
Qed.

(** One iteration that ends in another failure before the last attempt. *)
Lemma retry_loop_backoff (f : M Response) (maxRetries fuel attempt : nat)
    (s s1 : State) (e : Error) :
  (attempt < maxRetries)%nat ->
  f s = (Throw e, s1) ->
  is_rate_limit e = false ->
  retry_loop f maxRetries (S fuel) attempt s =
  retry_loop f maxRetries fuel (S attempt)
    (snd (sleep (Num (2 ^ Z.of_nat attempt * 1000)) s1)).
Proof.
  intros Hlt Hf He. simpl.
  assert (Hle : (attempt <=? maxRetries)%nat = true) by (apply Nat.leb_le; lia).
  assert (Hne : (attempt =? maxRetries)%nat = false) by (apply Nat.eqb_neq; lia).
  rewrite Hle. unfold try_catch, bind at 1. rewrite Hf, He, Hne. reflexivity.
Qed.

(** A failure on the last attempt is rethrown. *)
Lemma retry_loop_last (f : M Response) (maxRetries fuel : nat)
    (s s1 : State) (e : Error) :
  f s = (Throw e, s1) ->
  is_rate_limit e = false ->
  retry_loop f maxRetries (S fuel) maxRetries s = (Throw e, s1).
Proof.
  intros Hf He. simpl. rewrite Nat.leb_refl, Nat.eqb_refl.
  unfold try_catch, bind. rewrite Hf, He. reflexivity.
Qed.

(** A successful attempt is returned at once. *)
Lemma retry_loop_success (f : M Response) (maxRetries fuel attempt : nat)
    (s s1 : State) (r : Response) :
  (attempt <= maxRetries)%nat ->
  f s = (Normal r, s1) ->
  retry_loop f maxRetries (S fuel) attempt s = (Normal (Some r), s1).
Proof.
  intros Hle Hf. simpl. apply Nat.leb_le in Hle. rewrite Hle.
  unfold try_catch, bind. rewrite Hf. reflexivity.
Qed.

(** The loop never runs out of [fuel] before [attempt] passes [maxRetries]:
    more fuel changes nothing. *)
Lemma retry_loop_fuel (f : M Response) (maxRetries : nat) :
  forall fuel attempt extra s,
    (maxRetries < attempt + fuel)%nat ->
    retry_loop f maxRetries (fuel + extra) attempt s =
    retry_loop f maxRetries fuel attempt s.
Proof.
  induction fuel as [|fuel IH]; intros attempt extra s Hf.
  - simpl. destruct extra as [|extra]; [reflexivity|]. simpl.
    assert (H : (attempt <=? maxRetries)%nat = false) by (apply Nat.leb_gt; lia).
    rewrite H. reflexivity.
  - simpl. destruct (attempt <=? maxRetries)%nat; [|reflexivity].
    unfold try_catch. destruct (bind f _ s) as [[a|e] s1]; [reflexivity|].
    destruct (is_rate_limit e).
    + unfold bind. simpl. apply IH. lia.
    + destruct (attempt =? maxRetries)%nat; [reflexivity|].
      unfold bind. simpl. apply IH. lia.
Qed.

(** [retryRequest] starts with exactly the fuel the loop can use. *)
Lemma retryRequest_fuel (f : M Response) (maxRetries extra : nat) (s : State) :
  retry_loop f maxRetries (maxRetries + extra) 1 s = retryRequest f maxRetries s.
Proof. unfold retryRequest. apply retry_loop_fuel. lia. Qed.

(** Rate-limit answers use up the loop: after [maxRetries = 3] of them in a
    row, whatever the operation, the loop is left and the result is
    [undefined]; the operation is not run a fourth time. *)
Lemma retryRequest_three_rate_limits (f : M Response) (s0 s1 s2 s3 : State)
    (e1 e2 e3 : Error) :
  let wait e s :=
    snd (sleep (js_mul (parseInt (or_default (header_retry_after e) "60")) 1000)
           (snd (console_log
                   ("Rate limited. Waiting "
                    ++ js_num_to_string (parseInt (or_default (header_retry_after e) "60"))
                    ++ "s...")%string s))) in
  is_rate_limit e1 = true -> is_rate_limit e2 = true -> is_rate_limit e3 = true ->
  f s0 = (Throw e1, s1) ->
  f (wait e1 s1) = (Throw e2, s2) ->
  f (wait e2 s2) = (Throw e3, s3) ->
  retryRequest f 3 s0 = (Normal None, wait e3 s3).
Proof.
  intros wait R1 R2 R3 H1 H2 H3. unfold retryRequest.
  rewrite (retry_loop_rate_limited f 3 2 1 s0 s1 e1) by (lia || assumption).
  fold (wait e1 s1).
  rewrite (retry_loop_rate_limited f 3 1 2 _ s2 e2) by (lia || assumption).
  fold (wait e2 s2).
  rewrite (retry_loop_rate_limited f 3 0 3 _ s3 e3) by (lia || assumption).
  reflexivity.
Qed.

(** Effect of one [axios] call. *)
Lemma axios_run (remote : nat -> Request -> Completion Response) (q : Request)
    (s : State) :
  axios remote q s =
  (remote (clock s) q,
   {| clock := S (clock s); trace := trace s ++ [ECall q];
      console := console s; userCache := userCache s |}).
Proof. reflexivity. Qed.

(** A retried [axios] call only repeats that one call, between one and
    [fuel] times, and leaves the user cache alone. *)
Lemma retry_loop_axios (remote : nat -> Request -> Completion Response)
    (q : Request) (maxRetries : nat) :
  forall fuel attempt s res s',
    retry_loop (axios remote q) maxRetries fuel attempt s = (res, s') ->
    userCache s' = userCache s /\
    exists t k,
      trace s' = trace s ++ t /\ calls t = replicate k q /\ (k <= fuel)%nat /\
      clock s' = (clock s + k)%nat /\
      ((0 < fuel)%nat -> (attempt <= maxRetries)%nat -> (1 <= k)%nat).
Proof.
  induction fuel as [|fuel IH]; intros attempt s res s' H.
  - simpl in H. inversion H; subst. split; [reflexivity|].
    exists [], 0%nat. rewrite app_nil_r.
    split_and!; [reflexivity | reflexivity | lia | lia | lia].
  - simpl in H. destruct (attempt <=? maxRetries)%nat eqn:Hle.
    2:{ inversion H; subst. split; [reflexivity|].
        exists [], 0%nat. rewrite app_nil_r. apply Nat.leb_gt in Hle.
        split_and!; [reflexivity | reflexivity | lia | lia | lia]. }
    unfold try_catch, bind at 1 in H. rewrite axios_run in H.
    destruct (remote (clock s) q) as [r|e].
    + inversion H; subst; simpl. split; [reflexivity|].
      exists [ECall q], 1%nat.
      split_and!; [reflexivity | reflexivity | lia | lia | lia].
    + destruct (is_rate_limit e).
      * unfold bind at 1 2 in H. simpl in H.
        apply IH in H. destruct H as [Hc (t & k & Ht & Hk & Hkf & Hcl & _)].
        simpl in *. split; [exact Hc|].
        exists (ECall q
                :: ESleep (js_mul (parseInt (or_default (header_retry_after e) "60")) 1000)
                :: t), (S k).
        split_and!; [ | | lia | lia | lia].
        -- rewrite Ht. rewrite <- !app_assoc. reflexivity.
        -- unfold calls in *. simpl. f_equal. exact Hk.
      * destruct (attempt =? maxRetries)%nat.
        -- inversion H; subst; simpl. split; [reflexivity|].
           exists [ECall q], 1%nat.
           split_and!; [reflexivity | reflexivity | lia | lia | lia].
        -- unfold bind at 1 in H. simpl in H.
           apply IH in H. destruct H as [Hc (t & k & Ht & Hk & Hkf & Hcl & _)].
           simpl in *. split; [exact Hc|].
           exists (ECall q :: ESleep (Num (2 ^ Z.of_nat attempt * 1000)) :: t), (S k).
           split_and!; [ | | lia | lia | lia].
           ++ rewrite Ht. rewrite <- !app_assoc. reflexivity.
           ++ unfold calls in *. simpl. f_equal. exact Hk.
Qed.

Lemma retryRequest3_axios (remote : nat -> Request -> Completion Response)
    (q : Request) (s : State) (res : Completion (option Response)) (s' : State) :
  retryRequest3 (axios remote q) s = (res, s') ->
  userCache s' = userCache s /\
  exists t k,
    trace s' = trace s ++ t /\ calls t = replicate k q /\
    (1 <= k <= 3)%nat /\ clock s' = (clock s + k)%nat.
Proof.
  intros H. apply retry_loop_axios in H.
  destruct H as [Hc (t & k & Ht & Hk & Hkf & Hcl & Hpos)].
  split; [exact Hc|]. exists t, k.
  assert (1 <= k)%nat by (apply Hpos; lia).
  split_and!; [assumption | assumption | lia | lia | assumption].
Qed.

(** When the remote accepts the first attempt, exactly one call is made. *)
Lemma retryRequest3_first_try (remote : nat -> Request -> Completion Response)
    (q : Request) (s : State) (r : Response) :
  remote (clock s) q = Normal r ->
  retryRequest3 (axios remote q) s =
  (Normal (Some r),
   {| clock := S (clock s); trace := trace s ++ [ECall q];
      console := console s; userCache := userCache s |}).
Proof.
  intros H. unfold retryRequest3, retryRequest.
  apply retry_loop_success; [lia|]. rewrite axios_run, H. reflexivity.
Qed.

(** ** Claims about the retry policy *)

(** Claim C1, evaluated on the code.  A rate-limit answer (HTTP 429) takes
    the wait named by [retry-after] (60 s when the header is absent), but the
    [continue] of the source still reaches [attempt++]: after three 429
    answers the loop is left, [retryRequest] returns [undefined] and the
    fourth, successful answer is never asked for; and a plain failure that
    follows two 429 answers is already the last attempt and is thrown
    without any backoff. *)
Theorem retryRequest_rate_limit_spends_attempts :
  (let remote :=
     scripted [rejects 429 (Some "2"); rejects 429 (Some "1"); rejects 429 None;
               answers (BRaw "ok")] network_error in
   let '(res, s') := retryRequest (axios remote probe) 3 init_state in
   res = Normal None /\
   calls (trace s') = [probe; probe; probe] /\
   sleeps (trace s') = [Num 2000; Num 1000; Num 60000]) /\
  (let remote :=
     scripted [rejects 429 (Some "2"); rejects 429 (Some "1"); rejects 500 None;
               answers (BRaw "ok")] network_error in
   let '(res, s') := retryRequest (axios remote probe) 3 init_state in
   res = Throw (http_error 500 None) /\
   calls (trace s') = [probe; probe; probe] /\
   sleeps (trace s') = [Num 2000; Num 1000]).
Proof. split; vm_compute; repeat split; reflexivity. Qed.

(** The run named in the specification: two 429 answers, then success.  The
    result is the successful response after waits of 2 s and 1 s, reached on
    the third and last iteration of the loop. *)
Example retryRequest_rate_limit_recovery_run :
  let remote :=
    scripted [rejects 429 (Some "2"); rejects 429 (Some "1"); answers (BRaw "ok")]
      network_error in
  let '(res, s') := retryRequest (axios remote probe) 3 init_state in
  res = Normal (Some {| status := 200; retry_after := None; data := BRaw "ok" |}) /\
  calls (trace s') = [probe; probe; probe] /\
  sleeps (trace s') = [Num 2000; Num 1000].
Proof. vm_compute. repeat split; reflexivity. Qed.

(** Claim C4.  With [maxRetries = 3], three failures in a row that are not
    rate-limit answers end in the third error being thrown after exactly
    three calls, with waits of 2 s and 4 s in between and nothing after the
    third call; and in general a failure on attempt [n] that is neither a
    rate-limit answer nor the last attempt is followed by a wait of
    [2^n] seconds and then by attempt [n + 1]. *)
Theorem retryRequest_backoff_exhaustion
    (remote : nat -> Request -> Completion Response) (q : Request) (s : State)
    (e1 e2 e3 : Error) :
  remote (clock s) q = Throw e1 ->
  remote (S (clock s)) q = Throw e2 ->
  remote (S (S (clock s))) q = Throw e3 ->
  is_rate_limit e1 = false ->
  is_rate_limit e2 = false ->
  is_rate_limit e3 = false ->
  retryRequest (axios remote q) 3 s =
    (Throw e3,
     {| clock := S (S (S (clock s)));
        trace := trace s ++ [ECall q; ESleep (Num 2000); ECall q;
                             ESleep (Num 4000); ECall q];
        console := console s; userCache := userCache s |}) /\
  (forall (f : M Response) (maxRetries fuel n : nat) (s1 s2 : State) (e : Error),
      (n < maxRetries)%nat ->
      f s1 = (Throw e, s2) ->
      is_rate_limit e = false ->
      retry_loop f maxRetries (S fuel) n s1 =
      retry_loop f maxRetries fuel (S n)
        (snd (sleep (Num (2 ^ Z.of_nat n * 1000)) s2))).
Proof.
  intros H1 H2 H3 N1 N2 N3. split.
  - unfold retryRequest.
    erewrite retry_loop_backoff;
      [ | lia | rewrite axios_run; rewrite H1; reflexivity | exact N1 ].
    simpl snd.
    erewrite retry_loop_backoff;
      [ | lia | rewrite axios_run; simpl; rewrite H2; reflexivity | exact N2 ].
    simpl snd.
    etransitivity.
    { eapply (retry_loop_last _ 3 0) with (e := e3); [|exact N3].
      rewrite axios_run; simpl; rewrite H3; reflexivity. }
    simpl. rewrite <- !app_assoc. reflexivity.
  - intros f maxRetries fuel n s1 s2 e Hn Hf He.
    apply retry_loop_backoff with (e := e); assumption.
Qed.

Lemma retryRequest_backoff_exhaustion_witness :
  let remote := scripted [rejects 500 None; network_error; rejects 503 None]
                  (answers (BRaw "ok")) in
  retryRequest (axios remote probe) 3 init_state =
  (Throw (http_error 503 None),
   {| clock := 3;
      trace := [ECall probe; ESleep (Num 2000); ECall probe; ESleep (Num 4000);
                ECall probe];
      console := []; userCache := ∅ |}).
Proof.
  intros remote.
  apply (proj1 (retryRequest_backoff_exhaustion remote probe init_state
                  (http_error 500 None)
                  {| message := "socket hang up"; response := None |}
                  (http_error 503 None)
                  eq_refl eq_refl eq_refl eq_refl eq_refl eq_refl)).
Defined.

(** ** Claims about [POST /proxy] *)

(** Claim C9.  A proxy request that lacks (or gives an empty) subdomain,
    email or token, or whose path does not start with [/api/v2/], is
    answered at once with status 400; the state is untouched: no remote
    call, no wait, no retry. *)
Theorem proxy_rejects_invalid_request
    (remote : nat -> Request -> Completion Response) (req : ProxyReq) (s : State) :
  truthy_string (p_subdomain req) = false \/
  truthy_string (p_email req) = false \/
  truthy_string (p_token req) = false \/
  (exists path, p_url req = Some path /\ String.prefix "/api/v2/" path = false) ->
  proxy_handler remote req s =
  (Normal
     {| code := 400;
        json :=
          if truthy_string (p_subdomain req) && truthy_string (p_email req)
             && truthy_string (p_token req)
          then JError "Invalid Zendesk API path" None None
          else JError "Missing credentials"
                 (Some "subdomain, email, and token are required") None |},
   s).
Proof.
  intros H. unfold proxy_handler, proxy_try, try_catch.
  destruct (truthy_string (p_subdomain req)); simpl; [|reflexivity].
  destruct (truthy_string (p_email req)); simpl; [|reflexivity].
  destruct (truthy_string (p_token req)); simpl; [|reflexivity].
  destruct H as [H|[H|[H|(path & Hu & Hp)]]]; try discriminate.
  rewrite Hu. unfold bind. simpl. rewrite Hp. reflexivity.
Qed.

Lemma proxy_rejects_invalid_request_witness :
  proxy_handler (scripted [] (answers (BRaw "ok")))
    {| p_method := Some "GET"; p_url := Some "/admin/users.json"; p_data := None;
       p_subdomain := Some "acme"; p_email := Some "ops@acme.example";
       p_token := Some "secret" |} init_state =
  (Normal {| code := 400; json := JError "Invalid Zendesk API path" None None |},
   init_state).
Proof.
  apply (proxy_rejects_invalid_request (scripted [] (answers (BRaw "ok")))
           {| p_method := Some "GET"; p_url := Some "/admin/users.json";
              p_data := None; p_subdomain := Some "acme";
              p_email := Some "ops@acme.example"; p_token := Some "secret" |}
           init_state).
  right; right; right. exists "/admin/users.json". split; reflexivity.
Defined.

(** A request without any path, but with credentials, is not a validation
    answer: reading [url.startsWith] throws and the handler answers 500,
    still without a remote call. *)
Lemma proxy_missing_path (remote : nat -> Request -> Completion Response)
    (req : ProxyReq) (s : State) :
  truthy_string (p_subdomain req) = true ->
  truthy_string (p_email req) = true ->
  truthy_string (p_token req) = true ->
  p_url req = None ->
  exists s', proxy_handler remote req s =
             (Normal {| code := 500;
                        json := JError (message (undefined_read "startsWith")) None None |}, s')
             /\ trace s' = trace s.
Proof.
  intros H1 H2 H3 Hu. unfold proxy_handler, proxy_try, try_catch.
  rewrite H1, H2, H3, Hu. simpl. eexists. split; reflexivity.
Qed.

(** ** The user resolver *)

Lemma bind_normal {A B} (m : M A) (k : A -> M B) (s s1 : State) (a : A) :
  m s = (Normal a, s1) -> bind m k s = k a s1.
Proof. intros H. unfold bind. rewrite H. reflexivity. Qed.

Lemma get_data_some (r : Response) (s : State) :
  get_data (Some r) s = (Normal (data r), s).
Proof. reflexivity. Qed.

Lemma require_some {A} (a : A) (prop : string) (s : State) :
  require (Some a) prop s = (Normal a, s).
Proof. reflexivity. Qed.

Lemma bind_throw {A B} (m : M A) (k : A -> M B) (s s1 : State) (e : Error) :
  m s = (Throw e, s1) -> bind m k s = (Throw e, s1).
Proof. intros H. unfold bind. rewrite H. reflexivity. Qed.

(** An operation that throws a [TypeError] before it sends anything is retried
    like any failure: two backoff waits, no call, and the error is thrown on
    the third attempt. *)
Lemma retryRequest3_undefined_read {A} (prop : string) (k : A -> M Response)
    (s : State) :
  retryRequest3 (bind (require (@None A) prop) k) s =
  (Throw (undefined_read prop),
   {| clock := clock s;
      trace := (trace s ++ [ESleep (Num 2000)]) ++ [ESleep (Num 4000)];
      console := console s; userCache := userCache s |}).
Proof. reflexivity. Qed.

(** The remote calls of one run of the [try] block: the fetch, then the
    search, then the creation, each repeated by the retry policy at most
    three times; the cache is written exactly when an identifier is
    returned. *)
Lemma migrateUser_try_spec (remote : nat -> Request -> Completion Response)
    (userId : Z) (source target : Credentials) (key : string)
    (s : State) (res : Completion (option Z)) (s' : State) :
  migrateUser_try remote userId source target key s = (res, s') ->
  (exists t k1,
      trace s' = trace s ++ t /\ (1 <= k1 <= 3)%nat /\
      (calls t = replicate k1 (user_fetch_request userId source) \/
       exists user k2,
         fetched_user remote userId source s user /\ (1 <= k2 <= 3)%nat /\
         (calls t = replicate k1 (user_fetch_request userId source)
                    ++ replicate k2 (user_search_request target (u_email user)) \/
          exists k3,
            (1 <= k3 <= 3)%nat /\
            calls t = replicate k1 (user_fetch_request userId source)
                      ++ replicate k2 (user_search_request target (u_email user))
                      ++ replicate k3 (user_create_request target user)))) /\
  match res with
  | Normal (Some id) => userCache s' = <[key := Some id]> (userCache s)
  | Normal None => False
  | Throw _ => userCache s' = userCache s
  end.
Proof.
  intros H. unfold migrateUser_try in H.
  unfold bind at 1 in H.
  destruct (retryRequest3 (axios remote (user_fetch_request userId source)) s)
    as [r1 s1] eqn:E1.
  destruct (retryRequest3_axios _ _ _ _ _ E1) as [C1 (t1 & k1 & T1 & K1 & B1 & _)].
  assert (Hbody : forall b usr, body_user b = Some usr -> b = BUser usr).
  { intros b usr Hb. destruct b; simpl in Hb; congruence. }
  destruct r1 as [[resp1|]|e1].
  2:{ (* the fetch returned undefined *)
      simpl in H. inversion H; subst. split; [|exact C1].
      exists t1, k1. split_and!; [exact T1 | lia | lia | left; exact K1]. }
  2:{ (* the fetch threw *)
      simpl in H. inversion H; subst. split; [|exact C1].
      exists t1, k1. split_and!; [exact T1 | lia | lia | left; exact K1]. }
  rewrite (bind_normal _ _ _ _ _ (get_data_some resp1 s1)) in H. cbv zeta in H.
  destruct (body_user (data resp1)) as [user|] eqn:Eu.
  2:{ (* no user in the body: the search closure throws on each attempt *)
      rewrite (bind_throw _ _ _ _ _ (retryRequest3_undefined_read _ _ _)) in H.
      inversion H; subst; simpl. split; [|exact C1].
      exists (t1 ++ [ESleep (Num 2000); ESleep (Num 4000)]), k1.
      split_and!; [ | lia | lia | left].
      - rewrite T1, <- !app_assoc. reflexivity.
      - rewrite calls_app, K1. apply app_nil_r. }
  apply Hbody in Eu.
  change (bind (require (Some user) "email")
            (fun u => axios remote (user_search_request target (u_email u))))
    with (axios remote (user_search_request target (u_email user))) in H.
  change (bind (require (Some user) "name")
            (fun u => axios remote (user_create_request target u)))
    with (axios remote (user_create_request target user)) in H.
  assert (Hf : fetched_user remote userId source s user)
    by (exists resp1, s1; split; assumption).
  unfold bind at 1 in H.
  destruct (retryRequest3 (axios remote (user_search_request target (u_email user))) s1)
    as [r2 s2] eqn:E2.
  destruct (retryRequest3_axios _ _ _ _ _ E2) as [C2 (t2 & k2 & T2 & K2 & B2 & _)].
  assert (T12 : trace s2 = trace s ++ (t1 ++ t2)).
  { rewrite T2, T1, app_assoc. reflexivity. }
  assert (K12 : calls (t1 ++ t2) =
                replicate k1 (user_fetch_request userId source)
                ++ replicate k2 (user_search_request target (u_email user))).
  { rewrite calls_app, K1, K2. reflexivity. }
  assert (C12 : userCache s2 = userCache s) by congruence.
  destruct r2 as [[resp2|]|e2]; simpl in H.
  2:{ inversion H; subst. split; [|exact C12].
      exists (t1 ++ t2), k1. split_and!; [exact T12 | lia | lia |].
      right. exists user, k2. split_and!; [exact Hf | lia | lia | left; exact K12]. }
  2:{ inversion H; subst. split; [|exact C12].
      exists (t1 ++ t2), k1. split_and!; [exact T12 | lia | lia |].
      right. exists user, k2. split_and!; [exact Hf | lia | lia | left; exact K12]. }
  unfold bind at 1 in H. simpl in H.
  assert (Hcreate :
    (bind (retryRequest3 (axios remote (user_create_request target user)))
       (fun createResponse =>
          bind (get_data createResponse) (fun d1 =>
          bind (require (body_user d1) "id") (fun created =>
          bind (cache_set key (Some (u_id created))) (fun _ =>
          bind (console_log ("Created user: " ++ u_email user)%string) (fun _ =>
          ret (Some (u_id created)))))))) s2 = (res, s') ->
    (exists t k0,
        trace s' = trace s ++ t /\ (1 <= k0 <= 3)%nat /\
        (calls t = replicate k0 (user_fetch_request userId source) \/
         exists user0 k2,
           fetched_user remote userId source s user0 /\ (1 <= k2 <= 3)%nat /\
           (calls t = replicate k0 (user_fetch_request userId source)
                      ++ replicate k2 (user_search_request target (u_email user0)) \/
            exists k3,
              (1 <= k3 <= 3)%nat /\
              calls t = replicate k0 (user_fetch_request userId source)
                        ++ replicate k2 (user_search_request target (u_email user0))
                        ++ replicate k3 (user_create_request target user0)))) /\
    match res with
    | Normal (Some id) => userCache s' = <[key := Some id]> (userCache s)
    | Normal None => False
    | Throw _ => userCache s' = userCache s
    end).
  { clear H. intros H. unfold bind at 1 in H.
    destruct (retryRequest3 (axios remote (user_create_request target user)) s2)
      as [r3 s3] eqn:E3.
    destruct (retryRequest3_axios _ _ _ _ _ E3) as [C3 (t3 & k3 & T3 & K3 & B3 & _)].
    assert (T123 : trace s3 = trace s ++ (t1 ++ t2 ++ t3)).
    { rewrite T3, T12, <- !app_assoc. reflexivity. }
    assert (K123 : calls (t1 ++ t2 ++ t3) =
                   replicate k1 (user_fetch_request userId source)
                   ++ replicate k2 (user_search_request target (u_email user))
                   ++ replicate k3 (user_create_request target user)).
    { rewrite !calls_app, K1, K2, K3. reflexivity. }
    assert (C123 : userCache s3 = userCache s) by congruence.
    assert (Shape :
      exists t k0,
        trace s3 = trace s ++ t /\ (1 <= k0 <= 3)%nat /\
        (calls t = replicate k0 (user_fetch_request userId source) \/
         exists user0 k2,
           fetched_user remote userId source s user0 /\ (1 <= k2 <= 3)%nat /\
           (calls t = replicate k0 (user_fetch_request userId source)
                      ++ replicate k2 (user_search_request target (u_email user0)) \/
            exists k3,
              (1 <= k3 <= 3)%nat /\
              calls t = replicate k0 (user_fetch_request userId source)
                        ++ replicate k2 (user_search_request target (u_email user0))
                        ++ replicate k3 (user_create_request target user0)))).
    { exists (t1 ++ t2 ++ t3), k1. split_and!; [exact T123 | lia | lia |].
      right. exists user, k2. split_and!; [exact Hf | lia | lia |].
      right. exists k3. split_and!; [lia | lia | exact K123]. }
    destruct r3 as [[resp3|]|e3]; simpl in H.
    2:{ inversion H; subst. split; [exact Shape | exact C123]. }
    2:{ inversion H; subst. split; [exact Shape | exact C123]. }
    unfold bind at 1 in H. simpl in H. unfold bind at 1 in H.
    destruct (body_user (data resp3)) as [created|]; simpl in H.
    2:{ inversion H; subst. split; [exact Shape | exact C123]. }
    inversion H; subst; simpl. split; [exact Shape | rewrite C123; reflexivity]. }
  destruct (body_users (data resp2)) as [[|existing others]|] eqn:Eus.
  - apply Hcreate. exact H.
  - inversion H; subst; simpl. split; [|rewrite C12; reflexivity].
    exists (t1 ++ t2), k1. split_and!; [exact T12 | lia | lia |].
    right. exists user, k2. split_and!; [exact Hf | lia | lia | left; exact K12].
  - apply Hcreate. exact H.
Qed.

Lemma filter_replicate {A} (P : A -> Prop) `{forall x, Decision (P x)}
    (k : nat) (x : A) :
  filter P (replicate k x) = if decide (P x) then replicate k x else [].
Proof.
  induction k as [|k IH]; simpl.
  - destruct (decide (P x)); reflexivity.
  - destruct (decide (P x)) as [Hp|Hn].
    + rewrite filter_cons_True by exact Hp. rewrite IH. reflexivity.
    + rewrite filter_cons_False by exact Hn. exact IH.
Qed.

(** Every call of a resolution that is not a [GET] is the creation of the
    fetched user. *)
Lemma resolution_calls_writes (remote : nat -> Request -> Completion Response)
    (userId : Z) (source target : Credentials) (s : State) (cs : list Request)
    (r : Request) :
  resolution_calls remote userId source target s cs ->
  r ∈ cs -> method r <> "GET" ->
  exists user,
    fetched_user remote userId source s user /\ r = user_create_request target user.
Proof.
  intros (k1 & B1 & Hcs) Hin Hm.
  assert (Hfetch : r ∈ replicate k1 (user_fetch_request userId source) -> False).
  { intros Hr. apply elem_of_replicate in Hr. destruct Hr as [-> _]. apply Hm. reflexivity. }
  destruct Hcs as [->|(user & k2 & Hf & B2 & [->|(k3 & B3 & ->)])].
  - destruct (Hfetch Hin).
  - apply elem_of_app in Hin. destruct Hin as [Hin|Hin]; [destruct (Hfetch Hin)|].
    apply elem_of_replicate in Hin. destruct Hin as [-> _]. destruct Hm. reflexivity.
  - apply elem_of_app in Hin. destruct Hin as [Hin|Hin]; [destruct (Hfetch Hin)|].
    apply elem_of_app in Hin. destruct Hin as [Hin|Hin].
    + apply elem_of_replicate in Hin. destruct Hin as [-> _]. destruct Hm. reflexivity.
    + apply elem_of_replicate in Hin. destruct Hin as [-> _].
      exists user. split; [exact Hf | reflexivity].
Qed.

(** A resolution starts by fetching the source user. *)
Lemma resolution_calls_head (remote : nat -> Request -> Completion Response)
    (userId : Z) (source target : Credentials) (s : State) (cs : list Request) :
  resolution_calls remote userId source target s cs ->
  exists cs', cs = user_fetch_request userId source :: cs'.
Proof.
  intros (k1 & B1 & Hcs).
  destruct k1 as [|k1]; [lia|]. simpl in Hcs.
  destruct Hcs as [->|(user & k2 & _ & _ & [->|(k3 & _ & ->)])]; eexists; reflexivity.
Qed.

(** The creation requests of a resolution are at most three attempts of one
    and the same request. *)
Lemma resolution_calls_posts (remote : nat -> Request -> Completion Response)
    (userId : Z) (source target : Credentials) (s : State) (cs : list Request) :
  resolution_calls remote userId source target s cs ->
  filter is_post cs = [] \/
  exists user k,
    fetched_user remote userId source s user /\ (1 <= k <= 3)%nat /\
    filter is_post cs = replicate k (user_create_request target user).
Proof.
  intros (k1 & B1 & Hcs).
  assert (Hget : forall k q, method q = "GET" -> filter is_post (replicate k q) = []).
  { intros k q Hq. rewrite filter_replicate. destruct (decide (is_post q)) as [Hp|]; [|reflexivity].
    unfold is_post in Hp. congruence. }
  destruct Hcs as [->|(user & k2 & Hf & B2 & [->|(k3 & B3 & ->)])].
  - left. apply Hget. reflexivity.
  - left. rewrite filter_app, !Hget by reflexivity. reflexivity.
  - right. exists user, k3. split_and!; [exact Hf | lia | lia |].
    rewrite !filter_app, !Hget by reflexivity. simpl.
    rewrite filter_replicate. destruct (decide _) as [|Hn]; [reflexivity|].
    destruct Hn. reflexivity.
Qed.

(** [migrateUser] never throws.  A cached key is answered from the cache
    without touching the state; otherwise one resolution runs, and the
    cache gains the key exactly when an identifier is returned. *)
Lemma migrateUser_spec (remote : nat -> Request -> Completion Response)
    (userId : Z) (source target : Credentials)
    (s : State) (res : Completion (option Z)) (s' : State) :
  migrateUser remote userId source target s = (res, s') ->
  exists v,
    res = Normal v /\
    match userCache s !! cache_key userId source target with
    | Some cached => v = cached /\ s' = s
    | None =>
        (exists t, trace s' = trace s ++ t /\
                   resolution_calls remote userId source target s (calls t)) /\
        match v with
        | Some id =>
            userCache s' = <[cache_key userId source target := Some id]> (userCache s)
        | None => userCache s' = userCache s
        end
    end.
Proof.
  intros H. unfold migrateUser in H. unfold bind at 1, cache_has in H.
  destruct (userCache s !! cache_key userId source target) as [cached|] eqn:Ec.
  - rewrite bool_decide_eq_true_2 in H by eauto.
    unfold cache_get in H. rewrite Ec in H. simpl in H.
    inversion H; subst. exists cached. auto.
  - rewrite bool_decide_eq_false_2 in H by (intros [? ?]; discriminate).
    unfold try_catch in H.
    destruct (migrateUser_try remote userId source target
                (cache_key userId source target) s) as [r0 s0] eqn:E0.
    apply migrateUser_try_spec in E0.
    destruct E0 as [(t & k1 & Ht & B1 & Hcs) Hcache].
    assert (Hres : resolution_calls remote userId source target s (calls t))
      by (exists k1; split; assumption).
    destruct r0 as [[id|]|e].
    + inversion H; subst. exists (Some id). split; [reflexivity|].
      split; [exists t; split; assumption | exact Hcache].
    + destruct Hcache.
    + unfold bind in H. simpl in H. inversion H; subst; simpl.
      exists None. split; [reflexivity|].
      split; [exists t; split; assumption | exact Hcache].
Qed.

(** A key of the cache is answered from the cache: no remote call, no log,
    no change of state. *)
Lemma migrateUser_cached (remote : nat -> Request -> Completion Response)
    (userId : Z) (source target : Credentials) (s : State) (v : option Z) :
  userCache s !! cache_key userId source target = Some v ->
  migrateUser remote userId source target s = (Normal v, s).
Proof.
  intros Hc. unfold migrateUser, bind, cache_has, cache_get.
  rewrite bool_decide_eq_true_2 by eauto. rewrite Hc. reflexivity.
Qed.

Lemma cache_ok_init : cache_ok init_state.
Proof. intros k v H. unfold init_state in H. simpl in H. rewrite lookup_empty in H. discriminate. Qed.

Lemma cache_ok_same (s s' : State) :
  userCache s' = userCache s -> cache_ok s -> cache_ok s'.
Proof. intros He Hok k v H. rewrite He in H. eapply Hok; eassumption. Qed.

Lemma migrateUser_cache_ok (remote : nat -> Request -> Completion Response)
    (userId : Z) (source target : Credentials)
    (s : State) (res : Completion (option Z)) (s' : State) :
  cache_ok s ->
  migrateUser remote userId source target s = (res, s') ->
  cache_ok s'.
Proof.
  intros Hok H. apply migrateUser_spec in H. destruct H as (v & -> & H).
  destruct (userCache s !! cache_key userId source target) as [cached|].
  - destruct H as [_ ->]. exact Hok.
  - destruct H as [_ H]. destruct v as [id|].
    + intros k w Hk. rewrite H in Hk.
      destruct (decide (cache_key userId source target = k)) as [Heq|Hne].
      * subst k. rewrite lookup_insert_eq in Hk. congruence.
      * rewrite lookup_insert_ne in Hk by exact Hne. eapply Hok; eassumption.
    + eapply cache_ok_same; eassumption.
Qed.

(** A cached key is answered without a suspension point: between the test
    [userCache.has] and the read [userCache.get] nothing else can run. *)
Lemma a_migrateUser_cached (remote : nat -> Request -> Completion Response)
    (userId : Z) (source target : Credentials) (s : State) (v : option Z) :
  userCache s !! cache_key userId source target = Some v ->
  a_migrateUser remote userId source target s = Finished (Normal v) s.
Proof.
  intros Hc. unfold a_migrateUser, a_bind, a_lift, cache_has, cache_get.
  rewrite bool_decide_eq_true_2 by eauto. simpl. rewrite Hc. reflexivity.
Qed.

(** ** Claims about the user resolver *)

(** Claim C3, as the code has it.  When a call of [migrateUser] that runs
    from [s] to [s1] with no other resolution in between has returned an
    identifier, that identifier is bound to the key in the cache it leaves,
    and a second call with the same arguments that starts in that state (so
    after the first, not overlapping it) returns the same identifier and
    leaves the state as it is (no remote call at all); the creation requests
    of the first call are the attempts of one retried creation, at most
    three, all for the user that this call fetched from the source; and
    whenever the cache holds the key, the cached value is returned at once
    with the state untouched, without a suspension point before the answer.
    Two calls that overlap are outside this statement: both can miss the
    cache and both create the user. *)
Theorem migrateUser_second_call_cached
    (remote : nat -> Request -> Completion Response)
    (userId : Z) (source target : Credentials) (s s1 : State) (id : Z) :
  migrateUser remote userId source target s = (Normal (Some id), s1) ->
  migrateUser remote userId source target s1 = (Normal (Some id), s1) /\
  userCache s1 !! cache_key userId source target = Some (Some id) /\
  (filter is_post (calls (new_events s s1)) = [] \/
   exists user k,
     fetched_user remote userId source s user /\
     (1 <= k <= 3)%nat /\
     filter is_post (calls (new_events s s1))
       = replicate k (user_create_request target user)) /\
  (forall s0 v,
      userCache s0 !! cache_key userId source target = Some v ->
      migrateUser remote userId source target s0 = (Normal v, s0) /\
      a_migrateUser remote userId source target s0 = Finished (Normal v) s0).
Proof.
  intros H. pose proof (migrateUser_spec _ _ _ _ _ _ _ H) as (v & Hv & Hs).
  inversion Hv; subst v. clear Hv.
  assert (Hbound : userCache s1 !! cache_key userId source target = Some (Some id)).
  { destruct (userCache s !! cache_key userId source target) as [cached|] eqn:Ec.
    - destruct Hs as [-> ->]. exact Ec.
    - destruct Hs as [_ ->]. apply lookup_insert_eq. }
  split_and!.
  - apply migrateUser_cached. exact Hbound.
  - exact Hbound.
  - destruct (userCache s !! cache_key userId source target) as [cached|] eqn:Ec.
    + destruct Hs as [_ ->]. rewrite new_events_refl. left. reflexivity.
    + destruct Hs as [(t & Ht & Hcs) _]. rewrite (new_events_app _ _ _ Ht).
      destruct (resolution_calls_posts _ _ _ _ _ _ Hcs) as [Hn|(user & k & Hf & Bk & Hp)].
      * left. exact Hn.
      * right. exists user, k. split_and!; [exact Hf | lia | lia | exact Hp].
  - intros s0 v Hc. split; [apply migrateUser_cached | apply a_migrateUser_cached]; exact Hc.
Qed.

Lemma migrateUser_second_call_cached_witness :
  migrateUser resolve_once_remote 5 (account "acme") (account "globex")
    (snd (migrateUser resolve_once_remote 5 (account "acme") (account "globex")
            init_state))
  = (Normal (Some 77),
     snd (migrateUser resolve_once_remote 5 (account "acme") (account "globex")
            init_state)).
Proof.
  apply (migrateUser_second_call_cached resolve_once_remote 5 (account "acme")
           (account "globex") init_state).
  vm_compute. reflexivity.
Defined.

(** Counterexample to claim C3 as stated.  The creation fails three times
    (HTTP 500), so the first call returns [null] and caches nothing; the
    second call runs the whole resolution again and creates the user: the two
    calls return different values and four creation requests were sent. *)
Lemma migrateUser_twice_not_idempotent :
  let remote :=
    scripted [answers (BUser admin_ann); answers (BUsers []);
              rejects 500 None; rejects 500 None; rejects 500 None;
              answers (BUser admin_ann); answers (BUsers []);
              answers (BUser agent_ann_created)] network_error in
  let '(r1, s1) := migrateUser remote 5 (account "acme") (account "globex") init_state in
  let '(r2, s2) := migrateUser remote 5 (account "acme") (account "globex") s1 in
  r1 = Normal None /\ r2 = Normal (Some 77) /\ r1 <> r2 /\
  List.length (filter is_post (calls (trace s2))) = 4%nat.
Proof. vm_compute. split_and!; [reflexivity | reflexivity | discriminate | reflexivity]. Qed.

(** Claim C7.  Every request of [migrateUser] that is not a [GET] is the
    creation of the fetched source user: a [POST] to the target's
    [users.json] whose user has the source's name and email, is marked
    verified, has role [agent] when the source role is [admin], and the
    source role unchanged otherwise. *)
Theorem migrateUser_created_user_role
    (remote : nat -> Request -> Completion Response)
    (userId : Z) (source target : Credentials)
    (s : State) (res : Completion (option Z)) (s' : State) (r : Request) :
  migrateUser remote userId source target s = (res, s') ->
  r ∈ calls (new_events s s') ->
  method r <> "GET" ->
  exists user nu,
    fetched_user remote userId source s user /\
    method r = "POST" /\
    url r = ("https://" ++ subdomain target ++ ".zendesk.com/api/v2/users.json")%string /\
    req_data r = Some (PUser nu) /\
    nu_name nu = u_name user /\
    nu_email nu = u_email user /\
    nu_verified nu = true /\
    (u_role user = "admin" -> nu_role nu = "agent") /\
    (u_role user <> "admin" -> nu_role nu = u_role user).
Proof.
  intros H Hin Hm. apply migrateUser_spec in H. destruct H as (v & -> & H).
  destruct (userCache s !! cache_key userId source target) as [cached|].
  - destruct H as [_ ->]. rewrite new_events_refl in Hin.
    apply elem_of_nil in Hin. destruct Hin.
  - destruct H as [(t & Ht & Hcs) _]. rewrite (new_events_app _ _ _ Ht) in Hin.
    destruct (resolution_calls_writes _ _ _ _ _ _ _ Hcs Hin Hm) as (user & Hf & ->).
    exists user, (new_user user). simpl.
    split_and!; try reflexivity; try exact Hf.
    + intros Hr. rewrite bool_decide_eq_true_2 by exact Hr. reflexivity.
    + intros Hr. rewrite bool_decide_eq_false_2 by exact Hr. reflexivity.
Qed.

Lemma migrateUser_created_user_role_witness :
  exists user nu,
    fetched_user resolve_once_remote 5 (account "acme") init_state user /\
    method (user_create_request (account "globex") admin_ann) = "POST" /\
    url (user_create_request (account "globex") admin_ann)
      = ("https://" ++ subdomain (account "globex")
         ++ ".zendesk.com/api/v2/users.json")%string /\
    req_data (user_create_request (account "globex") admin_ann) = Some (PUser nu) /\
    nu_name nu = u_name user /\
    nu_email nu = u_email user /\
    nu_verified nu = true /\
    (u_role user = "admin" -> nu_role nu = "agent") /\
    (u_role user <> "admin" -> nu_role nu = u_role user).
Proof.
  eapply (migrateUser_created_user_role resolve_once_remote 5 (account "acme")
            (account "globex") init_state).
  - vm_compute. reflexivity.
  - apply list_elem_of_In. vm_compute. tauto.
  - discriminate.
Defined.

(** When [migrateUser] returns [null] on a cache without [null] values, the
    cache is exactly what it was and does not hold the key; the next call
    with the same arguments starts the remote resolution again. *)
Lemma migrateUser_null_not_cached
    (remote : nat -> Request -> Completion Response)
    (userId : Z) (source target : Credentials)
    (s : State) (res : Completion (option Z)) (s' : State) :
  cache_ok s ->
  migrateUser remote userId source target s = (res, s') ->
  res = Normal None ->
  (userCache s' = userCache s /\
   userCache s' !! cache_key userId source target = None /\
   forall res2 s2,
     migrateUser remote userId source target s' = (res2, s2) ->
     exists cs, calls (new_events s' s2) = user_fetch_request userId source :: cs).
Proof.
  intros Hok H ->. apply migrateUser_spec in H. destruct H as (v & Hv & H).
  inversion Hv; subst v. clear Hv.
  destruct (userCache s !! cache_key userId source target) as [cached|] eqn:Ec.
  - destruct H as [<- _]. destruct (Hok _ _ Ec). reflexivity.
  - destruct H as [_ Hc]. split_and!.
    + exact Hc.
    + rewrite Hc. exact Ec.
    + intros res2 s2 H2. apply migrateUser_spec in H2. destruct H2 as (v2 & _ & H2).
      rewrite Hc, Ec in H2. destruct H2 as [(t & Ht & Hcs) _].
      rewrite (new_events_app _ _ _ Ht).
      eapply resolution_calls_head. exact Hcs.
Qed.

(** ** The comment replicator *)

(** The loop never throws and never touches the cache; every comment that is
    not skipped gets one retried update, that is between one and three
    attempts, in the order of the list, whatever the remote answers. *)
Lemma comments_loop_spec (remote : nat -> Request -> Completion Response)
    (targetTicketId : Z) (target : Credentials) :
  forall (comments : list Comment) (s : State) (res : Completion unit) (s' : State),
    comments_loop remote targetTicketId target comments s = (res, s') ->
    res = Normal tt /\ userCache s' = userCache s /\
    exists t ks,
      trace s' = trace s ++ t /\
      List.length ks = List.length (filter ordinary comments) /\
      Forall (fun k => (1 <= k <= 3)%nat) ks /\
      calls t = append_blocks targetTicketId target (filter ordinary comments) ks /\
      (forall c, c ∈ comments -> ordinary c ->
                 comment_append_request targetTicketId target c ∈ calls t).
Proof.
  induction comments as [|c rest IH]; intros s res s' H.
  - simpl in H. inversion H; subst. split_and!; try reflexivity.
    exists [], []. rewrite app_nil_r. split_and!; try reflexivity.
    + constructor.
    + intros c Hc. apply elem_of_nil in Hc. destruct Hc.
  - simpl in H. destruct (is_api_comment c) eqn:Eapi.
    + unfold bind at 1 in H. simpl in H. apply IH in H.
      destruct H as (-> & Hc & t & ks & Ht & Hl & Hf & Hk & Hall).
      split_and!; try reflexivity; try assumption.
      exists t, ks. rewrite filter_cons_False by (unfold ordinary; congruence).
      split_and!; try assumption.
      intros c' Hin Ho. apply elem_of_cons in Hin. destruct Hin as [->|Hin].
      * unfold ordinary in Ho. congruence.
      * apply Hall; assumption.
    + unfold bind at 1, try_catch, bind at 1 in H.
      destruct (retryRequest3
                  (axios remote (comment_append_request targetTicketId target c)) s)
        as [r1 s1] eqn:E1.
      destruct (retryRequest3_axios _ _ _ _ _ E1) as [C1 (t1 & k1 & T1 & K1 & B1 & _)].
      assert (Hstep : exists s2 t12,
                 comments_loop remote targetTicketId target rest s2 = (res, s') /\
                 userCache s2 = userCache s /\
                 trace s2 = trace s ++ t12 /\
                 calls t12 = replicate k1 (comment_append_request targetTicketId target c)).
      { destruct r1 as [r1|e1]; simpl in H.
        - eexists. exists (t1 ++ [ESleep (Num 300)]). split; [exact H|]. simpl.
          split_and!; [exact C1 | rewrite T1, app_assoc; reflexivity |].
          rewrite calls_app, K1. simpl. apply app_nil_r.
        - eexists. exists t1. split; [exact H|]. simpl.
          split_and!; [exact C1 | exact T1 | exact K1]. }
      destruct Hstep as (s2 & t12 & Hrest & C2 & T2 & K2).
      apply IH in Hrest.
      destruct Hrest as (-> & Hc & t & ks & Ht & Hl & Hf & Hk & Hall).
      split_and!; [reflexivity | congruence |].
      exists (t12 ++ t), (k1 :: ks).
      rewrite filter_cons_True by exact Eapi.
      split_and!.
      * rewrite Ht, T2, app_assoc. reflexivity.
      * simpl. rewrite Hl. reflexivity.
      * constructor; [lia | exact Hf].
      * rewrite calls_app, K2, Hk. reflexivity.
      * intros c' Hin Ho. rewrite calls_app. apply elem_of_app.
        apply elem_of_cons in Hin. destruct Hin as [->|Hin].
        -- left. rewrite K2. apply elem_of_replicate. split; [reflexivity | lia].
        -- right. apply Hall; assumption.
Qed.

(** When the remote accepts every update, each comment that is not skipped
    costs exactly one call, followed by the pacing wait of 300 ms. *)
Lemma comments_loop_accepting (remote : nat -> Request -> Completion Response)
    (targetTicketId : Z) (target : Credentials) :
  (forall k r, method r = "PUT" -> exists a, remote k r = Normal a) ->
  forall (comments : list Comment) (s : State),
  exists s' t,
    comments_loop remote targetTicketId target comments s = (Normal tt, s') /\
    trace s' = trace s ++ t /\
    calls t = map (comment_append_request targetTicketId target)
                (filter ordinary comments) /\
    sleeps t = replicate (List.length (filter ordinary comments)) (Num 300).
Proof.
  intros Hacc. induction comments as [|c rest IH]; intros s.
  - exists s, []. rewrite app_nil_r. split_and!; reflexivity.
  - simpl. destruct (is_api_comment c) eqn:Eapi.
    + rewrite filter_cons_False by (unfold ordinary; congruence).
      destruct (IH s) as (s' & t & Hrun & Ht & Hk & Hs).
      exists s', t. unfold bind at 1. simpl. split_and!; assumption.
    + rewrite filter_cons_True by exact Eapi.
      destruct (Hacc (clock s) (comment_append_request targetTicketId target c) eq_refl)
        as [a Ha].
      unfold bind at 1, try_catch, bind at 1.
      rewrite (retryRequest3_first_try _ _ _ _ Ha). simpl.
      match goal with
      | |- context [comments_loop _ _ _ rest ?s1] => destruct (IH s1) as (s' & t & Hrun & Ht & Hk & Hs)
      end.
      exists s', (ECall (comment_append_request targetTicketId target c)
                  :: ESleep (Num 300) :: t).
      split_and!.
      * exact Hrun.
      * rewrite Ht. simpl. rewrite <- !app_assoc. reflexivity.
      * rewrite calls_cons_call, calls_cons_sleep, Hk. reflexivity.
      * rewrite sleeps_cons_call, sleeps_cons_sleep, Hs. reflexivity.
Qed.

(** [migrateComments] never throws, always evaluates to [undefined], and
    leaves the cache alone. *)
Lemma migrateComments_normal (remote : nat -> Request -> Completion Response)
    (sourceTicketId targetTicketId : Z) (source target : Credentials)
    (s : State) (res : Completion jsval) (s' : State) :
  migrateComments remote sourceTicketId targetTicketId source target s = (res, s') ->
  res = Normal JUndefined /\ userCache s' = userCache s /\
  exists t, trace s' = trace s ++ t /\
            forall r, r ∈ calls t ->
                      r = comments_fetch_request sourceTicketId source \/
                      exists c, r = comment_append_request targetTicketId target c.
Proof.
  intros H. unfold migrateComments, try_catch, migrateComments_try in H.
  unfold bind at 1 in H.
  destruct (retryRequest3 (axios remote (comments_fetch_request sourceTicketId source)) s)
    as [r1 s1] eqn:E1.
  destruct (retryRequest3_axios _ _ _ _ _ E1) as [C1 (t1 & k1 & T1 & K1 & B1 & _)].
  assert (Hfetch : forall r, r ∈ calls t1 ->
                     r = comments_fetch_request sourceTicketId source \/
                     exists c, r = comment_append_request targetTicketId target c).
  { intros r Hr. rewrite K1 in Hr. apply elem_of_replicate in Hr. left. tauto. }
  destruct r1 as [[resp|]|e]; simpl in H.
  2:{ inversion H; subst; simpl. split_and!; [reflexivity | exact C1 |].
      exists t1. split; assumption. }
  2:{ inversion H; subst; simpl. split_and!; [reflexivity | exact C1 |].
      exists t1. split; assumption. }
  unfold bind at 1 in H. simpl in H. unfold bind at 1 in H.
  destruct (comments_loop remote targetTicketId target
              (default [] (body_comments (data resp))) s1) as [r2 s2] eqn:E2.
  apply comments_loop_spec in E2.
  destruct E2 as (-> & C2 & t & ks & Ht & Hl & Hf & Hk & Hall).
  simpl in H. inversion H; subst; simpl.
  split_and!; [reflexivity | congruence |].
  exists (t1 ++ t). split; [rewrite Ht, T1, app_assoc; reflexivity|].
  intros r Hr. rewrite calls_app in Hr. apply elem_of_app in Hr.
  destruct Hr as [Hr|Hr]; [apply Hfetch; exact Hr|].
  right. rewrite Hk in Hr. unfold append_blocks in Hr.
  apply list_elem_of_In, in_concat in Hr. destruct Hr as (blk & Hblk & Hr).
  apply list_elem_of_In in Hblk, Hr.
  apply elem_of_lookup_zip_with in Hblk.
  destruct Hblk as (i & c & k & -> & _ & _).
  apply elem_of_replicate in Hr. exists c. tauto.
Qed.

(** With the comment list fetched, [migrateComments] runs the loop over it
    and logs the number of fetched comments. *)
Lemma migrateComments_fetched (remote : nat -> Request -> Completion Response)
    (sourceTicketId targetTicketId : Z) (source target : Credentials)
    (s s1 : State) (resp : Response) :
  retryRequest3 (axios remote (comments_fetch_request sourceTicketId source)) s
    = (Normal (Some resp), s1) ->
  exists s2,
    comments_loop remote targetTicketId target
      (default [] (body_comments (data resp))) s1 = (Normal tt, s2) /\
    migrateComments remote sourceTicketId targetTicketId source target s =
    (Normal JUndefined,
     snd (console_log
            ("Migrated "
             ++ pretty (List.length (default [] (body_comments (data resp))))
             ++ " comments")%string s2)).
Proof.
  intros E1.
  destruct (comments_loop remote targetTicketId target
              (default [] (body_comments (data resp))) s1) as [r2 s2] eqn:E2.
  pose proof (comments_loop_spec _ _ _ _ _ _ _ E2) as (-> & _).
  exists s2. split; [reflexivity|].
  unfold migrateComments, try_catch, migrateComments_try.
  rewrite (bind_normal _ _ _ _ _ E1).
  unfold bind at 1. simpl. rewrite (bind_normal _ _ _ _ _ E2). reflexivity.
Qed.

(** ** Claims about the comment replicator *)

(** Counterexample to claim C5 as stated.  The fetch of the comment list
    succeeds with two comments, and [migrateComments] evaluates to
    [undefined], not to the number 2. *)
Lemma migrateComments_returns_no_count :
  let remote := scripted [answers (BComments [comment_first; comment_second])]
                  (answers (BRaw "ok")) in
  fst (retryRequest3 (axios remote (comments_fetch_request 1 (account "acme")))
         init_state)
  = Normal (Some {| status := 200; retry_after := None;
                    data := BComments [comment_first; comment_second] |}) /\
  fst (migrateComments remote 1 2 (account "acme") (account "globex") init_state)
  = Normal JUndefined /\
  fst (migrateComments remote 1 2 (account "acme") (account "globex") init_state)
  <> Normal (JNumber 2).
Proof. vm_compute. split_and!; [reflexivity | reflexivity | discriminate]. Qed.

(** Claim C5, as the code has it.  When the fetch of the comment list
    succeeds, [migrateComments] completes without a value ([undefined]); the
    number of fetched comments (skipped and failed ones included) is what its
    last log line reports. *)
Theorem migrateComments_logs_fetched_count
    (remote : nat -> Request -> Completion Response)
    (sourceTicketId targetTicketId : Z) (source target : Credentials)
    (s s1 : State) (resp : Response) :
  retryRequest3 (axios remote (comments_fetch_request sourceTicketId source)) s
    = (Normal (Some resp), s1) ->
  exists s',
    migrateComments remote sourceTicketId targetTicketId source target s
      = (Normal JUndefined, s') /\
    last (console s')
      = Some (Log ("Migrated "
                   ++ pretty (List.length (default [] (body_comments (data resp))))
                   ++ " comments")%string).
Proof.
  intros E1.
  destruct (migrateComments_fetched remote sourceTicketId targetTicketId source target
              _ _ _ E1) as (s2 & _ & Hrun).
  eexists. split; [exact Hrun|]. simpl. apply last_snoc.
Qed.

Lemma migrateComments_logs_fetched_count_witness :
  let remote := scripted [answers (BComments [comment_api; comment_first; comment_second])]
                  (answers (BRaw "ok")) in
  exists s',
    migrateComments remote 1 2 (account "acme") (account "globex") init_state
      = (Normal JUndefined, s') /\
    last (console s') = Some (Log "Migrated 3 comments").
Proof.
  intros remote.
  eapply (migrateComments_logs_fetched_count remote 1 2 (account "acme")
            (account "globex") init_state _
            {| status := 200; retry_after := None;
               data := BComments [comment_api; comment_first; comment_second] |}).
  vm_compute. reflexivity.
Defined.

(** Claim C6.  For the fetched comment list, the calls that follow the fetch
    are exactly the retried updates of the comments whose channel is not
    [api], in the order of the list: one update per such comment, each
    attempted between one and three times by the retry policy; when the
    remote accepts the updates, that is exactly one [PUT] per comment.  Each
    update carries the comment's body and public flag.  The list of ticket
    updates therefore has as many entries as there are comments that are not
    skipped: two for one [api] comment and two ordinary ones. *)
Theorem migrateComments_appends_in_order
    (remote : nat -> Request -> Completion Response)
    (sourceTicketId targetTicketId : Z) (source target : Credentials)
    (s s1 : State) (resp : Response) (res : Completion jsval) (s' : State) :
  retryRequest3 (axios remote (comments_fetch_request sourceTicketId source)) s
    = (Normal (Some resp), s1) ->
  migrateComments remote sourceTicketId targetTicketId source target s = (res, s') ->
  (exists ks,
      List.length ks
        = List.length (filter ordinary (default [] (body_comments (data resp)))) /\
      Forall (fun k => (1 <= k <= 3)%nat) ks /\
      calls (new_events s1 s')
        = append_blocks targetTicketId target
            (filter ordinary (default [] (body_comments (data resp)))) ks) /\
  ((forall k r, method r = "PUT" -> exists a, remote k r = Normal a) ->
   calls (new_events s1 s')
     = map (comment_append_request targetTicketId target)
         (filter ordinary (default [] (body_comments (data resp))))) /\
  (forall c,
      method (comment_append_request targetTicketId target c) = "PUT" /\
      url (comment_append_request targetTicketId target c)
        = ("https://" ++ subdomain target ++ ".zendesk.com/api/v2/tickets/"
           ++ pretty targetTicketId ++ ".json")%string /\
      req_data (comment_append_request targetTicketId target c)
        = Some (PComment (c_body c) (c_public c))).
Proof.
  intros E1 H.
  destruct (migrateComments_fetched remote sourceTicketId targetTicketId source target
              _ _ _ E1) as (s2 & Hloop & Hrun).
  rewrite Hrun in H. inversion H; subst. clear H.
  split_and!.
  - apply comments_loop_spec in Hloop.
    destruct Hloop as (_ & _ & t & ks & Ht & Hl & Hf & Hk & _).
    exists ks. split_and!; [exact Hl | exact Hf |].
    rewrite (new_events_app s1 _ t) by exact Ht. exact Hk.
  - intros Hacc.
    destruct (comments_loop_accepting remote targetTicketId target Hacc
                (default [] (body_comments (data resp))) s1)
      as (s2' & t & Hrun' & Ht & Hk & _).
    rewrite Hloop in Hrun'. inversion Hrun'; subst s2'.
    rewrite (new_events_app s1 _ t) by exact Ht. exact Hk.
  - intros c. split_and!; reflexivity.
Qed.

Lemma migrateComments_appends_in_order_witness :
  calls (new_events
           (snd (retryRequest3
                   (axios comments_remote (comments_fetch_request 1 (account "acme")))
                   init_state))
           (snd (migrateComments comments_remote 1 2 (account "acme")
                   (account "globex") init_state)))
  = [comment_append_request 2 (account "globex") comment_first;
     comment_append_request 2 (account "globex") comment_second].
Proof.
  refine (proj1 (proj2 (migrateComments_appends_in_order comments_remote 1 2
                          (account "acme") (account "globex") init_state _
                          {| status := 200; retry_after := None;
                             data := BComments [comment_first; comment_api;
                                                comment_second] |}
                          _ _ _ _)) _).
  - vm_compute. reflexivity.
  - vm_compute. reflexivity.
  - intros k r _. unfold comments_remote, scripted.
    destruct k as [|k]; simpl; [|destruct k]; eexists; reflexivity.
Defined.

(** ** The ticket pipeline *)

Lemma body_ticket_inv (b : Body) (t : Ticket) : b = BTicket t -> body_ticket b = Some t.
Proof. intros ->. reflexivity. Qed.

(** The handler up to the dry-run check, for a fetched ticket. *)
Lemma migrate_ticket_try_fetched (remote : nat -> Request -> Completion Response)
    (req : MigrateReq) (s s1 : State) (r1 : Response) (t : Ticket) :
  retryRequest3 (axios remote (ticket_fetch_request (ticketId req) (source req)))
    (logged ("Migrating ticket #" ++ pretty (ticketId req))%string s)
    = (Normal (Some r1), s1) ->
  data r1 = BTicket t ->
  exists rid s2,
    requester_stage remote req t s1 = (Normal rid, s2) /\
    migrate_ticket_try remote req s =
    (if dryRun (options req) then
       ret {| code := 200;
              json := JDryRun (ticketId req) (t_subject t) "Dry run - ticket not created" |}
     else
       (createResponse <- retryRequest3
                            (axios remote (ticket_create_request (target req)
                                             (ticket_draft t rid))) ;;
        d <- get_data createResponse ;;
        let newTicket := body_ticket d in
        (if migrateCommentsOpt (options req) then
           nt <- require newTicket "id" ;;
           migrateComments remote (ticketId req) (t_id nt) (source req) (target req) ;;
           ret tt
         else ret tt) ;;
        nt <- require newTicket "id" ;;
        ret {| code := 200;
               json := JMigrated (ticketId req) (t_id nt) (t_subject t) |})) s2.
Proof.
  intros E1 Ht.
  destruct (requester_stage remote req t s1) as [ru s2] eqn:Eu.
  assert (Hn : exists rid, ru = Normal rid).
  { unfold requester_stage in Eu. destruct (migrateUsers (options req)).
    - apply migrateUser_spec in Eu. destruct Eu as (v & -> & _). eauto.
    - inversion Eu. eauto. }
  destruct Hn as [rid ->]. exists rid, s2. split; [reflexivity|].
  unfold migrate_ticket_try.
  rewrite (bind_normal _ _ s (logged ("Migrating ticket #" ++ pretty (ticketId req)) s) tt
             eq_refl).
  rewrite (bind_normal _ _ _ _ _ E1).
  rewrite (bind_normal _ _ _ _ _ (get_data_some r1 s1)).
  cbv zeta. rewrite Ht. simpl body_ticket.
  assert (Hstage :
    (if migrateUsers (options req)
     then bind (require (Some t) "requester_id")
            (fun t0 => migrateUser remote (t_requester_id t0) (source req) (target req))
     else ret None) s1 = (Normal rid, s2)).
  { unfold requester_stage in Eu. destruct (migrateUsers (options req)); [|exact Eu].
    rewrite (bind_normal _ _ _ _ _ (require_some t "requester_id" s1)). exact Eu. }
  rewrite (bind_normal _ _ _ _ _ Hstage).
  rewrite (bind_normal _ _ _ _ _ (require_some t "subject" s2)).
  reflexivity.
Qed.

(** The requester stage only reads, except for the creation of the fetched
    requester; it never throws. *)
Lemma requester_stage_spec (remote : nat -> Request -> Completion Response)
    (req : MigrateReq) (t : Ticket) (s : State) (res : Completion (option Z))
    (s' : State) :
  requester_stage remote req t s = (res, s') ->
  exists tr,
    trace s' = trace s ++ tr /\
    forall r, r ∈ calls tr -> method r <> "GET" ->
              migrateUsers (options req) = true /\
              exists user, r = user_create_request (target req) user.
Proof.
  intros H. unfold requester_stage in H.
  destruct (migrateUsers (options req)).
  - apply migrateUser_spec in H. destruct H as (v & _ & H).
    destruct (userCache s !! _) as [cached|].
    + destruct H as [_ ->]. exists []. rewrite app_nil_r. split; [reflexivity|].
      intros r Hr. apply elem_of_nil in Hr. destruct Hr.
    + destruct H as [(tr & Ht & Hcs) _]. exists tr. split; [exact Ht|].
      intros r Hr Hm. split; [reflexivity|].
      destruct (resolution_calls_writes _ _ _ _ _ _ _ Hcs Hr Hm) as (user & _ & ->).
      exists user. reflexivity.
  - inversion H; subst. exists []. rewrite app_nil_r. split; [reflexivity|].
    intros r Hr. apply elem_of_nil in Hr. destruct Hr.
Qed.

(** ** Claims about the ticket pipeline *)

(** Counterexample to claim C2 as stated.  A dry run with [migrateUsers] set,
    for a requester unknown to the target: the answer is the dry-run success,
    and the run has sent one write to the target, the [POST] that creates the
    requester. *)
Lemma dry_run_creates_requester :
  let remote :=
    scripted [answers (BTicket ticket_printer); answers (BUser admin_ann);
              answers (BUsers []); answers (BUser agent_ann_created)]
      network_error in
  let req := migrate_request
               {| dryRun := true; migrateUsers := true; migrateCommentsOpt := true |} in
  let '(res, s') := migrate_ticket_handler remote req init_state in
  res = Normal {| code := 200;
                  json := JDryRun 1 "Printer on fire" "Dry run - ticket not created" |} /\
  filter is_post (calls (trace s')) = [user_create_request (account "globex") admin_ann] /\
  url (user_create_request (account "globex") admin_ann)
    = "https://globex.zendesk.com/api/v2/users.json".
Proof. vm_compute. split_and!; reflexivity. Qed.

(** Claim C2, as the code has it.  A dry run whose ticket fetch succeeds
    answers with the dry-run success carrying the requested ticket id and the
    source ticket's subject; it sends no ticket creation and no comment
    update: the only requests that are not [GET]s are the creation of the
    requester by [migrateUser], and only when [migrateUsers] is set (so with
    [migrateUsers] off nothing is written at all). *)
Theorem dry_run_writes_only_requester
    (remote : nat -> Request -> Completion Response)
    (req : MigrateReq) (s s1 : State) (r1 : Response) (t : Ticket) :
  dryRun (options req) = true ->
  retryRequest3 (axios remote (ticket_fetch_request (ticketId req) (source req)))
    (logged ("Migrating ticket #" ++ pretty (ticketId req))%string s)
    = (Normal (Some r1), s1) ->
  data r1 = BTicket t ->
  exists s',
    migrate_ticket_handler remote req s =
    (Normal {| code := 200;
               json := JDryRun (ticketId req) (t_subject t)
                         "Dry run - ticket not created" |}, s') /\
    forall r, r ∈ calls (new_events s s') -> method r <> "GET" ->
              migrateUsers (options req) = true /\
              exists user, r = user_create_request (target req) user.
Proof.
  intros Hd E1 Ht.
  destruct (migrate_ticket_try_fetched remote req s s1 r1 t E1 Ht)
    as (rid & s2 & Hstage & Htry).
  rewrite Hd in Htry. exists s2. split.
  - unfold migrate_ticket_handler, try_catch. rewrite Htry. reflexivity.
  - destruct (retryRequest3_axios _ _ _ _ _ E1) as [_ (t1 & k1 & T1 & K1 & _)].
    destruct (requester_stage_spec _ _ _ _ _ _ Hstage) as (t2 & T2 & Hw).
    assert (T : trace s2 = trace s ++ (t1 ++ t2)).
    { rewrite T2, T1, app_assoc. reflexivity. }
    rewrite (new_events_app _ _ _ T). intros r Hr Hm.
    rewrite calls_app in Hr. apply elem_of_app in Hr. destruct Hr as [Hr|Hr].
    + rewrite K1 in Hr. apply elem_of_replicate in Hr. destruct Hr as [-> _].
      destruct Hm. reflexivity.
    + apply Hw; assumption.
Qed.

Lemma dry_run_writes_only_requester_witness :
  let remote := scripted [answers (BTicket ticket_printer)] network_error in
  let req := migrate_request
               {| dryRun := true; migrateUsers := false; migrateCommentsOpt := true |} in
  exists s',
    migrate_ticket_handler remote req init_state =
    (Normal {| code := 200;
               json := JDryRun 1 "Printer on fire" "Dry run - ticket not created" |}, s') /\
    forall r, r ∈ calls (new_events init_state s') -> method r <> "GET" ->
              migrateUsers (options req) = true /\
              exists user, r = user_create_request (target req) user.
Proof.
  intros remote req.
  eapply (dry_run_writes_only_requester remote req init_state _
            {| status := 200; retry_after := None; data := BTicket ticket_printer |}
            ticket_printer).
  - reflexivity.
  - vm_compute. reflexivity.
  - reflexivity.
Defined.

(** Claim C8.  Once the ticket is fetched and created, the handler answers
    with the success result whatever happens to the comments: no answer of
    the remote to a comment update (or to the comment fetch) can make the
    migration fail.  And within the loop a failed update stops nothing: every
    fetched comment that is not skipped has its update sent. *)
Theorem comment_failure_is_not_fatal
    (remote : nat -> Request -> Completion Response)
    (req : MigrateReq) (s s1 s2 s3 : State) (r1 r2 : Response) (t nt : Ticket)
    (rid : option Z) :
  dryRun (options req) = false ->
  retryRequest3 (axios remote (ticket_fetch_request (ticketId req) (source req)))
    (logged ("Migrating ticket #" ++ pretty (ticketId req))%string s)
    = (Normal (Some r1), s1) ->
  data r1 = BTicket t ->
  requester_stage remote req t s1 = (Normal rid, s2) ->
  retryRequest3 (axios remote (ticket_create_request (target req) (ticket_draft t rid))) s2
    = (Normal (Some r2), s3) ->
  data r2 = BTicket nt ->
  exists s',
    migrate_ticket_handler remote req s =
    (Normal {| code := 200;
               json := JMigrated (ticketId req) (t_id nt) (t_subject t) |}, s') /\
    (migrateCommentsOpt (options req) = true ->
     forall resp s4,
       retryRequest3 (axios remote (comments_fetch_request (ticketId req) (source req))) s3
         = (Normal (Some resp), s4) ->
       forall c, c ∈ default [] (body_comments (data resp)) -> ordinary c ->
                 comment_append_request (t_id nt) (target req) c
                   ∈ calls (new_events s4 s')).
Proof.
  intros Hd E1 Ht Hstage E3 Hnt.
  destruct (migrate_ticket_try_fetched remote req s s1 r1 t E1 Ht)
    as (rid' & s2' & Hstage' & Htry).
  rewrite Hstage in Hstage'. inversion Hstage'; subst rid' s2'. clear Hstage'.
  rewrite Hd in Htry.
  rewrite (bind_normal _ _ _ _ _ E3) in Htry.
  rewrite (bind_normal _ _ _ _ _ (get_data_some r2 s3)) in Htry.
  cbv zeta in Htry. rewrite Hnt in Htry. simpl body_ticket in Htry.
  destruct (migrateCommentsOpt (options req)) eqn:Eopt.
  - destruct (migrateComments remote (ticketId req) (t_id nt) (source req) (target req) s3)
      as [rc s5] eqn:Ec.
    pose proof (migrateComments_normal _ _ _ _ _ _ _ _ Ec) as (-> & _ & _).
    assert (Hc : (bind (require (Some nt) "id")
                    (fun nt0 =>
                       bind (migrateComments remote (ticketId req) (t_id nt0)
                               (source req) (target req))
                         (fun _ => ret tt))) s3 = (Normal tt, s5)).
    { rewrite (bind_normal _ _ _ _ _ (require_some nt "id" s3)).
      rewrite (bind_normal _ _ _ _ _ Ec). reflexivity. }
    rewrite (bind_normal _ _ _ _ _ Hc) in Htry.
    rewrite (bind_normal _ _ _ _ _ (require_some nt "id" s5)) in Htry.
    exists s5. split.
    + unfold migrate_ticket_handler, try_catch. rewrite Htry. reflexivity.
    + intros _ resp s4 E4 c Hin Ho.
      destruct (migrateComments_fetched remote (ticketId req) (t_id nt) (source req)
                  (target req) _ _ _ E4) as (s6 & Hloop & Hrun).
      rewrite Hrun in Ec. inversion Ec; subst s5.
      apply comments_loop_spec in Hloop.
      destruct Hloop as (_ & _ & tr & ks & Htr & _ & _ & _ & Hall).
      rewrite (new_events_app s4 _ tr) by exact Htr.
      apply Hall; assumption.
  - assert (Hc : (@ret unit tt) s3 = (Normal tt, s3)) by reflexivity.
    rewrite (bind_normal _ _ _ _ _ Hc) in Htry.
    rewrite (bind_normal _ _ _ _ _ (require_some nt "id" s3)) in Htry.
    exists s3. split.
    + unfold migrate_ticket_handler, try_catch. rewrite Htry. reflexivity.
    + discriminate.
Qed.

Lemma comment_failure_is_not_fatal_witness :
  let req := migrate_request
               {| dryRun := false; migrateUsers := false; migrateCommentsOpt := true |} in
  exists s',
    migrate_ticket_handler failing_comment_remote req init_state =
    (Normal {| code := 200; json := JMigrated 1 900 "Printer on fire" |}, s') /\
    (migrateCommentsOpt (options req) = true ->
     forall resp s4,
       retryRequest3
         (axios failing_comment_remote
            (comments_fetch_request (ticketId req) (source req)))
         (snd (retryRequest3
                 (axios failing_comment_remote
                    (ticket_create_request (target req)
                       (ticket_draft ticket_printer None)))
                 (snd (retryRequest3
                         (axios failing_comment_remote
                            (ticket_fetch_request (ticketId req) (source req)))
                         (logged "Migrating ticket #1" init_state)))))
         = (Normal (Some resp), s4) ->
       forall c, c ∈ default [] (body_comments (data resp)) -> ordinary c ->
                 comment_append_request 900 (target req) c
                   ∈ calls (new_events s4 s')).
Proof.
  intros req.
  eapply (comment_failure_is_not_fatal failing_comment_remote req init_state
            _ _ _
            {| status := 200; retry_after := None; data := BTicket ticket_printer |}
            {| status := 200; retry_after := None;
               data := BTicket ticket_printer_created |}
            ticket_printer ticket_printer_created None).
  - reflexivity.
  - vm_compute. reflexivity.
  - reflexivity.
  - vm_compute. reflexivity.
  - vm_compute. reflexivity.
  - reflexivity.
Defined.

(** The same run, evaluated: three attempts for the first comment, then the
    update of the second comment, and the success answer. *)
Example failing_comment_run :
  let req := migrate_request
               {| dryRun := false; migrateUsers := false; migrateCommentsOpt := true |} in
  let '(res, s') := migrate_ticket_handler failing_comment_remote req init_state in
  res = Normal {| code := 200; json := JMigrated 1 900 "Printer on fire" |} /\
  drop 3 (calls (trace s'))
    = [comment_append_request 900 (account "globex") comment_first;
       comment_append_request 900 (account "globex") comment_first;
       comment_append_request 900 (account "globex") comment_first;
       comment_append_request 900 (account "globex") comment_second] /\
  console s' = [Log "Migrating ticket #1";
                LogError "Failed to migrate comment:" "Request failed with status code 500";
                Log "Migrated 3 comments"].
Proof. vm_compute. split_and!; reflexivity. Qed.

(** ** The cache invariant over the life of the process *)

Lemma keeps_ret {A} (a : A) : keeps_cache_ok (ret a).
Proof. intros s r s' H Hok. inversion H; subst. exact Hok. Qed.

Lemma keeps_throw {A} (e : Error) : keeps_cache_ok (@throw A e).
Proof. intros s r s' H Hok. inversion H; subst. exact Hok. Qed.

Lemma keeps_bind {A B} (m : M A) (k : A -> M B) :
  keeps_cache_ok m -> (forall a, keeps_cache_ok (k a)) -> keeps_cache_ok (bind m k).
Proof.
  intros Hm Hk s r s' H Hok. unfold bind in H.
  destruct (m s) as [[a|e] s1] eqn:Em.
  - eapply Hk; [exact H|]. eapply Hm; eassumption.
  - inversion H; subst. eapply Hm; eassumption.
Qed.

Lemma keeps_try_catch {A} (m : M A) (h : Error -> M A) :
  keeps_cache_ok m -> (forall e, keeps_cache_ok (h e)) ->
  keeps_cache_ok (try_catch m h).
Proof.
  intros Hm Hh s r s' H Hok. unfold try_catch in H.
  destruct (m s) as [[a|e] s1] eqn:Em.
  - inversion H; subst. eapply Hm; eassumption.
  - eapply Hh; [exact H|]. eapply Hm; eassumption.
Qed.

Lemma keeps_console_log (msg : string) : keeps_cache_ok (console_log msg).
Proof. intros s r s' H Hok. inversion H; subst. exact Hok. Qed.

Lemma keeps_console_error (msg arg : string) : keeps_cache_ok (console_error msg arg).
Proof. intros s r s' H Hok. inversion H; subst. exact Hok. Qed.

Lemma keeps_sleep (ms : JsNum) : keeps_cache_ok (sleep ms).
Proof. intros s r s' H Hok. inversion H; subst. exact Hok. Qed.

Lemma keeps_require {A} (o : option A) (prop : string) : keeps_cache_ok (require o prop).
Proof. destruct o; [apply keeps_ret | apply keeps_throw]. Qed.

Lemma keeps_axios (remote : nat -> Request -> Completion Response) (q : Request) :
  keeps_cache_ok (axios remote q).
Proof. intros s r s' H Hok. inversion H; subst. exact Hok. Qed.

Lemma keeps_cache_has (k : string) : keeps_cache_ok (cache_has k).
Proof. intros s r s' H Hok. inversion H; subst. exact Hok. Qed.

Lemma keeps_cache_get (k : string) : keeps_cache_ok (cache_get k).
Proof. intros s r s' H Hok. inversion H; subst. exact Hok. Qed.

(** Storing an identifier keeps the invariant. *)
Lemma keeps_cache_set (k : string) (id : Z) : keeps_cache_ok (cache_set k (Some id)).
Proof.
  intros s r s' H Hok. inversion H; subst. intros k' v Hk. simpl in Hk.
  destruct (decide (k = k')) as [Heq|Hne].
  - subst k'. rewrite lookup_insert_eq in Hk. congruence.
  - rewrite lookup_insert_ne in Hk by exact Hne. eapply Hok; eassumption.
Qed.

Lemma keeps_migrateUser (remote : nat -> Request -> Completion Response)
    (userId : Z) (source target : Credentials) :
  keeps_cache_ok (migrateUser remote userId source target).
Proof. intros s r s' H Hok. eapply migrateUser_cache_ok; eassumption. Qed.

Lemma keeps_retry_loop (f : M Response) (maxRetries : nat) :
  keeps_cache_ok f ->
  forall fuel attempt, keeps_cache_ok (retry_loop f maxRetries fuel attempt).
Proof.
  intros Hf. induction fuel as [|fuel IH]; intros attempt; simpl.
  - apply keeps_ret.
  - destruct (attempt <=? maxRetries)%nat; [|apply keeps_ret].
    apply keeps_try_catch.
    + apply keeps_bind; [exact Hf | intros; apply keeps_ret].
    + intros e. destruct (is_rate_limit e).
      * apply keeps_bind; [apply keeps_console_log | intros _].
        apply keeps_bind; [apply keeps_sleep | intros _]. apply IH.
      * destruct (attempt =? maxRetries)%nat; [apply keeps_throw|].
        apply keeps_bind; [apply keeps_sleep | intros _]. apply IH.
Qed.

Lemma keeps_retryRequest3 (f : M Response) :
  keeps_cache_ok f -> keeps_cache_ok (retryRequest3 f).
Proof. intros Hf. apply keeps_retry_loop. exact Hf. Qed.

Create HintDb keeps.
#[local] Hint Resolve keeps_ret keeps_throw keeps_console_log keeps_console_error
  keeps_sleep keeps_require keeps_axios keeps_cache_has keeps_cache_get
  keeps_cache_set keeps_migrateUser keeps_retryRequest3 : keeps.

(** Walks through a computation built from the primitives above. *)
Ltac keeps_steps :=
  repeat first
    [ solve [auto with keeps]
    | apply keeps_bind; [|intros ?]
    | apply keeps_try_catch; [|intros ?]
    | match goal with
      | |- keeps_cache_ok (if ?b then _ else _) => destruct b
      | |- keeps_cache_ok (match ?x with _ => _ end) => destruct x
      end ].

Lemma keeps_migrateComments (remote : nat -> Request -> Completion Response)
    (sourceTicketId targetTicketId : Z) (source target : Credentials) :
  keeps_cache_ok (migrateComments remote sourceTicketId targetTicketId source target).
Proof.
  intros s r s' H Hok. apply migrateComments_normal in H.
  destruct H as (_ & Hc & _). eapply cache_ok_same; eassumption.
Qed.

#[local] Hint Resolve keeps_migrateComments : keeps.

Lemma keeps_migrate_ticket_handler (remote : nat -> Request -> Completion Response)
    (req : MigrateReq) :
  keeps_cache_ok (migrate_ticket_handler remote req).
Proof. unfold migrate_ticket_handler, migrate_ticket_try, get_data. keeps_steps. Qed.

Lemma keeps_proxy_handler (remote : nat -> Request -> Completion Response)
    (req : ProxyReq) :
  keeps_cache_ok (proxy_handler remote req).
Proof. unfold proxy_handler, proxy_try, get_data. keeps_steps. Qed.

Lemma keeps_test_handler (remote : nat -> Request -> Completion Response)
    (req : TestReq) :
  keeps_cache_ok (test_handler remote req).
Proof. unfold test_handler, test_try, get_data. keeps_steps. Qed.

Lemma reachable_cache_ok (remote : nat -> Request -> Completion Response) (s : State) :
  reachable remote s -> cache_ok s.
Proof.
  induction 1 as [|s i Hr IH].
  - exact cache_ok_init.
  - destruct (serve remote i s) as [r s'] eqn:E. simpl.
    destruct i as [req|req|req]; simpl in E.
    + eapply keeps_proxy_handler; eassumption.
    + eapply keeps_test_handler; eassumption.
    + eapply keeps_migrate_ticket_handler; eassumption.
Qed.

(** Handlers always answer: no error escapes to the process. *)
Lemma serve_answers (remote : nat -> Request -> Completion Response)
    (i : Incoming) (s : State) :
  exists res s', serve remote i s = (Normal res, s').
Proof.
  destruct i as [req|req|req]; simpl.
  - unfold proxy_handler, try_catch. destruct (proxy_try remote req s) as [[a|e] s1];
      eexists _, _; reflexivity.
  - unfold test_handler, try_catch. destruct (test_try remote req s) as [[a|e] s1];
      eexists _, _; reflexivity.
  - unfold migrate_ticket_handler, try_catch.
    destruct (migrate_ticket_try remote req s) as [[a|e] s1]; eexists _, _; reflexivity.
Qed.

(** Claim C10.  In every state the process reaches, no key of the user cache
    is bound to [null]: every stored value is an identifier.  [migrateUser]
    keeps it so; when it returns [null] the cache is exactly what it was and
    does not hold the key, so the next call with the same arguments is not
    answered from the cache: it starts the remote resolution again, with the
    fetch of the source user. *)
Theorem userCache_never_holds_null
    (remote : nat -> Request -> Completion Response) (s : State) :
  reachable remote s ->
  cache_ok s /\
  forall (userId : Z) (source target : Credentials)
         (res : Completion (option Z)) (s' : State),
    migrateUser remote userId source target s = (res, s') ->
    cache_ok s' /\
    (res = Normal None ->
     userCache s' = userCache s /\
     userCache s' !! cache_key userId source target = None /\
     forall res2 s2,
       migrateUser remote userId source target s' = (res2, s2) ->
       exists cs, calls (new_events s' s2) = user_fetch_request userId source :: cs).
Proof.
  intros Hr. pose proof (reachable_cache_ok _ _ Hr) as Hok.
  split; [exact Hok|].
  intros userId source target res s' H. split.
  - eapply migrateUser_cache_ok; eassumption.
  - intros Hres. eapply migrateUser_null_not_cached; eassumption.
Qed.

Lemma userCache_never_holds_null_witness :
  let s := snd (serve unreachable_user_remote
                  (InMigrate (migrate_request
                     {| dryRun := false; migrateUsers := true;
                        migrateCommentsOpt := false |}))
                  init_state) in
  cache_ok s /\
  forall (userId : Z) (source target : Credentials)
         (res : Completion (option Z)) (s' : State),
    migrateUser unreachable_user_remote userId source target s = (res, s') ->
    cache_ok s' /\
    (res = Normal None ->
     userCache s' = userCache s /\
     userCache s' !! cache_key userId source target = None /\
     forall res2 s2,
       migrateUser unreachable_user_remote userId source target s' = (res2, s2) ->
       exists cs, calls (new_events s' s2) = user_fetch_request userId source :: cs).
Proof.
  intros s.
  apply (userCache_never_holds_null unreachable_user_remote s).
  apply reach_serve. apply reach_start.
Defined.

Example unreachable_user_run :
  let '(res, s) := serve unreachable_user_remote
                     (InMigrate (migrate_request
                        {| dryRun := false; migrateUsers := true;
                           migrateCommentsOpt := false |}))
                     init_state in
  res = Normal {| code := 200; json := JMigrated 1 900 "Printer on fire" |} /\
  userCache s = ∅ /\
  List.length (calls (trace s)) = 5%nat.
Proof. vm_compute. split_and!; reflexivity. Qed.

(** ** More on the retry policy *)

(** [retryRequest] never lets a rate-limit error out: whatever the operation
    and the budget, an error it throws is not an HTTP 429. *)
Lemma retry_loop_throws_no_rate_limit (f : M Response) (maxRetries : nat) :
  forall fuel attempt s,
    match fst (retry_loop f maxRetries fuel attempt s) with
    | Throw e => is_rate_limit e = false
    | Normal _ => True
    end.
Proof.
  induction fuel as [|fuel IH]; intros attempt s; simpl; [exact I|].
  destruct (attempt <=? maxRetries)%nat; [|exact I].
  unfold try_catch, bind at 1.
  destruct (f s) as [[r|e] s1]; simpl; [exact I|].
  destruct (is_rate_limit e) eqn:He.
  - unfold bind. simpl. apply IH.
  - destruct (attempt =? maxRetries)%nat; simpl; [exact He|].
    unfold bind. simpl. apply IH.
Qed.

Theorem retryRequest_throws_no_rate_limit (f : M Response) (maxRetries : nat)
    (s : State) :
  match fst (retryRequest f maxRetries s) with
  | Throw e => is_rate_limit e = false
  | Normal _ => True
  end.
Proof. apply retry_loop_throws_no_rate_limit. Qed.

(** How a retried [axios] call ends, with the loop counter made explicit. *)
Lemma retry_loop_outcome (remote : nat -> Request -> Completion Response)
    (q : Request) (maxRetries : nat) :
  forall fuel attempt s res s',
    (attempt + fuel = maxRetries + 1)%nat ->
    retry_loop (axios remote q) maxRetries fuel attempt s = (res, s') ->
    exists t k,
      trace s' = trace s ++ t /\ calls t = replicate k q /\ (k <= fuel)%nat /\
      clock s' = (clock s + k)%nat /\
      match res with
      | Normal (Some r) => (1 <= k)%nat /\ remote (clock s + k - 1)%nat q = Normal r
      | Normal None => k = fuel
      | Throw e => k = fuel /\ (1 <= k)%nat /\ remote (clock s + k - 1)%nat q = Throw e
      end.
Proof.
  induction fuel as [|fuel IH]; intros attempt s res s' Hinv H.
  - simpl in H. inversion H; subst. exists [], 0%nat. rewrite app_nil_r.
    split_and!; [reflexivity | reflexivity | lia | lia | reflexivity].
  - simpl in H.
    assert (Hle : (attempt <=? maxRetries)%nat = true) by (apply Nat.leb_le; lia).
    rewrite Hle in H. unfold try_catch, bind at 1 in H. rewrite axios_run in H.
    destruct (remote (clock s) q) as [r|e] eqn:Er.
    + inversion H; subst; simpl. exists [ECall q], 1%nat.
      split_and!; [reflexivity | reflexivity | lia | lia | lia |].
      replace (clock s + 1 - 1)%nat with (clock s) by lia. exact Er.
    + assert (Hnext : forall w s1,
                 trace s1 = trace s ++ [ECall q] ++ w -> calls w = [] ->
                 clock s1 = S (clock s) ->
                 retry_loop (axios remote q) maxRetries fuel (S attempt) s1 = (res, s') ->
                 exists t k,
                   trace s' = trace s ++ t /\ calls t = replicate k q /\
                   (k <= S fuel)%nat /\ clock s' = (clock s + k)%nat /\
                   match res with
                   | Normal (Some r) =>
                       (1 <= k)%nat /\ remote (clock s + k - 1)%nat q = Normal r
                   | Normal None => k = S fuel
                   | Throw e0 =>
                       k = S fuel /\ (1 <= k)%nat /\
                       remote (clock s + k - 1)%nat q = Throw e0
                   end).
      { intros w s1 Ht Hw Hcl Hrun. apply IH in Hrun; [|lia].
        destruct Hrun as (t & k & Ht' & Hk & Hkf & Hcl' & Hres).
        exists ([ECall q] ++ w ++ t), (S k).
        split_and!.
        - rewrite Ht', Ht, <- !app_assoc. reflexivity.
        - rewrite !calls_app, Hw, Hk. reflexivity.
        - lia.
        - lia.
        - rewrite Hcl in Hres.
          replace (clock s + S k - 1)%nat with (clock s + k)%nat by lia.
          destruct res as [[r|]|e0].
          + destruct Hres as [Hk1 Hr]. split; [lia|].
            replace (clock s + k)%nat with (S (clock s) + k - 1)%nat by lia. exact Hr.
          + lia.
          + destruct Hres as (-> & Hk1 & Hr). split_and!; [reflexivity | lia |].
            replace (clock s + fuel)%nat with (S (clock s) + fuel - 1)%nat by lia.
            exact Hr. }
      destruct (is_rate_limit e).
      * unfold bind at 1 2 in H. simpl in H.
        eapply (Hnext [ESleep _]); [| reflexivity | | exact H]; simpl.
        -- rewrite <- app_assoc. reflexivity.
        -- reflexivity.
      * destruct (attempt =? maxRetries)%nat eqn:Elast.
        -- inversion H; subst; simpl. apply Nat.eqb_eq in Elast.
           assert (fuel = 0)%nat by lia. subst fuel.
           exists [ECall q], 1%nat.
           split_and!; [reflexivity | reflexivity | lia | lia | reflexivity | lia |].
           replace (clock s + 1 - 1)%nat with (clock s) by lia. exact Er.
        -- unfold bind at 1 in H. simpl in H.
           eapply (Hnext [ESleep _]); [| reflexivity | | exact H]; simpl.
           ++ rewrite <- app_assoc. reflexivity.
           ++ reflexivity.
Qed.

(** For every budget: a retried call repeats one and the same request at most
    [maxRetries] times.  A returned response is the answer to the last call
    made; an error is thrown only when the whole budget is used, and it is the
    answer to the last call; [undefined] is returned only when the whole
    budget is used. *)
Theorem retryRequest_outcome (remote : nat -> Request -> Completion Response)
    (q : Request) (maxRetries : nat) (s : State) :
  let res := fst (retryRequest (axios remote q) maxRetries s) in
  let s' := snd (retryRequest (axios remote q) maxRetries s) in
  exists k,
    (k <= maxRetries)%nat /\
    calls (new_events s s') = replicate k q /\
    clock s' = (clock s + k)%nat /\
    match res with
    | Normal (Some r) => (1 <= k)%nat /\ remote (clock s + k - 1)%nat q = Normal r
    | Normal None => k = maxRetries
    | Throw e => k = maxRetries /\ (1 <= k)%nat /\
                 remote (clock s + k - 1)%nat q = Throw e
    end.
Proof.
  intros res s'. subst res s'.
  destruct (retryRequest (axios remote q) maxRetries s) as [res s'] eqn:E.
  unfold retryRequest in E. apply retry_loop_outcome in E; [|lia].
  destruct E as (t & k & Ht & Hk & Hkf & Hcl & Hres). simpl.
  exists k. rewrite (new_events_app _ _ _ Ht). split_and!; assumption.
Qed.

(** Without rate-limit answers the trace of the loop is the backoff
    schedule, cut where the loop stopped. *)
Lemma retry_loop_backoff_trace (remote : nat -> Request -> Completion Response)
    (q : Request) (maxRetries : nat) :
  (forall i e, remote i q = Throw e -> is_rate_limit e = false) ->
  forall fuel attempt s res s',
    (attempt + fuel = maxRetries + 1)%nat ->
    retry_loop (axios remote q) maxRetries fuel attempt s = (res, s') ->
    exists k,
      (k <= fuel)%nat /\ ((1 <= fuel)%nat -> (1 <= k)%nat) /\
      trace s' = trace s ++ backoff_trace q attempt k /\
      console s' = console s.
Proof.
  intros Hno. induction fuel as [|fuel IH]; intros attempt s res s' Hinv H.
  - simpl in H. inversion H; subst. exists 0%nat. simpl. rewrite app_nil_r.
    split_and!; [lia | lia | reflexivity | reflexivity].
  - simpl in H.
    assert (Hle : (attempt <=? maxRetries)%nat = true) by (apply Nat.leb_le; lia).
    rewrite Hle in H. unfold try_catch, bind at 1 in H. rewrite axios_run in H.
    destruct (remote (clock s) q) as [r|e] eqn:Er.
    + inversion H; subst; simpl. exists 1%nat.
      split_and!; [lia | lia | reflexivity | reflexivity].
    + rewrite (Hno _ _ Er) in H.
      destruct (attempt =? maxRetries)%nat eqn:Elast.
      * inversion H; subst; simpl. exists 1%nat.
        split_and!; [lia | lia | reflexivity | reflexivity].
      * apply Nat.eqb_neq in Elast. unfold bind at 1 in H. simpl in H.
        apply IH in H; [|lia].
        destruct H as (k & Hk & Hpos & Ht & Hc). simpl in Ht, Hc.
        assert (1 <= k)%nat by (apply Hpos; lia).
        exists (S k). split_and!; [lia | lia | | exact Hc].
        rewrite Ht, <- !app_assoc. destruct k as [|k]; [lia|]. reflexivity.
Qed.

(** For every budget: when the remote never answers 429, a retried call
    follows the exponential schedule exactly (call, 2 s, call, 4 s, call,
    8 s, ...), stops after at most [maxRetries] calls, never ends on a wait,
    and logs nothing. *)
Theorem retryRequest_backoff_schedule
    (remote : nat -> Request -> Completion Response) (q : Request)
    (maxRetries : nat) (s : State) :
  (forall i e, remote i q = Throw e -> is_rate_limit e = false) ->
  exists k,
    (k <= maxRetries)%nat /\ ((1 <= maxRetries)%nat -> (1 <= k)%nat) /\
    new_events s (snd (retryRequest (axios remote q) maxRetries s))
      = backoff_trace q 1 k /\
    console (snd (retryRequest (axios remote q) maxRetries s)) = console s.
Proof.
  intros Hno.
  destruct (retryRequest (axios remote q) maxRetries s) as [res s'] eqn:E.
  unfold retryRequest in E.
  apply (retry_loop_backoff_trace remote q maxRetries Hno) in E; [|lia].
  destruct E as (k & Hk & Hpos & Ht & Hc). simpl.
  exists k. rewrite (new_events_app _ _ _ Ht).
  split_and!; [assumption | assumption | reflexivity | assumption].
Qed.

Lemma retryRequest_backoff_schedule_witness :
  let remote := scripted [rejects 500 None; network_error; rejects 502 None;
                          answers (BRaw "ok")] network_error in
  exists k,
    (k <= 5)%nat /\ ((1 <= 5)%nat -> (1 <= k)%nat) /\
    new_events init_state (snd (retryRequest (axios remote probe) 5 init_state))
      = backoff_trace probe 1 k /\
    console (snd (retryRequest (axios remote probe) 5 init_state)) = console init_state.
Proof.
  intros remote.
  apply (retryRequest_backoff_schedule remote probe 5 init_state).
  intros i e H. unfold remote, scripted in H.
  do 5 (destruct i as [|i]; [simpl in H; inversion H; reflexivity|]).
  destruct i; simpl in H; inversion H; reflexivity.
Defined.

(** ** [parseInt] reads back what number formatting writes *)

Lemma pretty_N_char_digit (d : N) :
  (d < 10)%N ->
  is_decimal_digit (pretty_N_char d) = true /\
  digit_of 10 (pretty_N_char d) = Some (Z.of_N d).
Proof.
  intros Hd.
  assert (d = 0 \/ d = 1 \/ d = 2 \/ d = 3 \/ d = 4 \/ d = 5 \/ d = 6 \/ d = 7
          \/ d = 8 \/ d = 9)%N as H by lia.
  repeat (destruct H as [->|H]; [split; reflexivity|]). subst d. split; reflexivity.
Qed.

(** The digits written by [pretty_N_go] are read as the number itself. *)
Lemma parse_digits_pretty_N_go :
  forall (x : N), (0 < x)%N ->
    exists k : Z, 0 <= k /\
      forall (s : string) (acc : option Z),
        parse_digits 10 (pretty_N_go x s) acc
        = parse_digits 10 s (Some (default 0 acc * 10 ^ k + Z.of_N x)).
Proof.
  intros x. induction (N.lt_wf_0 x) as [x _ IH]. intros Hx.
  assert (Hmod : (x `mod` 10 < 10)%N) by (apply N.mod_lt; lia).
  destruct (pretty_N_char_digit _ Hmod) as [_ Hdig].
  destruct (decide (x `div` 10 = 0)%N) as [Hz|Hnz].
  - exists 1. split; [lia|]. intros s acc.
    rewrite pretty_N_go_step by exact Hx. rewrite Hz, pretty_N_go_0.
    simpl parse_digits. rewrite Hdig. f_equal. f_equal.
    pose proof (N.div_mod x 10 ltac:(discriminate)) as Hdm.
    assert (Hx10 : Z.of_N x = Z.of_N (x `mod` 10)).
    { f_equal. rewrite Hz in Hdm. rewrite N.mul_0_r, N.add_0_l in Hdm. exact Hdm. }
    rewrite Z.pow_1_r, Hx10. destruct acc as [a|]; simpl; ring.
  - destruct (IH (x `div` 10)%N) as (k & Hk & Hrec).
    { apply N.div_lt; lia. }
    { apply N.neq_0_lt_0. exact Hnz. }
    exists (k + 1). split; [lia|]. intros s acc.
    rewrite pretty_N_go_step by exact Hx. rewrite Hrec.
    simpl parse_digits. rewrite Hdig. f_equal. f_equal.
    rewrite Z.pow_add_r, Z.pow_1_r by lia.
    pose proof (N.div_mod x 10 ltac:(discriminate)) as Hdm.
    assert (Hx10 : Z.of_N x = 10 * Z.of_N (x `div` 10) + Z.of_N (x `mod` 10)).
    { rewrite Hdm at 1. rewrite N2Z.inj_add, N2Z.inj_mul. reflexivity. }
    rewrite Hx10. destruct acc as [a|]; simpl; ring.
Qed.

(** ... and they start with a digit. *)
Lemma pretty_N_go_head :
  forall (x : N), (0 < x)%N ->
    forall s, digits_head s ->
      exists c rest,
        pretty_N_go x s = String c rest /\ is_decimal_digit c = true /\
        digits_head rest.
Proof.
  intros x. induction (N.lt_wf_0 x) as [x _ IH]. intros Hx s Hs.
  assert (Hmod : (x `mod` 10 < 10)%N) by (apply N.mod_lt; lia).
  destruct (pretty_N_char_digit _ Hmod) as [Hd _].
  rewrite pretty_N_go_step by exact Hx.
  destruct (decide (x `div` 10 = 0)%N) as [Hz|Hnz].
  - rewrite Hz, pretty_N_go_0. eexists _, _. split_and!; [reflexivity | exact Hd | exact Hs].
  - apply IH; [apply N.div_lt; lia | apply N.neq_0_lt_0; exact Hnz | exact Hd].
Qed.

Lemma parse_unsigned_decimal (c : ascii) (rest : string) :
  is_decimal_digit c = true -> digits_head rest ->
  parse_unsigned (String c rest) = parse_digits 10 (String c rest) None.
Proof.
  intros Hc Hrest.
  destruct (decide (c = "0"%char)) as [->|Hne].
  - destruct rest as [|c2 rest2]; [reflexivity|].
    simpl in Hrest. unfold parse_unsigned.
    destruct c2 as [[] [] [] [] [] [] [] []]; try discriminate Hrest; reflexivity.
  - unfold parse_unsigned.
    destruct c as [[] [] [] [] [] [] [] []]; try discriminate Hc;
      try reflexivity; destruct Hne; reflexivity.
Qed.

Lemma parseInt_decimal (c : ascii) (rest : string) :
  is_decimal_digit c = true -> digits_head rest ->
  parseInt (String c rest)
  = match parse_digits 10 (String c rest) None with
    | Some v => Num (1 * v)
    | None => NaN
    end.
Proof.
  intros Hc Hrest. pose proof (parse_unsigned_decimal c rest Hc Hrest) as Hu.
  unfold parseInt.
  assert (Hsp : skip_spaces (String c rest) = String c rest).
  { simpl. destruct c as [[] [] [] [] [] [] [] []]; try discriminate Hc; reflexivity. }
  rewrite Hsp.
  assert (Hsign : match String c rest with
                  | String "-" s' => (-1, s')
                  | String "+" s' => (1, s')
                  | _ => (1, String c rest)
                  end = (1, String c rest)).
  { destruct c as [[] [] [] [] [] [] [] []]; try discriminate Hc; reflexivity. }
  rewrite Hsign. rewrite Hu. reflexivity.
Qed.

Lemma parseInt_pretty_pos (p : positive) : parseInt (pretty (Npos p)) = Num (Z.pos p).
Proof.
  unfold pretty, pretty_N. destruct (decide (N.pos p = 0)%N) as [H|_]; [discriminate|].
  destruct (pretty_N_go_head (N.pos p) ltac:(lia) "" I) as (c & rest & Heq & Hc & Hrest).
  destruct (parse_digits_pretty_N_go (N.pos p) ltac:(lia)) as (k & _ & Hparse).
  rewrite Heq, parseInt_decimal by assumption.
  rewrite <- Heq, (Hparse "" None). simpl. reflexivity.
Qed.

(** In this model the decimal text of an integer is parsed back to it. *)
Lemma parseInt_model_pretty (z : Z) : parseInt (pretty z) = Num z.
Proof.
  destruct z as [|p|p].
  - reflexivity.
  - apply parseInt_pretty_pos.
  - change (pretty (Z.neg p)) with (String "-" (pretty (N.pos p))).
    pose proof (parseInt_pretty_pos p) as Hp.
    unfold pretty, pretty_N in *.
    destruct (decide (N.pos p = 0)%N) as [H|_]; [discriminate|].
    destruct (pretty_N_go_head (N.pos p) ltac:(lia) "" I) as (c & rest & Heq & Hc & Hrest).
    rewrite Heq in *. rewrite parseInt_decimal in Hp by assumption.
    unfold parseInt. simpl skip_spaces. cbv iota beta.
    rewrite (parse_unsigned_decimal c rest Hc Hrest).
    destruct (parse_digits 10 (String c rest) None) as [v|]; [|discriminate].
    inversion Hp. f_equal. lia.
Qed.

(** The decimal text of an integer is not empty, so [h || '60'] keeps it. *)
Lemma or_default_pretty (z : Z) (d : string) : or_default (Some (pretty z)) d = pretty z.
Proof.
  pose proof (parseInt_model_pretty z) as H. unfold or_default.
  destruct (pretty z); [discriminate H | reflexivity].
Qed.

(** A rate-limit answer whose [Retry-After] header is the decimal text of
    [n] seconds, for [n] from 0 to 2147483 (so that [n * 1000] is a delay
    below [2^31] milliseconds, and far below [2^53]): whatever the operation
    and the attempt, [retryRequest] logs the wait, sleeps exactly [n * 1000]
    milliseconds and goes on with the next iteration of the loop. *)
Theorem retryRequest_waits_retry_after
    (f : M Response) (maxRetries fuel attempt : nat) (s1 s2 : State)
    (e : Error) (n : Z) :
  0 <= n <= 2147483 ->
  (attempt <= maxRetries)%nat ->
  f s1 = (Throw e, s2) ->
  is_rate_limit e = true ->
  header_retry_after e = Some (pretty n) ->
  retry_loop f maxRetries (S fuel) attempt s1 =
  retry_loop f maxRetries fuel (S attempt)
    {| clock := clock s2;
       trace := trace s2 ++ [ESleep (Num (n * 1000))];
       console := console s2
                  ++ [Log ("Rate limited. Waiting " ++ pretty n ++ "s...")%string];
       userCache := userCache s2 |}.
Proof.
  intros _ Ha Hf Hr Hh. simpl.
  rewrite (proj2 (Nat.leb_le attempt maxRetries) Ha).
  unfold try_catch, bind at 1. rewrite Hf, Hr, Hh, or_default_pretty, parseInt_model_pretty.
  reflexivity.
Qed.

Lemma retryRequest_waits_retry_after_witness :
  sleeps (trace (snd (retryRequest
                        (axios (scripted [rejects 429 (Some "120")]
                                  (answers (BRaw "ok"))) probe) 3 init_state)))
  = [Num 120000].
Proof.
  unfold retryRequest.
  rewrite (retryRequest_waits_retry_after _ 3 2 1 init_state
             {| clock := 1; trace := [ECall probe]; console := [];
                userCache := userCache init_state |}
             (http_error 429 (Some "120")) 120);
    [vm_compute; reflexivity | lia | lia | reflexivity | reflexivity | reflexivity].
Defined.

(** ** [encodeURIComponent] *)

Lemma hex_digit_unreserved (d : N) : (d < 16)%N -> is_unreserved (hex_digit d) = true.
Proof.
  intros Hd.
  assert (d = 0 \/ d = 1 \/ d = 2 \/ d = 3 \/ d = 4 \/ d = 5 \/ d = 6 \/ d = 7
          \/ d = 8 \/ d = 9 \/ d = 10 \/ d = 11 \/ d = 12 \/ d = 13 \/ d = 14
          \/ d = 15)%N as H by lia.
  repeat (destruct H as [->|H]; [vm_compute; reflexivity|]). subst d.
  vm_compute. reflexivity.
Qed.

Lemma hex_digit_code (d : N) :
  (d < 16)%N ->
  N_of_ascii (hex_digit d) = if (d <? 10)%N then (48 + d)%N else (55 + d)%N.
Proof.
  intros Hd. unfold hex_digit.
  destruct (d <? 10)%N; apply N_ascii_embedding; lia.
Qed.

Lemma hex_digit_inj (a b : N) :
  (a < 16)%N -> (b < 16)%N -> hex_digit a = hex_digit b -> a = b.
Proof.
  intros Ha Hb H. apply (f_equal N_of_ascii) in H.
  rewrite !hex_digit_code in H by assumption.
  destruct (a <? 10)%N eqn:Ea, (b <? 10)%N eqn:Eb;
    try apply N.ltb_lt in Ea; try apply N.ltb_lt in Eb;
    try apply N.ltb_ge in Ea; try apply N.ltb_ge in Eb; lia.
Qed.

Lemma percent_not_unreserved : is_unreserved "%" = false.
Proof. vm_compute. reflexivity. Qed.

(** The encoded text is made of unreserved characters and [%] only: no
    space, [&], [=], [#], [?], [/] or [+] can reach the query string. *)
Theorem encodeURIComponent_safe (s : string) :
  string_forallb is_uri_safe (encodeURIComponent s) = true.
Proof.
  induction s as [|c s IH]; [reflexivity|]. simpl.
  destruct (is_unreserved c) eqn:Ec; simpl.
  - unfold is_uri_safe at 1. rewrite Ec. simpl. exact IH.
  - pose proof (N_ascii_bounded c) as Hb.
    assert (H1 : (N_of_ascii c / 16 < 16)%N).
    { apply N.Div0.div_lt_upper_bound. lia. }
    assert (H2 : (N_of_ascii c mod 16 < 16)%N) by (apply N.mod_lt; lia).
    unfold is_uri_safe at 1 2 3.
    rewrite (hex_digit_unreserved _ H1), (hex_digit_unreserved _ H2).
    simpl. exact IH.
Qed.

(** Different texts are encoded differently: two users with different emails
    are never searched with the same query. *)
Theorem encodeURIComponent_inj (s1 s2 : string) :
  encodeURIComponent s1 = encodeURIComponent s2 -> s1 = s2.
Proof.
  revert s2. induction s1 as [|c1 s1 IH]; intros s2 H.
  - destruct s2 as [|c2 s2]; [reflexivity|]. simpl in H.
    destruct (is_unreserved c2); discriminate.
  - destruct s2 as [|c2 s2]; simpl in H.
    { destruct (is_unreserved c1); discriminate. }
    destruct (is_unreserved c1) eqn:E1, (is_unreserved c2) eqn:E2.
    + inversion H; subst. f_equal. apply IH. assumption.
    + inversion H; subst. rewrite percent_not_unreserved in E1. discriminate.
    + inversion H; subst. rewrite percent_not_unreserved in E2. discriminate.
    + inversion H as [[Hhi Hlo Hrest]].
      pose proof (N_ascii_bounded c1) as Hb1. pose proof (N_ascii_bounded c2) as Hb2.
      apply hex_digit_inj in Hhi;
        [| apply N.Div0.div_lt_upper_bound; lia | apply N.Div0.div_lt_upper_bound; lia].
      apply hex_digit_inj in Hlo; [| apply N.mod_lt; lia | apply N.mod_lt; lia].
      assert (Hn : N_of_ascii c1 = N_of_ascii c2).
      { rewrite (N.div_mod (N_of_ascii c1) 16), (N.div_mod (N_of_ascii c2) 16)
          by discriminate. rewrite Hhi, Hlo. reflexivity. }
      f_equal.
      * rewrite <- (ascii_N_embedding c1), <- (ascii_N_embedding c2), Hn. reflexivity.
      * apply IH. exact Hrest.
Qed.

Lemma encodeURIComponent_inj_witness :
  "ann+x@acme.example" = "ann+x@acme.example".
Proof.
  apply (encodeURIComponent_inj "ann+x@acme.example" "ann+x@acme.example").
  vm_compute. reflexivity.
Defined.

(** ** More on the user resolver *)

(** Email-match precedence: when the search finds at least one user, the
    first one's identifier is returned and cached, and no creation request is
    sent. *)
Theorem migrateUser_existing_user_reused
    (remote : nat -> Request -> Completion Response)
    (userId : Z) (source target : Credentials) (s s1 s2 : State)
    (r1 r2 : Response) (user existing : User) (others : list User) :
  userCache s !! cache_key userId source target = None ->
  retryRequest3 (axios remote (user_fetch_request userId source)) s
    = (Normal (Some r1), s1) ->
  data r1 = BUser user ->
  retryRequest3 (axios remote (user_search_request target (u_email user))) s1
    = (Normal (Some r2), s2) ->
  data r2 = BUsers (existing :: others) ->
  migrateUser remote userId source target s
    = (Normal (Some (u_id existing)),
       snd (cache_set (cache_key userId source target) (Some (u_id existing)) s2)) /\
  Forall (fun r => method r = "GET")
    (calls (new_events s
              (snd (cache_set (cache_key userId source target)
                      (Some (u_id existing)) s2)))).
Proof.
  intros Hmiss E1 D1 E2 D2. split.
  - unfold migrateUser, bind at 1, cache_has. rewrite Hmiss.
    rewrite bool_decide_eq_false_2 by (intros [? ?]; discriminate).
    unfold try_catch, migrateUser_try.
    rewrite (bind_normal _ _ _ _ _ E1).
    rewrite (bind_normal _ _ _ _ _ (get_data_some r1 s1)). rewrite D1. simpl body_user.
    cbv zeta.
    change (bind (require (Some user) "email")
              (fun u => axios remote (user_search_request target (u_email u))))
      with (axios remote (user_search_request target (u_email user))).
    rewrite (bind_normal _ _ _ _ _ E2).
    rewrite (bind_normal _ _ _ _ _ (get_data_some r2 s2)). rewrite D2. reflexivity.
  - destruct (retryRequest3_axios _ _ _ _ _ E1) as [_ (t1 & k1 & T1 & K1 & _)].
    destruct (retryRequest3_axios _ _ _ _ _ E2) as [_ (t2 & k2 & T2 & K2 & _)].
    rewrite (new_events_app _ _ (t1 ++ t2))
      by (simpl; rewrite T2, T1, app_assoc; reflexivity).
    rewrite calls_app, K1, K2. apply Forall_app. split; apply Forall_replicate; reflexivity.
Qed.

Lemma migrateUser_existing_user_reused_witness :
  fst (migrateUser existing_user_remote 5 (account "acme") (account "globex") init_state)
  = Normal (Some 77).
Proof.
  refine (f_equal fst
            (proj1 (migrateUser_existing_user_reused existing_user_remote 5
                      (account "acme") (account "globex") init_state _ _
                      {| status := 200; retry_after := None; data := BUser admin_ann |}
                      {| status := 200; retry_after := None;
                         data := BUsers [agent_ann_created; admin_ann] |}
                      admin_ann agent_ann_created [admin_ann] _ _ _ _ _))).
  - reflexivity.
  - vm_compute. reflexivity.
  - reflexivity.
  - vm_compute. reflexivity.
  - reflexivity.
Defined.

Lemma string_app_assoc (a b c : string) : ((a ++ b) ++ c = a ++ (b ++ c))%string.
Proof.
  induction a as [|x a IH]; [reflexivity|].
  change (String x ((a ++ b) ++ c) = String x (a ++ (b ++ c)))%string.
  rewrite IH. reflexivity.
Qed.

(** The cache key joins its three parts with [-], and subdomains may hold a
    [-] themselves: migrating user [u] from [a-b] to [c] and from [a] to
    [b-c] share one key, so the second migration is answered with the
    identifier cached by the first, without any remote call. *)
Theorem migrateUser_key_shared_across_accounts
    (remote : nat -> Request -> Completion Response) (userId : Z)
    (a b c : string) (source1 target1 source2 target2 : Credentials)
    (s : State) (v : option Z) :
  subdomain source1 = (a ++ "-" ++ b)%string ->
  subdomain target1 = c ->
  subdomain source2 = a ->
  subdomain target2 = (b ++ "-" ++ c)%string ->
  userCache s !! cache_key userId source1 target1 = Some v ->
  cache_key userId source2 target2 = cache_key userId source1 target1 /\
  migrateUser remote userId source2 target2 s = (Normal v, s).
Proof.
  intros H1 H2 H3 H4 Hc.
  assert (Hk : cache_key userId source2 target2 = cache_key userId source1 target1).
  { unfold cache_key. rewrite H1, H2, H3, H4.
    rewrite !string_app_assoc. reflexivity. }
  split; [exact Hk|]. apply migrateUser_cached. rewrite Hk. exact Hc.
Qed.

Lemma migrateUser_key_shared_across_accounts_witness :
  let s := snd (migrateUser resolve_once_remote 5 (account "acme-eu") (account "globex")
                  init_state) in
  cache_key 5 (account "acme") (account "eu-globex")
    = cache_key 5 (account "acme-eu") (account "globex") /\
  migrateUser resolve_once_remote 5 (account "acme") (account "eu-globex") s
    = (Normal (Some 77), s).
Proof.
  intros s.
  apply (migrateUser_key_shared_across_accounts resolve_once_remote 5
           "acme" "eu" "globex" (account "acme-eu") (account "globex")
           (account "acme") (account "eu-globex") s (Some 77));
    [reflexivity | reflexivity | reflexivity | reflexivity | vm_compute; reflexivity].
Defined.

(** ** Relations kept along a run *)

Lemma steps_run {R : State -> State -> Prop} {A} (m : M A) (s : State)
    (r : Completion A) (s' : State) :
  steps R m -> m s = (r, s') -> R s s'.
Proof. intros H E. specialize (H s). rewrite E in H. exact H. Qed.

Section Steps.

Context (R : State -> State -> Prop) `{!Quiet R}.

Lemma steps_ret {A} (a : A) : steps R (ret a).
Proof. intros s. apply quiet_refl. Qed.

Lemma steps_throw {A} (e : Error) : steps R (@throw A e).
Proof. intros s. apply quiet_refl. Qed.

Lemma steps_require {A} (o : option A) (prop : string) : steps R (require o prop).
Proof. destruct o; [apply steps_ret | apply steps_throw]. Qed.

Lemma steps_console_log (msg : string) : steps R (console_log msg).
Proof. intros s. apply quiet_log. Qed.

Lemma steps_console_error (msg arg : string) : steps R (console_error msg arg).
Proof. intros s. apply quiet_error. Qed.

Lemma steps_sleep (ms : JsNum) : steps R (sleep ms).
Proof. intros s. apply quiet_sleep. Qed.

Lemma steps_cache_has (k : string) : steps R (cache_has k).
Proof. intros s. apply quiet_refl. Qed.

Lemma steps_cache_get (k : string) : steps R (cache_get k).
Proof. intros s. apply quiet_refl. Qed.

Lemma steps_bind {A B} (m : M A) (k : A -> M B) :
  steps R m -> (forall a, steps R (k a)) -> steps R (bind m k).
Proof.
  intros Hm Hk s. unfold bind. pose proof (Hm s) as H1.
  destruct (m s) as [[a|e] s1]; simpl in *; [|exact H1].
  eapply quiet_trans; [exact H1 | apply Hk].
Qed.

Lemma steps_try_catch {A} (m : M A) (h : Error -> M A) :
  steps R m -> (forall e, steps R (h e)) -> steps R (try_catch m h).
Proof.
  intros Hm Hh s. unfold try_catch. pose proof (Hm s) as H1.
  destruct (m s) as [[a|e] s1]; simpl in *; [exact H1|].
  eapply quiet_trans; [exact H1 | apply Hh].
Qed.

Lemma steps_retry_loop (f : M Response) (maxRetries : nat) :
  steps R f -> forall fuel attempt, steps R (retry_loop f maxRetries fuel attempt).
Proof.
  intros Hf. induction fuel as [|fuel IH]; intros attempt; simpl.
  - apply steps_ret.
  - destruct (attempt <=? maxRetries)%nat; [|apply steps_ret].
    apply steps_try_catch.
    + apply steps_bind; [exact Hf | intros; apply steps_ret].
    + intros e. destruct (is_rate_limit e).
      * apply steps_bind; [apply steps_console_log | intros _].
        apply steps_bind; [apply steps_sleep | intros _]. apply IH.
      * destruct (attempt =? maxRetries)%nat; [apply steps_throw|].
        apply steps_bind; [apply steps_sleep | intros _]. apply IH.
Qed.

Lemma steps_retryRequest3 (f : M Response) : steps R f -> steps R (retryRequest3 f).
Proof. intros Hf. apply steps_retry_loop. exact Hf. Qed.

Lemma steps_comments_loop (remote : nat -> Request -> Completion Response)
    (targetTicketId : Z) (target : Credentials) :
  (forall c, steps R (axios remote (comment_append_request targetTicketId target c))) ->
  forall comments, steps R (comments_loop remote targetTicketId target comments).
Proof.
  intros Hax. induction comments as [|c rest IH]; simpl.
  - apply steps_ret.
  - apply steps_bind; [|intros _; exact IH].
    destruct (is_api_comment c); [apply steps_ret|].
    apply steps_try_catch.
    + apply steps_bind; [apply steps_retryRequest3, Hax | intros _; apply steps_sleep].
    + intros e. apply steps_console_error.
Qed.

End Steps.

(** Walks through a computation; what is left are its remote calls and cache
    writes. *)
Create HintDb steps.

Ltac steps_walk :=
  repeat first
    [ solve [auto with steps]
    | solve [apply steps_ret; typeclasses eauto]
    | solve [apply steps_throw; typeclasses eauto]
    | solve [apply steps_require; typeclasses eauto]
    | solve [apply steps_console_log; typeclasses eauto]
    | solve [apply steps_console_error; typeclasses eauto]
    | solve [apply steps_sleep; typeclasses eauto]
    | solve [apply steps_cache_has; typeclasses eauto]
    | solve [apply steps_cache_get; typeclasses eauto]
    | apply steps_bind; try typeclasses eauto; [|intros ?]
    | apply steps_try_catch; try typeclasses eauto; [|intros ?]
    | apply steps_retryRequest3; try typeclasses eauto
    | apply steps_comments_loop; try typeclasses eauto; intros ?
    | match goal with
      | |- steps _ (if ?b then _ else _) => destruct b
      | |- steps _ (match ?x with _ => _ end) => destruct x
      end ].

#[local] Instance cache_same_quiet : Quiet cache_same.
Proof.
  split; unfold cache_same; intros; simpl; try reflexivity. congruence.
Qed.

#[local] Instance emits_quiet (P : Request -> Prop) : Quiet (emits P).
Proof.
  split; unfold emits.
  - intros s. exists []. rewrite app_nil_r. split; [reflexivity | constructor].
  - intros a b c (t1 & T1 & F1) (t2 & T2 & F2). exists (t1 ++ t2). split.
    + rewrite T2, T1, app_assoc. reflexivity.
    + rewrite calls_app. apply Forall_app. split; assumption.
  - intros msg s. exists []. simpl. rewrite app_nil_r. split; [reflexivity | constructor].
  - intros msg arg s. exists []. simpl. rewrite app_nil_r. split; [reflexivity | constructor].
  - intros ms s. exists [ESleep ms]. simpl. split; [reflexivity | constructor].
Qed.

Lemma emits_new_events (P : Request -> Prop) (s s' : State) :
  emits P s s' -> Forall P (calls (new_events s s')).
Proof. intros (t & Ht & Hf). rewrite (new_events_app _ _ _ Ht). exact Hf. Qed.

Lemma steps_axios_same (remote : nat -> Request -> Completion Response) (q : Request) :
  steps cache_same (axios remote q).
Proof. intros s. reflexivity. Qed.

Lemma steps_axios_emits (P : Request -> Prop)
    (remote : nat -> Request -> Completion Response) (q : Request) :
  P q -> steps (emits P) (axios remote q).
Proof.
  intros Hq s. exists [ECall q]. simpl. split; [reflexivity|].
  constructor; [exact Hq | constructor].
Qed.

Lemma steps_cache_set_emits (P : Request -> Prop) (k : string) (v : option Z) :
  steps (emits P) (cache_set k v).
Proof. intros s. exists []. simpl. rewrite app_nil_r. split; [reflexivity | constructor]. Qed.

#[local] Hint Resolve steps_axios_same steps_cache_set_emits : steps.

(** ** What the handlers do to the cache *)

(** The proxy and the connection test never touch the user cache. *)
Theorem proxy_and_test_leave_cache (remote : nat -> Request -> Completion Response)
    (s : State) :
  (forall req, userCache (snd (proxy_handler remote req s)) = userCache s) /\
  (forall req, userCache (snd (test_handler remote req s)) = userCache s).
Proof.
  split; intros req; revert s.
  - change (steps cache_same (proxy_handler remote req)).
    unfold proxy_handler, proxy_try, get_data. steps_walk.
  - change (steps cache_same (test_handler remote req)).
    unfold test_handler, test_try, get_data. steps_walk.
Qed.

(** With [migrateUsers] off, a migration leaves the user cache as it is. *)
Theorem migrate_without_users_leaves_cache
    (remote : nat -> Request -> Completion Response) (req : MigrateReq) (s : State) :
  migrateUsers (options req) = false ->
  userCache (snd (migrate_ticket_handler remote req s)) = userCache s.
Proof.
  intros Hoff. revert s. change (steps cache_same (migrate_ticket_handler remote req)).
  unfold migrate_ticket_handler, migrate_ticket_try, get_data. rewrite Hoff.
  steps_walk.
  all: unfold migrateComments, migrateComments_try, get_data; steps_walk.
Qed.

Lemma migrate_without_users_leaves_cache_witness :
  userCache (snd (migrate_ticket_handler failing_comment_remote
                    (migrate_request {| dryRun := false; migrateUsers := false;
                                        migrateCommentsOpt := true |})
                    init_state))
  = userCache init_state.
Proof.
  apply (migrate_without_users_leaves_cache failing_comment_remote
           (migrate_request {| dryRun := false; migrateUsers := false;
                               migrateCommentsOpt := true |}) init_state).
  reflexivity.
Defined.

(** ** Where the migration sends its requests *)

Lemma prefix_app (p rest : string) : String.prefix p (p ++ rest)%string = true.
Proof.
  induction p as [|c p IH]; simpl.
  - destruct rest; reflexivity.
  - destruct (ascii_dec c c) as [_|Hne]; [exact IH | destruct Hne; reflexivity].
Qed.

Lemma api_prefix (sub rest : string) :
  String.prefix ("https://" ++ sub ++ ".zendesk.com/api/v2/")%string
    ("https://" ++ sub ++ ".zendesk.com/api/v2/" ++ rest)%string = true.
Proof.
  replace ("https://" ++ sub ++ ".zendesk.com/api/v2/" ++ rest)%string
    with (("https://" ++ sub ++ ".zendesk.com/api/v2/") ++ rest)%string.
  - apply prefix_app.
  - rewrite !string_app_assoc. reflexivity.
Qed.

(** A migration never writes to the source account: every request it sends
    is a body-less [GET], or goes to the API of the target account with the
    target's credentials. *)
Theorem migrate_writes_only_to_target
    (remote : nat -> Request -> Completion Response) (req : MigrateReq) (s : State) :
  Forall (read_or_sent_to (target req))
    (calls (new_events s (snd (migrate_ticket_handler remote req s)))).
Proof.
  apply emits_new_events. revert s.
  change (steps (emits (read_or_sent_to (target req)))
            (migrate_ticket_handler remote req)).
  assert (Hget : forall q, method q = "GET" -> req_data q = None ->
                   steps (emits (read_or_sent_to (target req))) (axios remote q)).
  { intros q Hm Hd. apply steps_axios_emits. left. split; assumption. }
  assert (Hput : forall q rest,
             url q = ("https://" ++ subdomain (target req) ++ ".zendesk.com/api/v2/"
                      ++ rest)%string ->
             auth q = createZendeskAuth (email (target req)) (token (target req)) ->
             steps (emits (read_or_sent_to (target req))) (axios remote q)).
  { intros q rest Hu Ha. apply steps_axios_emits. right. split; [|exact Ha].
    rewrite Hu. apply api_prefix. }
  unfold migrate_ticket_handler, migrate_ticket_try, get_data, migrateUser,
    migrateUser_try, get_data.
  steps_walk;
    try (apply Hget; reflexivity);
    try (eapply (Hput _ "users.json"); reflexivity);
    try (eapply (Hput _ "tickets.json"); reflexivity).
  all: unfold migrateComments, migrateComments_try, get_data;
    steps_walk; try (apply Hget; reflexivity);
    eapply (Hput _ ("tickets/" ++ pretty _ ++ ".json")%string); reflexivity.
Qed.

(** ** What the handlers answer *)

(** A validated proxy request is forwarded as one retried call to
    [https://<subdomain>.zendesk.com<path>]: a response is answered with 200
    and its raw body; a thrown error with the upstream status ([500] when
    there is none) and the upstream body as details; and when the retry
    policy returns [undefined], with [500] and the [TypeError] of reading
    [response.data]. *)
Theorem proxy_forwards (remote : nat -> Request -> Completion Response)
    (req : ProxyReq) (s : State) (path : string) :
  truthy_string (p_subdomain req) = true ->
  truthy_string (p_email req) = true ->
  truthy_string (p_token req) = true ->
  p_url req = Some path ->
  String.prefix "/api/v2/" path = true ->
  let out := retryRequest3 (axios remote (proxy_request req path)) s in
  proxy_handler remote req s =
  match fst out with
  | Normal (Some r) => (Normal {| code := 200; json := JBody (data r) |}, snd out)
  | Normal None =>
      (Normal {| code := 500;
                 json := JError (message (undefined_read "data")) None None |},
       snd (console_error "Proxy error:" (message (undefined_read "data")) (snd out)))
  | Throw e =>
      (Normal {| code := error_status e;
                 json := JError (message e) None (data <$> response e) |},
       snd (console_error "Proxy error:" (message e) (snd out)))
  end /\
  exists k, (1 <= k <= 3)%nat /\
            calls (new_events s (snd (proxy_handler remote req s)))
            = replicate k (proxy_request req path).
Proof.
  intros H1 H2 H3 Hu Hp out.
  assert (Heq : proxy_handler remote req s =
    match fst out with
    | Normal (Some r) => (Normal {| code := 200; json := JBody (data r) |}, snd out)
    | Normal None =>
        (Normal {| code := 500;
                   json := JError (message (undefined_read "data")) None None |},
         snd (console_error "Proxy error:" (message (undefined_read "data")) (snd out)))
    | Throw e =>
        (Normal {| code := error_status e;
                   json := JError (message e) None (data <$> response e) |},
         snd (console_error "Proxy error:" (message e) (snd out)))
    end).
  { unfold proxy_handler, proxy_try, try_catch. rewrite H1, H2, H3, Hu.
    cbn [negb orb].
    rewrite (bind_normal _ _ _ _ _ (require_some path "startsWith" s)).
    rewrite Hp. cbn [negb]. unfold bind at 1. subst out.
    destruct (retryRequest3 (axios remote (proxy_request req path)) s)
      as [[[r|]|e] s1]; reflexivity. }
  split; [exact Heq|]. rewrite Heq. subst out.
  destruct (retryRequest3 (axios remote (proxy_request req path)) s) as [res s1] eqn:E.
  destruct (retryRequest3_axios _ _ _ _ _ E) as [_ (t & k & Ht & Hk & Hb & _)].
  exists k. split; [exact Hb|].
  destruct res as [[r|]|e]; simpl; rewrite (new_events_app _ _ t) by exact Ht; exact Hk.
Qed.

Lemma proxy_forwards_witness :
  proxy_handler (scripted [] (rejects 404 None)) proxy_ok_request init_state
  = (Normal {| code := 404;
               json := JError "Request failed with status code 404" None
                         (Some (BRaw "")) |},
     snd (proxy_handler (scripted [] (rejects 404 None)) proxy_ok_request
            init_state)).
Proof.
  etransitivity.
  - apply (proxy_forwards (scripted [] (rejects 404 None)) proxy_ok_request
             init_state "/api/v2/tickets/1.json"); reflexivity.
  - vm_compute. reflexivity.
Defined.

Lemma error_status_not_429 (e : Error) : is_rate_limit e = false -> error_status e <> 429.
Proof.
  unfold is_rate_limit, error_status. destruct (response e) as [r|]; [|discriminate].
  intros H. apply Z.eqb_neq in H. destruct (status r =? 0); [discriminate | exact H].
Qed.

Lemma returns_ret {A} (Q : A -> Prop) (a : A) : Q a -> returns Q (ret a).
Proof. intros H s. exact H. Qed.

Lemma returns_throw {A} (Q : A -> Prop) (e : Error) : returns Q (throw e).
Proof. intros s. exact I. Qed.

Lemma returns_bind {A B} (Q : B -> Prop) (m : M A) (k : A -> M B) :
  (forall a, returns Q (k a)) -> returns Q (bind m k).
Proof.
  intros Hk s. unfold bind. destruct (m s) as [[a|e] s1]; [apply Hk | exact I].
Qed.

Lemma throws_only_ret {A} (P : Error -> Prop) (a : A) : throws_only P (ret a).
Proof. intros s. exact I. Qed.

Lemma throws_only_require {A} (P : Error -> Prop) (o : option A) (prop : string) :
  P (undefined_read prop) -> throws_only P (require o prop).
Proof. intros H s. destruct o; [exact I | exact H]. Qed.

Lemma throws_only_bind {A B} (P : Error -> Prop) (m : M A) (k : A -> M B) :
  throws_only P m -> (forall a, throws_only P (k a)) -> throws_only P (bind m k).
Proof.
  intros Hm Hk s. unfold bind. pose proof (Hm s) as H.
  destruct (m s) as [[a|e] s1]; [apply Hk | exact H].
Qed.

Lemma throws_only_retryRequest3 (f : M Response) :
  throws_only (fun e => is_rate_limit e = false) (retryRequest3 f).
Proof. intros s. apply (retry_loop_throws_no_rate_limit f 3 3 1 s). Qed.

Lemma proxy_try_codes (remote : nat -> Request -> Completion Response) (req : ProxyReq) :
  returns (fun res => code res = 200 \/ code res = 400) (proxy_try remote req) /\
  throws_only (fun e => is_rate_limit e = false) (proxy_try remote req).
Proof.
  unfold proxy_try, get_data. split.
  - destruct (_ || _); [apply returns_ret; right; reflexivity|].
    apply returns_bind. intros path.
    destruct (negb _); [apply returns_ret; right; reflexivity|].
    apply returns_bind. intros response0. apply returns_bind. intros d.
    apply returns_ret. left. reflexivity.
  - destruct (_ || _); [apply throws_only_ret|].
    apply throws_only_bind; [apply throws_only_require; reflexivity | intros path].
    destruct (negb _); [apply throws_only_ret|].
    apply throws_only_bind; [apply throws_only_retryRequest3 | intros response0].
    apply throws_only_bind; [|intros d; apply throws_only_ret].
    apply throws_only_bind; [apply throws_only_require; reflexivity | intros r].
    apply throws_only_ret.
Qed.

Lemma test_try_codes (remote : nat -> Request -> Completion Response) (req : TestReq) :
  returns (fun res => code res = 200) (test_try remote req).
Proof.
  unfold test_try. repeat (apply returns_bind; intros ?). apply returns_ret. reflexivity.
Qed.

Lemma migrate_ticket_try_codes (remote : nat -> Request -> Completion Response)
    (req : MigrateReq) :
  returns (fun res => code res = 200) (migrate_ticket_try remote req).
Proof.
  unfold migrate_ticket_try. repeat (apply returns_bind; intros ?).
  destruct (dryRun (options req)); [apply returns_ret; reflexivity|].
  repeat (apply returns_bind; intros ?). apply returns_ret. reflexivity.
Qed.

(** Every request is answered, no error escapes a handler.  A migration is
    answered with 200 or 500, a connection test with 200 or 401, and the
    proxy with 200, 400 or the status of the upstream error, which is never
    429: the retry policy does not let a rate-limit error out. *)
Theorem serve_codes (remote : nat -> Request -> Completion Response)
    (i : Incoming) (s : State) :
  exists res,
    fst (serve remote i s) = Normal res /\
    match i with
    | InMigrate _ => code res = 200 \/ code res = 500
    | InTest _ => code res = 200 \/ code res = 401
    | InProxy _ => code res <> 429
    end.
Proof.
  destruct i as [req|req|req]; simpl.
  - destruct (proxy_try_codes remote req) as [Hr Ht].
    specialize (Hr s). specialize (Ht s).
    unfold proxy_handler, try_catch.
    destruct (proxy_try remote req s) as [[a|e] s1]; simpl in *.
    + exists a. split; [reflexivity|]. destruct Hr as [-> | ->]; discriminate.
    + eexists. split; [reflexivity|]. simpl. apply error_status_not_429. exact Ht.
  - pose proof (test_try_codes remote req s) as Hr.
    unfold test_handler, try_catch.
    destruct (test_try remote req s) as [[a|e] s1]; simpl in *.
    + exists a. split; [reflexivity | left; exact Hr].
    + eexists. split; [reflexivity | right; reflexivity].
  - pose proof (migrate_ticket_try_codes remote req s) as Hr.
    unfold migrate_ticket_handler, try_catch.
    destruct (migrate_ticket_try remote req s) as [[a|e] s1]; simpl in *.
    + exists a. split; [reflexivity | left; exact Hr].
    + eexists. split; [reflexivity | right; reflexivity].
Qed.

(** The source account is tested first: when its call fails, the target is
    never contacted and the answer is 401 with the source's error. *)
Theorem test_source_failure_skips_target
    (remote : nat -> Request -> Completion Response) (req : TestReq)
    (s s1 : State) (e : Error) :
  retryRequest3 (axios remote (whoami_request (test_source req))) s = (Throw e, s1) ->
  test_handler remote req s =
  (Normal {| code := 401;
             json := JTestFailed "Connection failed" (message e)
                       (data <$> response e) |},
   snd (console_error "Test connection failed:" (message e) s1)) /\
  exists k, calls (new_events s (snd (test_handler remote req s)))
            = replicate k (whoami_request (test_source req)).
Proof.
  intros E.
  assert (Heq : test_handler remote req s =
    (Normal {| code := 401;
               json := JTestFailed "Connection failed" (message e)
                         (data <$> response e) |},
     snd (console_error "Test connection failed:" (message e) s1))).
  { unfold test_handler, try_catch, test_try. rewrite (bind_throw _ _ _ _ _ E).
    reflexivity. }
  split; [exact Heq|]. rewrite Heq.
  destruct (retryRequest3_axios _ _ _ _ _ E) as [_ (t & k & Ht & Hk & _)].
  exists k. simpl. rewrite (new_events_app _ _ t) by exact Ht. exact Hk.
Qed.

Lemma test_source_failure_skips_target_witness :
  let remote := scripted [rejects 401 None; rejects 401 None; rejects 401 None]
                  (answers (BUser admin_ann)) in
  let req := {| test_source := account "acme"; test_target := account "globex" |} in
  exists k, calls (new_events init_state (snd (test_handler remote req init_state)))
            = replicate k (whoami_request (account "acme")).
Proof.
  intros remote req.
  refine (proj2 (test_source_failure_skips_target remote req init_state
                   (snd (retryRequest3 (axios remote (whoami_request (account "acme")))
                           init_state))
                   (http_error 401 None) _)).
  vm_compute. reflexivity.
Defined.

(** A failed fetch of the source ticket ends the migration: the answer is 500
    with the error's message and the requested ticket id, and the only
    requests made are the attempts of the fetch. *)
Theorem migrate_fetch_failure_is_fatal
    (remote : nat -> Request -> Completion Response) (req : MigrateReq)
    (s s1 : State) (e : Error) :
  retryRequest3 (axios remote (ticket_fetch_request (ticketId req) (source req)))
    (logged ("Migrating ticket #" ++ pretty (ticketId req))%string s)
    = (Throw e, s1) ->
  migrate_ticket_handler remote req s =
  (Normal {| code := 500; json := JMigrateFailed (message e) (ticketId req) |},
   snd (console_error "Failed to migrate ticket:" (message e) s1)) /\
  exists k, (1 <= k <= 3)%nat /\
            calls (new_events s (snd (migrate_ticket_handler remote req s)))
            = replicate k (ticket_fetch_request (ticketId req) (source req)).
Proof.
  intros E.
  assert (Heq : migrate_ticket_handler remote req s =
    (Normal {| code := 500; json := JMigrateFailed (message e) (ticketId req) |},
     snd (console_error "Failed to migrate ticket:" (message e) s1))).
  { unfold migrate_ticket_handler, try_catch, migrate_ticket_try.
    rewrite (bind_normal _ _ s (logged ("Migrating ticket #" ++ pretty (ticketId req)) s)
               tt eq_refl).
    rewrite (bind_throw _ _ _ _ _ E). reflexivity. }
  split; [exact Heq|]. rewrite Heq.
  destruct (retryRequest3_axios _ _ _ _ _ E) as [_ (t & k & Ht & Hk & Hb & _)].
  exists k. split; [exact Hb|]. simpl.
  rewrite (new_events_app _ _ t) by exact Ht. exact Hk.
Qed.

Lemma migrate_fetch_failure_is_fatal_witness :
  let remote := scripted [rejects 404 None; rejects 404 None; rejects 404 None]
                  (answers (BRaw "ok")) in
  let req := migrate_request {| dryRun := false; migrateUsers := true;
                                migrateCommentsOpt := true |} in
  exists k, (1 <= k <= 3)%nat /\
            calls (new_events init_state
                     (snd (migrate_ticket_handler remote req init_state)))
            = replicate k (ticket_fetch_request 1 (account "acme")).
Proof.
  intros remote req.
  refine (proj2 (migrate_fetch_failure_is_fatal remote req init_state
                   (snd (retryRequest3
                           (axios remote (ticket_fetch_request 1 (account "acme")))
                           (logged "Migrating ticket #1" init_state)))
                   (http_error 404 None) _)).
  vm_compute. reflexivity.
Defined.

(** A failed creation of the target ticket ends the migration: the answer is
    500 with the error's message, and nothing follows the creation attempts
    (the comments are not even fetched). *)
Theorem migrate_create_failure_is_fatal
    (remote : nat -> Request -> Completion Response)
    (req : MigrateReq) (s s1 s2 s3 : State) (r1 : Response) (t : Ticket)
    (rid : option Z) (e : Error) :
  dryRun (options req) = false ->
  retryRequest3 (axios remote (ticket_fetch_request (ticketId req) (source req)))
    (logged ("Migrating ticket #" ++ pretty (ticketId req))%string s)
    = (Normal (Some r1), s1) ->
  data r1 = BTicket t ->
  requester_stage remote req t s1 = (Normal rid, s2) ->
  retryRequest3 (axios remote (ticket_create_request (target req) (ticket_draft t rid))) s2
    = (Throw e, s3) ->
  migrate_ticket_handler remote req s =
  (Normal {| code := 500; json := JMigrateFailed (message e) (ticketId req) |},
   snd (console_error "Failed to migrate ticket:" (message e) s3)).
Proof.
  intros Hd E1 Ht Hstage E3.
  destruct (migrate_ticket_try_fetched remote req s s1 r1 t E1 Ht)
    as (rid' & s2' & Hstage' & Htry).
  rewrite Hstage in Hstage'. inversion Hstage'; subst rid' s2'. clear Hstage'.
  rewrite Hd in Htry. rewrite (bind_throw _ _ _ _ _ E3) in Htry.
  unfold migrate_ticket_handler, try_catch. rewrite Htry. reflexivity.
Qed.

Lemma migrate_create_failure_is_fatal_witness :
  fst (migrate_ticket_handler create_fails_remote
         (migrate_request {| dryRun := false; migrateUsers := false;
                             migrateCommentsOpt := true |}) init_state)
  = Normal {| code := 500;
              json := JMigrateFailed "Request failed with status code 422" 1 |}.
Proof.
  refine (f_equal fst
            (migrate_create_failure_is_fatal create_fails_remote
               (migrate_request {| dryRun := false; migrateUsers := false;
                                   migrateCommentsOpt := true |})
               init_state _ _ _
               {| status := 200; retry_after := None; data := BTicket ticket_printer |}
               ticket_printer None (http_error 422 None) _ _ _ _ _)).
  - reflexivity.
  - vm_compute. reflexivity.
  - reflexivity.
  - vm_compute. reflexivity.
  - vm_compute. reflexivity.
Defined.

(** The ticket created in the target is a copy of the fetched one: every
    [POST] that follows the requester stage is the creation request, sent to
    the target's [tickets.json], with the source ticket's subject,
    description, status, priority and type, its tags (none when the source
    has no tag list), and the resolved requester when there is one (an
    identifier 0 counts as none). *)
Theorem created_ticket_copies_source
    (remote : nat -> Request -> Completion Response)
    (req : MigrateReq) (s s1 s2 : State) (r1 : Response) (t : Ticket)
    (rid : option Z) :
  dryRun (options req) = false ->
  retryRequest3 (axios remote (ticket_fetch_request (ticketId req) (source req)))
    (logged ("Migrating ticket #" ++ pretty (ticketId req))%string s)
    = (Normal (Some r1), s1) ->
  data r1 = BTicket t ->
  requester_stage remote req t s1 = (Normal rid, s2) ->
  Forall (fun r =>
            method r = "POST" ->
            url r = ("https://" ++ subdomain (target req)
                     ++ ".zendesk.com/api/v2/tickets.json")%string /\
            req_data r =
              Some (PTicket
                      {| d_subject := t_subject t;
                         d_description := t_description t;
                         d_status := t_status t;
                         d_priority := t_priority t;
                         d_type := t_type t;
                         d_tags := default [] (t_tags t);
                         d_requester_id :=
                           match rid with
                           | Some id => if id =? 0 then None else Some id
                           | None => None
                           end |}))
    (calls (new_events s2 (snd (migrate_ticket_handler remote req s)))).
Proof.
  intros Hd E1 Ht Hstage.
  destruct (migrate_ticket_try_fetched remote req s s1 r1 t E1 Ht)
    as (rid' & s2' & Hstage' & Htry).
  rewrite Hstage in Hstage'. inversion Hstage'; subst rid' s2'. clear Hstage'.
  rewrite Hd in Htry.
  set (P := fun r : Request =>
              method r = "POST" ->
              r = ticket_create_request (target req) (ticket_draft t rid)).
  assert (HP : Forall P (calls (new_events s2 (snd (migrate_ticket_handler remote req s))))).
  { apply emits_new_events.
    unfold migrate_ticket_handler. unfold try_catch at 1. rewrite Htry.
    eapply (steps_try_catch (emits P)).
    - unfold get_data, migrateComments, migrateComments_try, get_data.
      steps_walk; apply steps_axios_emits; intros Hm; try discriminate Hm; reflexivity.
    - intros e. steps_walk. }
  eapply Forall_impl; [exact HP|]. intros r Hr Hm. rewrite (Hr Hm). simpl.
  split; [reflexivity|]. unfold ticket_draft, truthy_id.
  destruct rid as [id|]; [|reflexivity]. destruct (id =? 0); reflexivity.
Qed.

Lemma created_ticket_copies_source_witness :
  Forall (fun r =>
            method r = "POST" ->
            url r = "https://globex.zendesk.com/api/v2/tickets.json" /\
            req_data r =
              Some (PTicket
                      {| d_subject := "Printer on fire"; d_description := "It burns";
                         d_status := "open"; d_priority := Some "urgent";
                         d_type := None; d_tags := []; d_requester_id := None |}))
    (calls (new_events
              (snd (retryRequest3
                      (axios failing_comment_remote
                         (ticket_fetch_request 1 (account "acme")))
                      (logged "Migrating ticket #1" init_state)))
              (snd (migrate_ticket_handler failing_comment_remote
                      (migrate_request {| dryRun := false; migrateUsers := false;
                                          migrateCommentsOpt := true |})
                      init_state)))).
Proof.
  refine (created_ticket_copies_source failing_comment_remote
            (migrate_request {| dryRun := false; migrateUsers := false;
                                migrateCommentsOpt := true |})
            init_state _ _
            {| status := 200; retry_after := None; data := BTicket ticket_printer |}
            ticket_printer None _ _ _ _).
  - reflexivity.
  - vm_compute. reflexivity.
  - reflexivity.
  - reflexivity.
Defined.

(** ** More on the comment replicator *)

(** When the comment list cannot be fetched (the fetch throws, or the retry
    policy returns [undefined]), nothing is appended: the only requests are
    the attempts of the fetch, the failure is logged, and the function still
    completes without a value. *)
Theorem migrateComments_fetch_failure
    (remote : nat -> Request -> Completion Response)
    (sourceTicketId targetTicketId : Z) (source target : Credentials)
    (s : State) (e : Error) :
  let out := retryRequest3 (axios remote (comments_fetch_request sourceTicketId source)) s in
  fst out = Throw e \/ (fst out = Normal None /\ e = undefined_read "data") ->
  migrateComments remote sourceTicketId targetTicketId source target s =
  (Normal JUndefined,
   snd (console_error "Failed to migrate comments:" (message e) (snd out))) /\
  exists k, (1 <= k <= 3)%nat /\
            calls (new_events s
                     (snd (migrateComments remote sourceTicketId targetTicketId
                             source target s)))
            = replicate k (comments_fetch_request sourceTicketId source).
Proof.
  intros out H. subst out.
  destruct (retryRequest3 (axios remote (comments_fetch_request sourceTicketId source)) s)
    as [res s1] eqn:E.
  destruct (retryRequest3_axios _ _ _ _ _ E) as [_ (t & k & Ht & Hk & Hb & _)].
  simpl in H.
  assert (Heq : migrateComments remote sourceTicketId targetTicketId source target s =
                (Normal JUndefined,
                 snd (console_error "Failed to migrate comments:" (message e) s1))).
  { unfold migrateComments, try_catch, migrateComments_try.
    destruct H as [->|[-> ->]].
    - rewrite (bind_throw _ _ _ _ _ E). reflexivity.
    - rewrite (bind_normal _ _ _ _ _ E). reflexivity. }
  simpl. split; [exact Heq|]. rewrite Heq. exists k. split; [exact Hb|]. simpl.
  rewrite (new_events_app _ _ t) by exact Ht. exact Hk.
Qed.

Lemma migrateComments_fetch_failure_witness :
  let remote := scripted [] (rejects 429 (Some "1")) in
  migrateComments remote 1 2 (account "acme") (account "globex") init_state =
  (Normal JUndefined,
   snd (console_error "Failed to migrate comments:"
          "Cannot read properties of undefined (reading 'data')"
          (snd (retryRequest3 (axios remote (comments_fetch_request 1 (account "acme")))
                  init_state)))).
Proof.
  intros remote.
  refine (proj1 (migrateComments_fetch_failure remote 1 2 (account "acme")
                   (account "globex") init_state (undefined_read "data") _)).
  right. split; [vm_compute; reflexivity | reflexivity].
Defined.

(** Pacing: when the remote accepts the updates, each appended comment is
    followed by a pause of 300 ms, and there is no other wait: as many pauses
    as comments that are not skipped. *)
Theorem migrateComments_pacing
    (remote : nat -> Request -> Completion Response)
    (sourceTicketId targetTicketId : Z) (source target : Credentials)
    (s s1 : State) (resp : Response) :
  (forall k r, method r = "PUT" -> exists a, remote k r = Normal a) ->
  retryRequest3 (axios remote (comments_fetch_request sourceTicketId source)) s
    = (Normal (Some resp), s1) ->
  sleeps (new_events s1
            (snd (migrateComments remote sourceTicketId targetTicketId source target s)))
  = replicate (List.length (filter ordinary (default [] (body_comments (data resp)))))
      (Num 300).
Proof.
  intros Hacc E1.
  destruct (migrateComments_fetched remote sourceTicketId targetTicketId source target
              _ _ _ E1) as (s2 & Hloop & Hrun).
  rewrite Hrun. simpl.
  destruct (comments_loop_accepting remote targetTicketId target Hacc
              (default [] (body_comments (data resp))) s1)
    as (s2' & t & Hrun' & Ht & _ & Hs).
  rewrite Hloop in Hrun'. inversion Hrun'; subst s2'.
  rewrite (new_events_app s1 _ t) by exact Ht. exact Hs.
Qed.

Lemma migrateComments_pacing_witness :
  sleeps (new_events
            (snd (retryRequest3
                    (axios comments_remote (comments_fetch_request 1 (account "acme")))
                    init_state))
            (snd (migrateComments comments_remote 1 2 (account "acme")
                    (account "globex") init_state)))
  = [Num 300; Num 300].
Proof.
  refine (migrateComments_pacing comments_remote 1 2 (account "acme")
            (account "globex") init_state _
            {| status := 200; retry_after := None;
               data := BComments [comment_first; comment_api; comment_second] |}
            _ _).
  - intros k r _. unfold comments_remote, scripted.
    destruct k as [|k]; simpl; [|destruct k]; eexists; reflexivity.
  - vm_compute. reflexivity.
Defined.

(** ** The first version of the proxy *)

(** The first proxy checks no credentials: with an empty environment it
    still sends the request, to the host [undefined.zendesk.com], as user
    [undefined/token] and without a password. *)
Theorem env_proxy_missing_environment (remote : EnvRequest -> Completion Response)
    (req : EnvProxyReq) (path : string) :
  ep_url req = Some path ->
  String.prefix "/api/v2/" path = true ->
  snd (env_proxy_handler
         {| ZENDESK_DOMAIN := None; ZENDESK_EMAIL := None; ZENDESK_API_TOKEN := None |}
         remote req)
  = [{| er_method := ep_method req;
        er_url := ("https://undefined.zendesk.com" ++ path)%string;
        er_username := "undefined/token";
        er_password := None;
        er_data := ep_data req |}].
Proof.
  intros Hu Hp. unfold env_proxy_handler. rewrite Hu, Hp. simpl negb. cbv iota.
  destruct (remote _); reflexivity.
Qed.

Lemma env_proxy_missing_environment_witness :
  snd (env_proxy_handler
         {| ZENDESK_DOMAIN := None; ZENDESK_EMAIL := None; ZENDESK_API_TOKEN := None |}
         (fun _ => network_error)
         {| ep_method := Some "GET"; ep_url := Some "/api/v2/users/me.json";
            ep_data := None |})
  = [{| er_method := Some "GET";
        er_url := "https://undefined.zendesk.com/api/v2/users/me.json";
        er_username := "undefined/token";
        er_password := None;
        er_data := None |}].
Proof.
  apply (env_proxy_missing_environment (fun _ => network_error)
           {| ep_method := Some "GET"; ep_url := Some "/api/v2/users/me.json";
              ep_data := None |} "/api/v2/users/me.json"); reflexivity.
Defined.

(** ** How much one resolution costs *)

Lemma resolution_calls_length (remote : nat -> Request -> Completion Response)
    (userId : Z) (source target : Credentials) (s : State) (cs : list Request) :
  resolution_calls remote userId source target s cs ->
  (1 <= List.length cs <= 9)%nat.
Proof.
  intros (k1 & B1 & Hcs).
  destruct Hcs as [->|(user & k2 & _ & B2 & [->|(k3 & B3 & ->)])];
    rewrite ?length_app, ?length_replicate; lia.
Qed.

(** [migrateUser] never throws, whatever the remote does, and one call of it
    sends at most nine requests (three retried calls of three attempts);
    none when the key is cached. *)
Theorem migrateUser_never_throws (remote : nat -> Request -> Completion Response)
    (userId : Z) (source target : Credentials) (s : State) :
  exists v,
    fst (migrateUser remote userId source target s) = Normal v /\
    (List.length
       (calls (new_events s (snd (migrateUser remote userId source target s))))
     <= 9)%nat /\
    (is_Some (userCache s !! cache_key userId source target) ->
     snd (migrateUser remote userId source target s) = s).
Proof.
  destruct (migrateUser remote userId source target s) as [res s'] eqn:E.
  apply migrateUser_spec in E. destruct E as (v & -> & H).
  exists v. simpl. split; [reflexivity|].
  destruct (userCache s !! cache_key userId source target) as [cached|].
  - destruct H as [_ ->]. rewrite new_events_refl. simpl. split; [lia | reflexivity].
  - destruct H as [(t & Ht & Hcs) _]. rewrite (new_events_app _ _ _ Ht).
    apply resolution_calls_length in Hcs. split; [lia|].
    intros [? Hc]. discriminate Hc.
Qed.

Lemma proxy_missing_path_witness :
  exists s',
    proxy_handler (scripted [] (answers (BRaw "ok")))
      {| p_method := None; p_url := None; p_data := None;
         p_subdomain := Some "acme"; p_email := Some "ops@acme.example";
         p_token := Some "secret" |} init_state
    = (Normal {| code := 500;
                 json := JError (message (undefined_read "startsWith")) None None |}, s')
    /\ trace s' = trace init_state.
Proof.
  apply (proxy_missing_path (scripted [] (answers (BRaw "ok")))
           {| p_method := None; p_url := None; p_data := None;
              p_subdomain := Some "acme"; p_email := Some "ops@acme.example";
              p_token := Some "secret" |} init_state); reflexivity.
Defined.

(** ** Overlapping resolutions *)

Lemma complete_bind {A B} (t : Task A) (k : A -> Async B) :
  complete (task_bind t k)
  = match complete t with
    | (Normal a, s') => complete (k a s')
    | (Throw e, s') => (Throw e, s')
    end.
Proof.
  induction t as [[a|e] s|s resume IH]; simpl; [reflexivity | reflexivity | apply IH].
Qed.

Lemma complete_catch {A} (t : Task A) (h : Error -> Async A) :
  complete (task_catch t h)
  = match complete t with
    | (Normal a, s') => (Normal a, s')
    | (Throw e, s') => complete (h e s')
    end.
Proof.
  induction t as [[a|e] s|s resume IH]; simpl; [reflexivity | reflexivity | apply IH].
Qed.

Lemma refines_lift {A} (m : M A) : refines (a_lift m) m.
Proof. intros s. unfold a_lift. destruct (m s). reflexivity. Qed.

Lemma refines_bind {A B} (a : Async A) (m : M A) (ka : A -> Async B) (km : A -> M B) :
  refines a m -> (forall x, refines (ka x) (km x)) -> refines (a_bind a ka) (bind m km).
Proof.
  intros Ha Hk s. unfold a_bind, bind. rewrite complete_bind, Ha.
  destruct (m s) as [[x|e] s1]; [apply Hk | reflexivity].
Qed.

Lemma refines_try_catch {A} (a : Async A) (m : M A) (ha : Error -> Async A)
    (hm : Error -> M A) :
  refines a m -> (forall e, refines (ha e) (hm e)) ->
  refines (a_try_catch a ha) (try_catch m hm).
Proof.
  intros Ha Hh s. unfold a_try_catch, try_catch. rewrite complete_catch, Ha.
  destruct (m s) as [[x|e] s1]; [reflexivity | apply Hh].
Qed.

Lemma refines_axios (remote : nat -> Request -> Completion Response) (q : Request) :
  refines (a_axios remote q) (axios remote q).
Proof. intros s. reflexivity. Qed.

Lemma refines_sleep (ms : JsNum) : refines (a_sleep ms) (sleep ms).
Proof. intros s. reflexivity. Qed.

Lemma refines_retry_loop (a : Async Response) (f : M Response) (maxRetries : nat) :
  refines a f ->
  forall fuel attempt,
    refines (a_retry_loop a maxRetries fuel attempt) (retry_loop f maxRetries fuel attempt).
Proof.
  intros Ha. induction fuel as [|fuel IH]; intros attempt; simpl.
  - apply refines_lift.
  - destruct (attempt <=? maxRetries)%nat; [|apply refines_lift].
    apply refines_try_catch.
    + apply refines_bind; [exact Ha | intros r; apply refines_lift].
    + intros e. destruct (is_rate_limit e).
      * apply refines_bind; [apply refines_lift | intros _].
        apply refines_bind; [apply refines_sleep | intros _]. apply IH.
      * destruct (attempt =? maxRetries)%nat; [apply refines_lift|].
        apply refines_bind; [apply refines_sleep | intros _]. apply IH.
Qed.

Lemma refines_retryRequest3 (a : Async Response) (f : M Response) :
  refines a f -> refines (a_retryRequest3 a) (retryRequest3 f).
Proof. intros Ha. apply refines_retry_loop. exact Ha. Qed.

(** Run alone, the call with suspension points does exactly what
    [migrateUser] does: same result, same trace, same log, same cache. *)
Lemma refines_migrateUser (remote : nat -> Request -> Completion Response)
    (userId : Z) (source target : Credentials) :
  refines (a_migrateUser remote userId source target)
    (migrateUser remote userId source target).
Proof.
  unfold a_migrateUser, migrateUser.
  apply refines_bind; [apply refines_lift | intros hit].
  destruct hit; [apply refines_lift|].
  apply refines_try_catch; [|intros e; apply refines_lift].
  unfold a_migrateUser_try, migrateUser_try.
  apply refines_bind; [apply refines_retryRequest3; apply refines_axios | intros userResponse].
  apply refines_bind; [apply refines_lift | intros d].
  apply refines_bind.
  { apply refines_retryRequest3.
    apply refines_bind; [apply refines_lift | intros u; apply refines_axios]. }
  intros searchResponse.
  apply refines_bind; [apply refines_lift | intros d2].
  assert (Hcreate :
    refines
      (a_bind
         (a_retryRequest3
            (a_bind (a_lift (require (body_user d) "name"))
               (fun u => a_axios remote (user_create_request target u))))
         (fun createResponse =>
            a_lift
              (bind (get_data createResponse) (fun d0 =>
               bind (require (body_user d0) "id") (fun created =>
               bind (cache_set (cache_key userId source target) (Some (u_id created)))
                 (fun _ =>
               bind (require (body_user d) "email") (fun u =>
               bind (console_log ("Created user: " ++ u_email u)%string) (fun _ =>
               ret (Some (u_id created))))))))))
      (bind
         (retryRequest3
            (bind (require (body_user d) "name")
               (fun u => axios remote (user_create_request target u))))
         (fun createResponse =>
            bind (get_data createResponse) (fun d0 =>
            bind (require (body_user d0) "id") (fun created =>
            bind (cache_set (cache_key userId source target) (Some (u_id created)))
              (fun _ =>
            bind (require (body_user d) "email") (fun u =>
            bind (console_log ("Created user: " ++ u_email u)%string) (fun _ =>
            ret (Some (u_id created)))))))))).
  { apply refines_bind; [|intros createResponse; apply refines_lift].
    apply refines_retryRequest3.
    apply refines_bind; [apply refines_lift | intros u; apply refines_axios]. }
  destruct (body_users d2) as [[|existing others]|];
    [exact Hcreate | apply refines_lift | exact Hcreate].
Qed.

(** Two resolutions of one requester that overlap: both look the key up
    before either has stored it, both create the user, they return different
    identifiers (77 and 78), and the binding made by the first (77) is
    replaced by the second (78). *)
Lemma overlapping_resolutions_diverge :
  let call := a_migrateUser overlap_remote 5 (account "acme") (account "globex") in
  let key := cache_key 5 (account "acme") (account "globex") in
  let turns := [true; false; true; false; true; false] in
  let '(a7, _, s7) := interleave (turns ++ [true]) (Running call) (Running call)
                        init_state in
  let '(a8, b8, s8) := interleave (turns ++ [true; false]) (Running call) (Running call)
                         init_state in
  a7 = Ended (Normal (Some 77)) /\ userCache s7 !! key = Some (Some 77) /\
  a8 = Ended (Normal (Some 77)) /\ b8 = Ended (Normal (Some 78)) /\
  userCache s8 !! key = Some (Some 78) /\
  List.length (filter is_post (calls (trace s8))) = 2%nat.
Proof.
  vm_compute. split_and!; reflexivity.
Qed.

(** *** What holds under every interleaving *)

Section Interleaving.

Context (R : State -> State -> Prop) `{!Quiet R}.

Lemma async_keeps_lift {A} (m : M A) : steps R m -> async_keeps R (a_lift m).
Proof.
  intros Hm s. unfold a_lift. pose proof (Hm s) as H.
  destruct (m s) as [c s']. simpl in *. split; [exact H | exact I].
Qed.

Lemma task_bind_keeps {A B} (k : A -> Async B) :
  (forall a, async_keeps R (k a)) ->
  forall (t : Task A) (s0 : State),
    R s0 (task_state t) -> task_keeps R t ->
    R s0 (task_state (task_bind t k)) /\ task_keeps R (task_bind t k).
Proof.
  intros Hk. induction t as [[a|e] s|s resume IH]; intros s0 H0 Ht; simpl in *.
  - destruct (Hk a s) as [H1 H2]. split; [|exact H2].
    eapply quiet_trans; eassumption.
  - split; [exact H0 | exact I].
  - split; [exact H0|]. intros s'. destruct (Ht s') as [H1 H2].
    apply IH; assumption.
Qed.

Lemma async_keeps_bind {A B} (m : Async A) (k : A -> Async B) :
  async_keeps R m -> (forall a, async_keeps R (k a)) -> async_keeps R (a_bind m k).
Proof.
  intros Hm Hk s. unfold a_bind. destruct (Hm s) as [H1 H2].
  apply task_bind_keeps; assumption.
Qed.

Lemma task_catch_keeps {A} (h : Error -> Async A) :
  (forall e, async_keeps R (h e)) ->
  forall (t : Task A) (s0 : State),
    R s0 (task_state t) -> task_keeps R t ->
    R s0 (task_state (task_catch t h)) /\ task_keeps R (task_catch t h).
Proof.
  intros Hh. induction t as [[a|e] s|s resume IH]; intros s0 H0 Ht; simpl in *.
  - split; [exact H0 | exact I].
  - destruct (Hh e s) as [H1 H2]. split; [|exact H2].
    eapply quiet_trans; eassumption.
  - split; [exact H0|]. intros s'. destruct (Ht s') as [H1 H2].
    apply IH; assumption.
Qed.

Lemma async_keeps_try_catch {A} (m : Async A) (h : Error -> Async A) :
  async_keeps R m -> (forall e, async_keeps R (h e)) ->
  async_keeps R (a_try_catch m h).
Proof.
  intros Hm Hh s. unfold a_try_catch. destruct (Hm s) as [H1 H2].
  apply task_catch_keeps; assumption.
Qed.

Lemma async_keeps_axios (remote : nat -> Request -> Completion Response) (q : Request) :
  steps R (axios remote q) -> async_keeps R (a_axios remote q).
Proof.
  intros Hq s. unfold a_axios. simpl. split; [apply Hq|].
  intros s'. simpl. split; [apply quiet_refl | exact I].
Qed.

Lemma async_keeps_sleep (ms : JsNum) : async_keeps R (a_sleep ms).
Proof.
  intros s. unfold a_sleep. simpl. split; [apply quiet_sleep|].
  intros s'. simpl. split; [apply quiet_refl | exact I].
Qed.

Lemma async_keeps_retry_loop (a : Async Response) (maxRetries : nat) :
  async_keeps R a ->
  forall fuel attempt, async_keeps R (a_retry_loop a maxRetries fuel attempt).
Proof.
  intros Ha. induction fuel as [|fuel IH]; intros attempt; simpl.
  - apply async_keeps_lift. apply steps_ret; assumption.
  - destruct (attempt <=? maxRetries)%nat;
      [|apply async_keeps_lift; apply steps_ret; assumption].
    apply async_keeps_try_catch.
    + apply async_keeps_bind; [exact Ha|].
      intros r. apply async_keeps_lift. apply steps_ret; assumption.
    + intros e. destruct (is_rate_limit e).
      * apply async_keeps_bind;
          [apply async_keeps_lift; apply steps_console_log; assumption | intros _].
        apply async_keeps_bind; [apply async_keeps_sleep | intros _]. apply IH.
      * destruct (attempt =? maxRetries)%nat;
          [apply async_keeps_lift; apply steps_throw; assumption|].
        apply async_keeps_bind; [apply async_keeps_sleep | intros _]. apply IH.
Qed.

Lemma advance_keeps {A} (sl : Slot A) (s : State) :
  slot_keeps R sl ->
  R s (snd (advance sl s)) /\ slot_keeps R (fst (advance sl s)).
Proof.
  destruct sl as [resume|c]; simpl; intros H.
  - destruct (H s) as [H1 H2]. destruct (resume s) as [c s'|s' resume']; simpl in *.
    + split; [exact H1 | exact I].
    + split; [exact H1 | exact H2].
  - split; [apply quiet_refl | exact I].
Qed.

Lemma interleave_keeps {A B} (schedule : list bool) :
  forall (a : Slot A) (b : Slot B) (s : State),
    slot_keeps R a -> slot_keeps R b ->
    R s (snd (interleave schedule a b s)).
Proof.
  induction schedule as [|turn rest IH]; intros a b s Ha Hb; simpl.
  - apply quiet_refl.
  - destruct turn.
    + destruct (advance_keeps a s Ha) as [H1 H2].
      destruct (advance a s) as [a' s']. simpl in *.
      eapply quiet_trans; [exact H1 | apply IH; assumption].
    + destruct (advance_keeps b s Hb) as [H1 H2].
      destruct (advance b s) as [b' s']. simpl in *.
      eapply quiet_trans; [exact H1 | apply IH; assumption].
Qed.

End Interleaving.

#[local] Instance cache_safe_quiet : Quiet cache_safe.
Proof.
  split; unfold cache_safe.
  - intros s. split; [reflexivity | tauto].
  - intros a b c [D1 O1] [D2 O2]. split; [etransitivity; eassumption | tauto].
  - intros msg s. simpl. split; [reflexivity | tauto].
  - intros msg arg s. simpl. split; [reflexivity | tauto].
  - intros ms s. simpl. split; [reflexivity | tauto].
Qed.

Lemma steps_axios_safe (remote : nat -> Request -> Completion Response) (q : Request) :
  steps cache_safe (axios remote q).
Proof. intros s. unfold cache_safe. simpl. split; [reflexivity | tauto]. Qed.

(** Storing an identifier replaces at most the value of its key. *)
Lemma steps_cache_set_safe (k : string) (id : Z) :
  steps cache_safe (cache_set k (Some id)).
Proof.
  intros s. unfold cache_safe. simpl. split.
  - rewrite dom_insert_L. set_solver.
  - intros Hok. eapply (keeps_cache_set k id s); [reflexivity | exact Hok].
Qed.

#[local] Hint Resolve steps_axios_safe steps_cache_set_safe : steps.

Lemma async_keeps_migrateUser (remote : nat -> Request -> Completion Response)
    (userId : Z) (source target : Credentials) :
  async_keeps cache_safe (a_migrateUser remote userId source target).
Proof.
  assert (Hretry : forall (a : Async Response),
             async_keeps cache_safe a -> async_keeps cache_safe (a_retryRequest3 a)).
  { intros a Ha. apply async_keeps_retry_loop; [typeclasses eauto | exact Ha]. }
  assert (Hcall : forall q, async_keeps cache_safe (a_axios remote q)).
  { intros q. apply async_keeps_axios; [typeclasses eauto | apply steps_axios_safe]. }
  assert (Hclosure : forall (o : option User) (prop : string) (mk : User -> Request),
             async_keeps cache_safe
               (a_bind (a_lift (require o prop)) (fun u => a_axios remote (mk u)))).
  { intros o prop mk. apply async_keeps_bind; [typeclasses eauto | | intros u; apply Hcall].
    apply async_keeps_lift; steps_walk. }
  unfold a_migrateUser.
  apply async_keeps_bind; [typeclasses eauto | | intros hit].
  { apply async_keeps_lift; steps_walk. }
  destruct hit.
  { apply async_keeps_lift; steps_walk. }
  apply async_keeps_try_catch; [typeclasses eauto | | intros e].
  2:{ apply async_keeps_lift; steps_walk. }
  unfold a_migrateUser_try.
  apply async_keeps_bind; [typeclasses eauto | apply Hretry, Hcall | intros userResponse].
  apply async_keeps_bind; [typeclasses eauto | | intros d].
  { apply async_keeps_lift; unfold get_data; steps_walk. }
  apply async_keeps_bind; [typeclasses eauto | apply Hretry, Hclosure | intros searchResponse].
  apply async_keeps_bind; [typeclasses eauto | | intros d2].
  { apply async_keeps_lift; unfold get_data; steps_walk. }
  assert (Hcreate : forall k0 : option Response -> M (option Z),
             (forall r, steps cache_safe (k0 r)) ->
             async_keeps cache_safe
               (a_bind
                  (a_retryRequest3
                     (a_bind (a_lift (require (body_user d) "name"))
                        (fun u => a_axios remote (user_create_request target u))))
                  (fun createResponse => a_lift (k0 createResponse)))).
  { intros k0 Hk0. apply async_keeps_bind; [typeclasses eauto | apply Hretry, Hclosure |].
    intros r. apply async_keeps_lift; apply Hk0. }
  destruct (body_users d2) as [[|existing others]|].
  - apply Hcreate. intros r. unfold get_data. steps_walk.
  - apply async_keeps_lift; steps_walk.
  - apply Hcreate. intros r. unfold get_data. steps_walk.
Qed.

(** However two calls of [migrateUser] overlap (any arguments, any order of
    their steps, any answers of the remote, stopped anywhere), no key that
    was cached is lost, and no [null] is stored.  Values are not protected:
    an overlapping resolution of the same key may replace one. *)
Theorem overlapping_resolutions_keep_keys
    (remote : nat -> Request -> Completion Response)
    (userId1 userId2 : Z) (source1 target1 source2 target2 : Credentials)
    (schedule : list bool) (s : State) :
  let s' := snd (interleave schedule
                   (Running (a_migrateUser remote userId1 source1 target1))
                   (Running (a_migrateUser remote userId2 source2 target2)) s) in
  dom (userCache s) ⊆ dom (userCache s') /\ (cache_ok s -> cache_ok s').
Proof.
  apply (interleave_keeps cache_safe schedule); simpl; apply async_keeps_migrateUser.
Qed.

(** ** A source user that is not there *)

(** When the fetched body holds no user, reading [user.email] throws inside
    the operation handed to [retryRequest]: no search is sent, the retry
    policy still waits 2 s and 4 s, and [migrateUser] returns [null] with the
    [TypeError] logged and nothing cached. *)
Theorem migrateUser_without_source_user
    (remote : nat -> Request -> Completion Response)
    (userId : Z) (source target : Credentials) (s s1 : State) (r1 : Response) :
  userCache s !! cache_key userId source target = None ->
  retryRequest3 (axios remote (user_fetch_request userId source)) s
    = (Normal (Some r1), s1) ->
  body_user (data r1) = None ->
  migrateUser remote userId source target s =
  (Normal None,
   {| clock := clock s1;
      trace := trace s1 ++ [ESleep (Num 2000); ESleep (Num 4000)];
      console := console s1
                 ++ [LogError ("Failed to migrate user " ++ pretty userId ++ ":")%string
                       "Cannot read properties of undefined (reading 'email')"];
      userCache := userCache s |}).
Proof.
  intros Hmiss E1 Hu.
  destruct (retryRequest3_axios _ _ _ _ _ E1) as [C1 _].
  unfold migrateUser, bind at 1, cache_has. rewrite Hmiss.
  rewrite bool_decide_eq_false_2 by (intros [? ?]; discriminate).
  unfold try_catch, migrateUser_try.
  rewrite (bind_normal _ _ _ _ _ E1).
  rewrite (bind_normal _ _ _ _ _ (get_data_some r1 s1)). cbv zeta. rewrite Hu.
  rewrite (bind_throw _ _ _ _ _ (retryRequest3_undefined_read _ _ _)).
  unfold bind, console_error, ret. simpl. rewrite <- app_assoc, C1. reflexivity.
Qed.

Lemma migrateUser_without_source_user_witness :
  let remote := scripted [answers (BRaw "{}")] network_error in
  fst (migrateUser remote 5 (account "acme") (account "globex") init_state)
  = Normal None.
Proof.
  intros remote.
  refine (f_equal fst
            (migrateUser_without_source_user remote 5 (account "acme")
               (account "globex") init_state _
               {| status := 200; retry_after := None; data := BRaw "{}" |} _ _ _)).
  - reflexivity.
  - vm_compute. reflexivity.
  - reflexivity.
Defined.
